(** * jamf_login_log: the login-window log watcher, its installer and its
      teardown tool

    A shallow embedding of [jamf_login_log_launchagent.py] (the installer
    script and the watcher script it carries in [log_script]) and of
    [remove_launch_agent.py], with the properties of their specification
    that can be settled on the code.

    Conventions of the embedding.
    - A Python [unicode] or [str] value is a [string]; a character of the
      model is a code point below 256.
    - A call that can raise returns an [outcome]; where the source mutates
      an object before it raises, the function returns the mutated state
      next to the outcome.
    - What the scripts read from the machine (SystemConfiguration, the file
      system, process spawning) is an explicit argument. *)

From Stdlib Require Import Ascii String ZArith Bool Lia.
From stdpp Require Import base option list strings gmap.

Set Warnings "-register-all".

Local Open Scope Z_scope.
Local Open Scope stdpp_scope.

(* ===================================================================== *)
(** ** Exceptions *)
(* ===================================================================== *)

(** The exception classes that the modelled code can raise or names in an
    [except] clause. *)
Inductive exn : Type :=
  | TypeError
  | KeyError
  | IndexError
  | AttributeError
  | NameError
  | ValueError
  | IOError
  | OSError
  | ExpatError
  | CalledProcessError
  | NSRangeException.

Global Instance exn_eq_dec : EqDecision exn.
Proof. solve_decision. Defined.

Inductive outcome (A : Type) : Type :=
  | Ok (a : A)
  | Raise (e : exn).
Arguments Ok {A} a.
Arguments Raise {A} e.

Global Instance outcome_ret : MRet outcome := λ A a, Ok a.
Global Instance outcome_bind : MBind outcome := λ A B k m,
  match m with
  | Ok a => k a
  | Raise e => Raise e
  end.

Definition of_option {A} (e : exn) (o : option A) : outcome A :=
  match o with
  | Some a => Ok a
  | None => Raise e
  end.

(** [try: body except: handler], with a bare [except] clause. *)
Definition try_except_all {A} (body : outcome A) (handler : A) : A :=
  match body with
  | Ok a => a
  | Raise _ => handler
  end.

(** [try: body except E: handler]: only [E] is handled. *)
Definition try_except {A} (body : outcome A) (E : exn) (handler : outcome A)
  : outcome A :=
  match body with
  | Ok a => Ok a
  | Raise e => if decide (e = E) then handler else Raise e
  end.

(* ===================================================================== *)
(** ** Python string methods used by the scripts *)
(* ===================================================================== *)

Module PyStr.

Definition LF : ascii := "010"%char.
Definition CR : ascii := "013"%char.
Definition TAB : ascii := "009"%char.

Definition code (c : ascii) : N := N_of_ascii c.

(** [unicode.isspace] on one character, for code points below 256. *)
Definition is_space (c : ascii) : bool :=
  let n := code c in
  ((9 <=? n) && (n <=? 13) || (28 <=? n) && (n <=? 32)
   || (n =? 133) || (n =? 160))%N.

(** The line boundaries of [unicode.splitlines] below 256. *)
Definition is_linebreak (c : ascii) : bool :=
  let n := code c in
  ((10 <=? n) && (n <=? 13) || (28 <=? n) && (n <=? 30) || (n =? 133))%N.

(** [unicode.lower] on one character: A-Z and the Latin-1 capitals. *)
Definition lower_char (c : ascii) : ascii :=
  let n := code c in
  if ((65 <=? n) && (n <=? 90)
      || (192 <=? n) && (n <=? 222) && negb (n =? 215))%N
  then ascii_of_N (n + 32) else c.

Fixpoint lower (s : string) : string :=
  match s with
  | EmptyString => EmptyString
  | String c s' => String (lower_char c) (lower s')
  end.

(** [str.lower] on the bytes of a [str]: A-Z only. *)
Definition lower_byte (c : ascii) : ascii :=
  let n := code c in
  if ((65 <=? n) && (n <=? 90))%N then ascii_of_N (n + 32) else c.

Fixpoint lower_bytes (s : string) : string :=
  match s with
  | EmptyString => EmptyString
  | String c s' => String (lower_byte c) (lower_bytes s')
  end.

(** [s.startswith(p)] *)
Fixpoint startswith (s p : string) {struct p} : bool :=
  match p with
  | EmptyString => true
  | String a p' =>
      match s with
      | EmptyString => false
      | String b s' => if Ascii.eqb a b then startswith s' p' else false
      end
  end.

(** [sub in s] *)
Fixpoint contains (sub s : string) : bool :=
  if startswith s sub then true
  else match s with
       | EmptyString => false
       | String _ s' => contains sub s'
       end.

(** [s[n:]] *)
Fixpoint drop (n : nat) (s : string) : string :=
  match n, s with
  | O, _ => s
  | S _, EmptyString => EmptyString
  | S n', String _ s' => drop n' s'
  end.

(** [s.partition(sep)] for a one-character separator. *)
Fixpoint partition (sep : ascii) (s : string) : string * string * string :=
  match s with
  | EmptyString => (EmptyString, EmptyString, EmptyString)
  | String c s' =>
      if Ascii.eqb c sep then (EmptyString, String sep EmptyString, s')
      else match partition sep s' with
           | (a, EmptyString, _) => (s, EmptyString, EmptyString)
           | (a, m, b) => (String c a, m, b)
           end
  end.

(** [s.split(sep)] for a one-character separator. *)
Fixpoint split (sep : ascii) (s : string) : list string :=
  match s with
  | EmptyString => [EmptyString]
  | String c s' =>
      if Ascii.eqb c sep then EmptyString :: split sep s'
      else match split sep s' with
           | h :: t => String c h :: t
           | [] => [String c EmptyString]
           end
  end.

(** [s.split(sep, 1)] for a one-character separator. *)
Definition split1 (sep : ascii) (s : string) : list string :=
  match partition sep s with
  | (_, EmptyString, _) => [s]
  | (a, _, b) => [a; b]
  end.

Fixpoint lstrip (s : string) : string :=
  match s with
  | EmptyString => EmptyString
  | String c s' => if is_space c then lstrip s' else s
  end.

Fixpoint rstrip (s : string) : string :=
  match s with
  | EmptyString => EmptyString
  | String c s' =>
      match rstrip s' with
      | EmptyString => if is_space c then EmptyString
                       else String c EmptyString
      | r => String c r
      end
  end.

(** [s.strip()] *)
Definition strip (s : string) : string := rstrip (lstrip s).

(** [s.rstrip(chars)] for a one-character set. *)
Fixpoint rstrip_char (ch : ascii) (s : string) : string :=
  match s with
  | EmptyString => EmptyString
  | String c s' =>
      match rstrip_char ch s' with
      | EmptyString => if Ascii.eqb c ch then EmptyString
                       else String c EmptyString
      | r => String c r
      end
  end.

(** [s.endswith(ch)] for one character. *)
Fixpoint endswith_char (s : string) (ch : ascii) : bool :=
  match s with
  | EmptyString => false
  | String c EmptyString => Ascii.eqb c ch
  | String _ s' => endswith_char s' ch
  end.

Definition snoc (s : string) (c : ascii) : string :=
  s +:+ String c EmptyString.

Definition head_is (s : string) (ch : ascii) : bool :=
  match s with
  | String c _ => Ascii.eqb c ch
  | EmptyString => false
  end.

(** [s.splitlines(True)]: [cur] is the line read so far.  A carriage
    return directly followed by a line feed ends the line only after the
    line feed. *)
Fixpoint splitlines_go (cur s : string) : list string :=
  match s with
  | EmptyString =>
      match cur with
      | EmptyString => []
      | _ => [cur]
      end
  | String c s' =>
      if is_linebreak c then
        if Ascii.eqb c CR && head_is s' LF
        then splitlines_go (snoc cur c) s'
        else snoc cur c :: splitlines_go EmptyString s'
      else splitlines_go (snoc cur c) s'
  end.

Definition splitlines_keepends (s : string) : list string :=
  splitlines_go EmptyString s.

(** [sep.join(l)] *)
Fixpoint join (sep : string) (l : list string) : string :=
  match l with
  | [] => EmptyString
  | [x] => x
  | x :: l' => x +:+ sep +:+ join sep l'
  end.

End PyStr.

(* ===================================================================== *)
(** ** The watcher: [JamfLogSource] *)
(* ===================================================================== *)

(** The colours of [NSColor] that [nsColorForColor_] can name. *)
Inductive NSColor : Type :=
  | blackColor | blueColor | brownColor | cyanColor | darkGrayColor
  | grayColor | greenColor | lightGrayColor | magentaColor | orangeColor
  | purpleColor | redColor | whiteColor | yellowColor.

Global Instance NSColor_eq_dec : EqDecision NSColor.
Proof. solve_decision. Defined.

Definition nsColorForColor_ (color : string) : NSColor :=
  if String.eqb color "black" then blackColor
  else if String.eqb color "blue" then blueColor
  else if String.eqb color "brown" then brownColor
  else if String.eqb color "cyan" then cyanColor
  else if String.eqb color "darkgray" then darkGrayColor
  else if String.eqb color "gray" then grayColor
  else if String.eqb color "green" then greenColor
  else if String.eqb color "lightgray" then lightGrayColor
  else if String.eqb color "magenta" then magentaColor
  else if String.eqb color "orange" then orangeColor
  else if String.eqb color "purple" then purpleColor
  else if String.eqb color "red" then redColor
  else if String.eqb color "white" then lightGrayColor
  else if String.eqb color "yellow" then yellowColor
  else blackColor.

(** One turn of the loop over the attributes of a directive. *)
Definition parse_attr (color : NSColor) (attr : string) : NSColor :=
  if PyStr.contains "=" attr then
    match map (λ x, PyStr.lower (PyStr.strip x)) (PyStr.split1 "=" attr) with
    | [key; value] =>
        if String.eqb key "color" then nsColorForColor_ value else color
    | _ => color
    end
  else color.

Definition parseLineAttr_ (line : string) : string * NSColor :=
  if PyStr.startswith line "%{" && PyStr.contains "}" line then
    let '(attrStr, _, rest) := PyStr.partition "}" (PyStr.drop 2 line) in
    let color :=
      fold_left parse_attr (map PyStr.strip (PyStr.split "," attrStr))
                blackColor in
    (rest, color)
  else (line, blackColor).

(** The data source of the table view.  [log_file_data] and
    [log_file_color] are the two [NSMutableArray]s. *)
Record JamfLogSource : Type := {
  log_file_data : list string;
  log_file_color : list NSColor;
  last_line_is_partial : bool
}.

Definition JamfLogSource_init : JamfLogSource :=
  {| log_file_data := []; log_file_color := [];
     last_line_is_partial := false |}.

(** [addLine_partial_].  In the partial branch [lastObject()] of an empty
    array is [None] and [None + line] raises [TypeError] before anything is
    changed; [removeLastObject] of an empty array raises
    [NSRangeException], after the text array has lost its last line. *)
Definition addLine_partial_ (self : JamfLogSource) (line : string)
    (isPartial : bool) : JamfLogSource * outcome unit :=
  if last_line_is_partial self then
    match last (log_file_data self) with
    | None => (self, Raise TypeError)
    | Some lastObject =>
        let '(new_line, color) := parseLineAttr_ (lastObject +:+ line) in
        let data1 := removelast (log_file_data self) in
        match log_file_color self with
        | [] =>
            ({| log_file_data := data1; log_file_color := [];
                last_line_is_partial := true |}, Raise NSRangeException)
        | _ =>
            ({| log_file_data := data1 ++ [new_line];
                log_file_color := removelast (log_file_color self) ++ [color];
                last_line_is_partial := isPartial |}, Ok tt)
        end
    end
  else
    let '(new_line, color) := parseLineAttr_ line in
    ({| log_file_data := log_file_data self ++ [new_line];
        log_file_color := log_file_color self ++ [color];
        last_line_is_partial := isPartial |}, Ok tt).

Definition removeAllLines (self : JamfLogSource) : JamfLogSource :=
  {| log_file_data := [];
     log_file_color := log_file_color self;
     last_line_is_partial := last_line_is_partial self |}.

Definition lineCount (self : JamfLogSource) : nat :=
  length (log_file_data self).

(** The text shown in row [row] ([objectAtIndex_]). *)
Definition tableView_objectValueForTableColumn_row_ (self : JamfLogSource)
    (row : nat) : outcome string :=
  of_option NSRangeException (log_file_data self !! row).

(** The text colour given to the cell of row [row]. *)
Definition tableView_dataCellForTableColumn_row_ (self : JamfLogSource)
    (row : nat) : outcome NSColor :=
  of_option IndexError (log_file_color self !! row).

(** The loop of [refreshLog] over the lines of one decoded chunk; it stops
    at the first exception. *)
Fixpoint add_lines (self : JamfLogSource) (lines : list string)
  : JamfLogSource * outcome unit :=
  match lines with
  | [] => (self, Ok tt)
  | line :: rest =>
      let '(self', r) :=
        if PyStr.endswith_char line PyStr.LF
        then addLine_partial_ self (PyStr.rstrip_char PyStr.LF line) false
        else addLine_partial_ self line true in
      match r with
      | Ok _ => add_lines self' rest
      | Raise e => (self', Raise e)
      end
  end.

(** The log part of [refreshLog] for the text [utf8string] decoded from
    the available data; no data leaves the store alone. *)
Definition refreshLog_data (self : JamfLogSource) (utf8string : string)
  : JamfLogSource * outcome unit :=
  match utf8string with
  | EmptyString => (self, Ok tt)
  | _ => add_lines self (PyStr.splitlines_keepends utf8string)
  end.

(** Successive refreshes, one per chunk. *)
Fixpoint refreshLog_chunks (self : JamfLogSource) (chunks : list string)
  : JamfLogSource * outcome unit :=
  match chunks with
  | [] => (self, Ok tt)
  | c :: cs =>
      match refreshLog_data self c with
      | (self', Ok _) => refreshLog_chunks self' cs
      | (self', Raise e) => (self', Raise e)
      end
  end.

(* ===================================================================== *)
(** ** The watcher: the three snapshots of [refreshLog] *)
(* ===================================================================== *)

(** Python values as [plistlib] and SystemConfiguration hand them to the
    scripts.  Real numbers, dates and binary data are left out. *)
Inductive pyval : Type :=
  | PNone
  | PBool (b : bool)
  | PInt (n : Z)
  | PStr (s : string)
  | PList (l : list pyval)
  | PDict (d : gmap string pyval).

Definition as_int (v : pyval) : option Z :=
  match v with
  | PBool b => Some (if b then 1 else 0)
  | PInt n => Some n
  | _ => None
  end.

(** Python's [==]: a dict compares by keys and values whatever the order
    of insertion, and [True == 1]. *)
Fixpoint py_eq (a b : pyval) {struct a} : bool :=
  match a, b with
  | PNone, PNone => true
  | PStr s, PStr t => String.eqb s t
  | (PBool _ | PInt _), (PBool _ | PInt _) =>
      match as_int a, as_int b with
      | Some x, Some y => x =? y
      | _, _ => false
      end
  | PList l, PList m =>
      (fix go (l m : list pyval) {struct l} : bool :=
         match l, m with
         | [], [] => true
         | x :: l', y :: m' => py_eq x y && go l' m'
         | _, _ => false
         end) l m
  | PDict d, PDict e =>
      (size d =? size e)%nat &&
      map_fold (λ k v acc,
                 acc && match e !! k with
                        | Some v' => py_eq v v'
                        | None => false
                        end) true d
  | _, _ => false
  end.

(** [v[key]] for a string key. *)
Definition py_getitem (v : pyval) (key : string) : outcome pyval :=
  match v with
  | PDict d => of_option KeyError (d !! key)
  | _ => Raise TypeError
  end.

(** [v.get(key, default)] *)
Definition py_get (v : pyval) (key : string) (dflt : pyval)
  : outcome pyval :=
  match v with
  | PDict d => Ok (default dflt (d !! key))
  | _ => Raise AttributeError
  end.

(** A value of a dictionary of the dynamic store: text or an array of
    text (the entries the watcher reads are of these two kinds). *)
Inductive property : Type :=
  | Text (s : string)
  | Texts (l : list string).

(** What an [SCNetworkInterface] answers to the three getters; [None] is
    Python's [None]. *)
Record SCNetworkInterface : Type := {
  BSDName : option string;
  LocalizedDisplayName : option string;
  HardwareAddressString : option string
}.

(** The state of the machine that one refresh reads.
    - [preferences_system]: the value of
      [SCPreferencesGetValue(prefs, "System")], or the exception of the call;
    - [dynamic_store]: the dictionaries of the dynamic store by key;
    - [network_interfaces]: the result of [SCNetworkInterfaceCopyAll()];
    - [pgrep]: the result of [check_output(["pgrep", "-fl", "jamf"])]. *)
Record system : Type := {
  preferences_system : outcome pyval;
  dynamic_store : gmap string (gmap string property);
  network_interfaces : option (list SCNetworkInterface);
  pgrep : outcome string
}.

(** [None] for a key the store does not hold. *)
Definition SCDynamicStoreCopyValue (sys : system) (key : string)
  : option (gmap string property) :=
  dynamic_store sys !! key.

(** [value.get(key)] on what the store answered. *)
Definition store_get (value : option (gmap string property)) (key : string)
  : outcome (option property) :=
  match value with
  | None => Raise AttributeError
  | Some d => Ok (d !! key)
  end.

(** The body of the [try] of [get_sc_computername]. *)
Definition computername_lookup (sys : system) : outcome pyval :=
  prefs ← preferences_system sys;
  sys_dict ← py_getitem prefs "System";
  py_getitem sys_dict "ComputerName".

Definition get_sc_computername (sys : system) : pyval :=
  try_except_all (computername_lookup sys) (PStr "Unknown").

(** The body of the [try] of [get_jamf_command]. *)
Definition jamf_command_lookup (sys : system) : outcome pyval :=
  out ← pgrep sys; mret (PStr out).

Definition get_jamf_command (sys : system) : pyval :=
  try_except_all (jamf_command_lookup sys) (PStr "Unknown").

(** One entry of [connectedDevices]: a dict with the keys [interface] and
    [address], and, once [update] has run on it, [name] and [mac]. *)
Record device : Type := {
  dev_interface : string;
  dev_address : option property;
  dev_name_mac : option (option string * option string)
}.

(** [for x in v] *)
Definition property_iter (v : option property) : outcome (list string) :=
  match v with
  | None => Raise TypeError
  | Some (Texts l) => Ok l
  | Some (Text s) =>
      Ok (map (λ c, String c EmptyString) (list_ascii_of_string s))
  end.

(** The first loop of [get_network_info], over the names of
    [State:/Network/Interface]. *)
Fixpoint connected_devices (sys : system) (interfaces : list string)
  : outcome (list device) :=
  match interfaces with
  | [] => Ok []
  | interface :: rest =>
      let status :=
        SCDynamicStoreCopyValue sys
          ("State:/Network/Interface/" +:+ interface +:+ "/IPv4") in
      if bool_decide (status ≠ None) && negb (String.eqb interface "lo0")
      then
        address ← store_get status "Addresses";
        tail ← connected_devices sys rest;
        mret ({| dev_interface := interface; dev_address := address;
                 dev_name_mac := None |} :: tail)
      else connected_devices sys rest
  end.

(** [i.update(name=..., mac=...)] if [i["interface"] == bsdName]. *)
Definition update_device (interface : SCNetworkInterface) (i : device)
  : device :=
  if bool_decide (Some (dev_interface i) = BSDName interface)
  then {| dev_interface := dev_interface i;
          dev_address := dev_address i;
          dev_name_mac := Some (LocalizedDisplayName interface,
                                HardwareAddressString interface) |}
  else i.

(** The list comprehension of the second loop for one copied interface.
    Nothing in it raises, so its [except TypeError] is never entered. *)
Definition update_devices (interface : SCNetworkInterface)
    (connectedDevices : list device) : list device :=
  map (update_device interface) connectedDevices.

(** [v[0]] *)
Definition property_first (v : option property) : outcome string :=
  match v with
  | None => Raise TypeError
  | Some (Texts (x :: _)) => Ok x
  | Some (Texts []) => Raise IndexError
  | Some (Text (String c _)) => Ok (String c EmptyString)
  | Some (Text EmptyString) => Raise IndexError
  end.

(** ["%s" % v] for text and [None]. *)
Definition format_s (v : option string) : string :=
  match v with
  | Some s => s
  | None => "None"
  end.

(** The line of the summary for a device with these values. *)
Definition summary_line (mac : option string) (address0 : string)
    (name : option string) (interface : string) : string :=
  format_s mac +:+ String PyStr.TAB address0
  +:+ String PyStr.TAB (format_s name)
  +:+ " (" +:+ interface +:+ ")".

(** One line of the summary, ["%s\t%s\t%s (%s)"]; the tuple is built from
    left to right, so a missing [mac] raises first. *)
Definition format_device (i : device) : outcome string :=
  '(name, mac) ← of_option KeyError (dev_name_mac i);
  address0 ← property_first (dev_address i);
  mret (summary_line mac address0 name (dev_interface i)).

Fixpoint format_devices (l : list device) : outcome (list string) :=
  match l with
  | [] => Ok []
  | i :: rest =>
      line ← format_device i;
      lines ← format_devices rest;
      mret (line :: lines)
  end.

Definition LFs : string := String PyStr.LF EmptyString.

(** The first part of the [try] of [get_network_info]: the active
    interfaces other than [lo0]. *)
Definition active_devices (sys : system) : outcome (list device) :=
  interfaces ←
    store_get (SCDynamicStoreCopyValue sys "State:/Network/Interface")
              "Interfaces";
  names ← property_iter interfaces;
  connected_devices sys names.

(** The second loop, over the copied interfaces. *)
Definition join_interfaces (copiedInterfaces : list SCNetworkInterface)
    (connectedDevices : list device) : list device :=
  fold_left (λ devs interface, update_devices interface devs)
            copiedInterfaces connectedDevices.

(** The body of the [try] of [get_network_info]. *)
Definition network_info_lookup (sys : system) : outcome pyval :=
  connectedDevices ← active_devices sys;
  copiedInterfaces ← of_option TypeError (network_interfaces sys);
  lines ← format_devices (join_interfaces copiedInterfaces connectedDevices);
  mret (PStr (PyStr.join LFs lines)).

Definition get_network_info (sys : system) : outcome pyval :=
  try_except (network_info_lookup sys) KeyError (Ok (PStr "Unknown")).

(** What the second loop does to one device. *)
Definition joined (copiedInterfaces : list SCNetworkInterface) (d : device)
  : device :=
  fold_left (λ d i, update_device i d) copiedInterfaces d.

(** A copied interface has the BSD name of the device. *)
Definition resolved (copiedInterfaces : list SCNetworkInterface)
    (i : device) : bool :=
  existsb (λ interface,
             bool_decide (Some (dev_interface i) = BSDName interface))
          copiedInterfaces.

(** [line] is the line of the summary for the device [d], with the name
    and the address of a copied interface that has its BSD name. *)
Definition listed (copiedInterfaces : list SCNetworkInterface) (d : device)
    (line : string) : Prop :=
  ∃ i address0,
    i ∈ copiedInterfaces
    ∧ BSDName i = Some (dev_interface d)
    ∧ property_first (dev_address d) = Ok address0
    ∧ line = summary_line (HardwareAddressString i) address0
                          (LocalizedDisplayName i) (dev_interface d).

(** The first address of the device can be read. *)
Definition has_address (d : device) : Prop :=
  ∃ address0, property_first (dev_address d) = Ok address0.

(** The window controller: the log source and the three text fields. *)
Record JamfLogWindow : Type := {
  log_source : JamfLogSource;
  computer_name : pyval;
  jamf_command : pyval;
  network : pyval
}.

(** [refreshLog], [utf8string] being the decoded text of the available
    data.  An exception leaves the fields set before it. *)
Definition refreshLog (sys : system) (self : JamfLogWindow)
    (utf8string : string) : JamfLogWindow * outcome unit :=
  match refreshLog_data (log_source self) utf8string with
  | (src, Raise e) =>
      ({| log_source := src; computer_name := computer_name self;
          jamf_command := jamf_command self; network := network self |},
       Raise e)
  | (src, Ok _) =>
      let name := get_sc_computername sys in
      let cmd := get_jamf_command sys in
      match get_network_info sys with
      | Raise e =>
          ({| log_source := src; computer_name := name;
              jamf_command := cmd; network := network self |}, Raise e)
      | Ok net =>
          ({| log_source := src; computer_name := name;
              jamf_command := cmd; network := net |}, Ok tt)
      end
  end.

(* ===================================================================== *)
(** ** The file system and the processes the two tools act on *)
(* ===================================================================== *)

Module Path.

Definition all_slashes (s : string) : bool :=
  forallb (λ c, Ascii.eqb c "/") (list_ascii_of_string s).

(** [p[:p.rfind('/') + 1]] *)
Fixpoint head (p : string) : string :=
  match p with
  | EmptyString => EmptyString
  | String c p' =>
      if PyStr.contains "/" p' then String c (head p')
      else if Ascii.eqb c "/" then "/" else EmptyString
  end.

(** [os.path.dirname] *)
Definition dirname (p : string) : string :=
  let h := head p in
  if negb (String.eqb h EmptyString) && negb (all_slashes h)
  then PyStr.rstrip_char "/" h else h.

(** [os.path.join(a, b)] *)
Definition join (a b : string) : string :=
  if PyStr.startswith b "/" then b
  else if String.eqb a EmptyString || PyStr.endswith_char a "/"
       then a +:+ b
       else a +:+ "/" +:+ b.

(** The directories above [p], nearest first. *)
Fixpoint ancestors (fuel : nat) (p : string) : list string :=
  match fuel with
  | O => []
  | S fuel' =>
      let d := dirname p in
      if String.eqb d EmptyString || String.eqb d p then []
      else d :: ancestors fuel' d
  end.

End Path.

(** A three-digit octal file mode, [0oUGO]. *)
Definition octal (u g o : Z) : Z := u * 64 + g * 8 + o.

Record file : Type := {
  f_data : string;
  f_uid : Z;
  f_gid : Z;
  f_mode : Z
}.

(** What the tools do to the machine, in the order they do it. *)
Inductive event : Type :=
  | EvPrint (text : string)
  | EvWrite (path data : string)
  | EvChown (path : string) (uid gid : Z)
  | EvChmod (path : string) (mode : Z)
  | EvMakedirs (path : string) (mode : Z)
  | EvUnlink (path : string)
  | EvSpawn (cmd : list string).

(** The part of the machine the tools change: regular files, directories,
    and the record of what was done. *)
Record machine : Type := {
  files : gmap string file;
  dirs : gset string;
  events : list event
}.

(** The part they only read.
    - [pw_root]: uid and gid of [pwd.getpwnam("root")];
    - [new_file]: owner, group and mode given to a file the tool creates;
    - [readPlist], [writePlist]: [plistlib], from and to the bytes of a file;
    - [spawn]: running a command, to its exit status, or the exception of
      the attempt;
    - [local_user_root], [mobile_users]: the attributes of [LocalUser("root")]
      and of the users of [get_mobile_users()], as the directory service
      and the normalisation of its records give them. *)
Record host : Type := {
  pw_root : Z * Z;
  new_file : Z * Z * Z;
  readPlist : string → outcome pyval;
  writePlist : pyval → string;
  spawn : list string → outcome Z;
  local_user_root : outcome (gmap string pyval);
  mobile_users : outcome (list (gmap string pyval))
}.

(** A script: it changes the machine and ends normally or by an
    exception. *)
Definition script (A : Type) : Type := machine → machine * outcome A.

Global Instance script_ret : MRet script := λ A a m, (m, Ok a).
Global Instance script_bind : MBind script := λ A B k c m,
  match c m with
  | (m', Ok a) => k a m'
  | (m', Raise e) => (m', Raise e)
  end.

Definition raise {A} (e : exn) : script A := λ m, (m, Raise e).

Definition lift {A} (o : outcome A) : script A := λ m, (m, o).

Definition emit (ev : event) : script unit := λ m,
  ({| files := files m; dirs := dirs m; events := events m ++ [ev] |}, Ok tt).

Definition print (text : string) : script unit := emit (EvPrint text).

(** [try: body except E: handler] for scripts.  The class expression [E]
    of the clause is evaluated when an exception reaches it, and can
    itself raise. *)
Definition try_script {A} (body : script A) (E : script exn)
    (handler : script A) : script A := λ m,
  match body m with
  | (m', Ok a) => (m', Ok a)
  | (m', Raise e) =>
      match E m' with
      | (m'', Ok cls) => if decide (e = cls) then handler m'' else (m'', Raise e)
      | (m'', Raise e') => (m'', Raise e')
      end
  end.

(** A module name in the global scope of a script that imports
    [imports]. *)
Definition global_name (imports : list string) (name : string)
  : script unit :=
  if bool_decide (name ∈ imports) then mret tt else raise NameError.

Fixpoint for_each {A} (l : list A) (body : A → script unit) : script unit :=
  match l with
  | [] => mret tt
  | x :: rest => body x;; for_each rest body
  end.

(** [os.path.exists] *)
Definition path_exists (path : string) : script bool := λ m,
  (m, Ok (bool_decide (is_Some (files m !! path))
          || bool_decide (path ∈ dirs m))).

(** [open(path).read()] *)
Definition read_file (path : string) : script string := λ m,
  match files m !! path with
  | Some f => (m, Ok (f_data f))
  | None => (m, Raise IOError)
  end.

(** [open(path, "w").write(data)]: the directory must be there; a file
    that exists keeps its owner and mode. *)
Definition write_file (h : host) (path data : string) : script unit := λ m,
  if bool_decide (path ∈ dirs m) || bool_decide (Path.dirname path ∉ dirs m)
  then (m, Raise IOError)
  else
    let f :=
      match files m !! path with
      | Some old => {| f_data := data; f_uid := f_uid old;
                       f_gid := f_gid old; f_mode := f_mode old |}
      | None => {| f_data := data; f_uid := (new_file h).1.1;
                   f_gid := (new_file h).1.2; f_mode := (new_file h).2 |}
      end in
    ({| files := <[path := f]> (files m); dirs := dirs m;
        events := events m ++ [EvWrite path data] |}, Ok tt).

(** [os.lchown]; the tools run as root.  Directories carry no owner in
    this model. *)
Definition lchown (path : string) (uid gid : Z) : script unit := λ m,
  match files m !! path with
  | Some f =>
      ({| files := <[path := {| f_data := f_data f; f_uid := uid;
                                f_gid := gid; f_mode := f_mode f |}]> (files m);
          dirs := dirs m;
          events := events m ++ [EvChown path uid gid] |}, Ok tt)
  | None =>
      if bool_decide (path ∈ dirs m)
      then ({| files := files m; dirs := dirs m;
               events := events m ++ [EvChown path uid gid] |}, Ok tt)
      else (m, Raise OSError)
  end.

(** [os.chmod] *)
Definition chmod (path : string) (mode : Z) : script unit := λ m,
  match files m !! path with
  | Some f =>
      ({| files := <[path := {| f_data := f_data f; f_uid := f_uid f;
                                f_gid := f_gid f; f_mode := mode |}]> (files m);
          dirs := dirs m;
          events := events m ++ [EvChmod path mode] |}, Ok tt)
  | None =>
      if bool_decide (path ∈ dirs m)
      then ({| files := files m; dirs := dirs m;
               events := events m ++ [EvChmod path mode] |}, Ok tt)
      else (m, Raise OSError)
  end.

(** [os.makedirs]: the directory and those above it. *)
Definition makedirs (path : string) (mode : Z) : script unit := λ m,
  if bool_decide (is_Some (files m !! path)) || bool_decide (path ∈ dirs m)
  then (m, Raise OSError)
  else
    ({| files := files m;
        dirs := dirs m ∪ {[path]}
                ∪ list_to_set (Path.ancestors (String.length path) path);
        events := events m ++ [EvMakedirs path mode] |}, Ok tt).

(** [os.unlink] *)
Definition unlink (path : string) : script unit := λ m,
  match files m !! path with
  | Some _ =>
      ({| files := delete path (files m); dirs := dirs m;
          events := events m ++ [EvUnlink path] |}, Ok tt)
  | None => (m, Raise OSError)
  end.

(** Running a command: the attempt is recorded, then it succeeds with an
    exit status or raises. *)
Definition run_command (h : host) (cmd : list string) : script Z := λ m,
  ({| files := files m; dirs := dirs m;
      events := events m ++ [EvSpawn cmd] |}, spawn h cmd).

(* ===================================================================== *)
(** ** The installer: [jamf_login_log_launchagent.py] *)
(* ===================================================================== *)

Module Installer.

(** [import os, pwd, sys, plistlib] *)
Definition imports : list string := ["os"; "pwd"; "sys"; "plistlib"].

Definition LAUNCHCTL : string := "/bin/launchctl".
Definition system_python : string :=
  "/System/Library/Frameworks/Python.framework/" +:+
  "Versions/Current/Resources/Python.app/Contents/MacOS/Python".
Definition library_support : string := "/Library/Application Support/".
Definition library_logs : string := "/Library/Logs/".
Definition library_launchagents : string := "/Library/LaunchAgents/".
Definition launch_agent_label : string :=
  "com.github.primalcurve.jamf_login_log".
Definition launch_agent_file : string :=
  Path.join library_launchagents (launch_agent_label +:+ ".plist").
Definition launch_agent_support : string :=
  Path.join library_support launch_agent_label.
Definition launch_agent_out_path : string :=
  Path.join library_logs (launch_agent_label +:+ ".log").
Definition log_script_file : string :=
  Path.join library_support (launch_agent_label +:+ ".py").

Definition launch_agent_dict : pyval :=
  PDict (list_to_map [
    ("Label", PStr launch_agent_label);
    ("ProgramArguments", PList [PStr system_python; PStr log_script_file]);
    ("LimitLoadToSessionType", PList [PStr "LoginWindow"]);
    ("RunAtLoad", PBool true);
    ("KeepAlive", PBool false);
    ("StandardOutPath", PStr launch_agent_out_path);
    ("StandardErrorPath", PStr launch_agent_out_path)]).

(** [existing != launch_agent_dict], [existing] being [None] or what
    [readPlist] gave. *)
Definition differs (existing : option pyval) (desired : pyval) : bool :=
  match existing with
  | None => true
  | Some v => negb (py_eq v desired)
  end.

Section Run.

Variable h : host.
(** The text of the watcher script, the module's [log_script]. *)
Variable log_script : string.

Definition uid : Z := (pw_root h).1.
Definition gid : Z := (pw_root h).2.

(** Lines 72 to 97: the LaunchAgent. *)
Definition reconcile_launch_agent : script unit :=
  ex ← path_exists launch_agent_file;
  existing_launch_agent ←
    (if ex : bool then
       data ← read_file launch_agent_file;
       p ← lift (readPlist h data);
       print "LaunchAgent already exists. Checking it against master LD.";;
       mret (Some p)
     else
       print "LaunchAgent does not yet exist. Will create.";;
       mret None);
  if differs existing_launch_agent launch_agent_dict then
    print "LaunchAgent does not exist or does not match master. Creating.";;
    write_file h launch_agent_file (writePlist h launch_agent_dict);;
    lchown launch_agent_file uid gid;;
    chmod launch_agent_file (octal 6 4 4)
  else
    print "Existing LaunchAgent matches master. Continuing.".

(** Lines 696 to 709: the script is written, then "fix permissions
    on script". *)
Definition write_log_script : script unit :=
  dir_ex ← path_exists (Path.dirname log_script_file);
  (if dir_ex : bool then mret tt
   else makedirs (Path.dirname log_script_file) (octal 7 0 0));;
  write_file h log_script_file log_script;;
  lchown log_script_file uid gid;;
  chmod launch_agent_file (octal 7 5 5);;
  print "New script file written.".

(** Lines 682 to 712: the watcher script. *)
Definition reconcile_log_script : script unit :=
  ex ← path_exists log_script_file;
  existing_script ←
    (if ex : bool then
       data ← read_file log_script_file;
       print "Script exists. Checking its contents against master script.";;
       mret (Some data)
     else
       print "Script does not exist. Will create.";;
       mret None);
  if negb (bool_decide (existing_script = Some log_script)) then
    write_log_script
  else
    print "Script file matches master. No need to update. Exiting.".

Definition launchctl_list : list (list string) := [
  [LAUNCHCTL; "bootstrap"; "loginwindow"; launch_agent_file];
  [LAUNCHCTL; "enable"; "loginwindow/" +:+ launch_agent_label];
  [LAUNCHCTL; "kickstart"; "-k"; "loginwindow/" +:+ launch_agent_label]].

(** [subprocess.check_call(cmd)] in this module. *)
Definition check_call (cmd : list string) : script unit :=
  global_name imports "subprocess";;
  status ← run_command h cmd;
  if bool_decide (status = 0) then mret tt else raise CalledProcessError.

(** Lines 723 to 728. *)
Definition activate : script unit :=
  for_each launchctl_list (λ cmd,
    try_script
      (check_call cmd;;
       print (PyStr.join " " cmd +:+ " - succeeded."))
      (global_name imports "subprocess";; mret CalledProcessError)
      (print (PyStr.join " " cmd +:+ " - did not succeed."))).

(** The whole script; [sys.exit(0)] is its normal end. *)
Definition run : script unit :=
  reconcile_launch_agent;;
  reconcile_log_script;;
  activate.

End Run.

End Installer.

(* ===================================================================== *)
(** ** The teardown tool: [remove_launch_agent.py] *)
(* ===================================================================== *)

(** What is recorded of a run of the tool: the [launchctl] commands it
    starts and what it does to the LaunchAgent files.  The lines that
    [logger] writes to the log file of the tool, and the [dscl] commands
    by which [LocalUser] and [get_mobile_users] read the accounts, leave
    no event and change no file here: the accounts come with the host. *)

Module Teardown.

Definition imports : list string :=
  ["sys"; "argparse"; "datetime"; "logging"; "os"; "plistlib"; "re";
   "subprocess"].

Definition LAUNCHCTL : string := "/bin/launchctl".

(** The namespace of [get_arguments()]. *)
Record arguments : Type := {
  agent_name : string;
  agent_domain : string;
  agent_directory : string
}.

(** A user of [mobile_users] with the three attributes [main] gives
    it. *)
Record target : Type := {
  domain_target : string;
  service_target : string;
  launch_agent_file : string
}.

(** [user.name], an attribute of a [LocalUser]. *)
Definition getattr (user : gmap string pyval) (name : string)
  : outcome pyval :=
  of_option AttributeError (user !! name).

(** [s + v] for a [str] on the left. *)
Definition str_add (s : string) (v : pyval) : outcome string :=
  match v with
  | PStr t => Ok (s +:+ t)
  | _ => Raise TypeError
  end.

(** [os.path.join(v, b)] where [b] is relative: a [v] that is no string
    has no [endswith]. *)
Definition join_value (v : pyval) (b : string) : outcome string :=
  match v with
  | PStr a => Ok (Path.join a b)
  | _ => if PyStr.startswith b "/" then Ok b else Raise AttributeError
  end.

(** [x in v] for a string [x]. *)
Definition py_contains (x : string) (v : pyval) : outcome bool :=
  match v with
  | PList l => Ok (existsb (py_eq (PStr x)) l)
  | PStr s => Ok (PyStr.contains x s)
  | PDict d => Ok (bool_decide (is_Some (d !! x)))
  | _ => Raise TypeError
  end.

Section Main.

Variable h : host.
Variable args : arguments.

(** Lines 359 to 366, for one user. *)
Definition user_target (user : gmap string pyval) : outcome target :=
  unique_id ← getattr user "unique_id";
  domain ← str_add (agent_domain args +:+ "/") unique_id;
  home ← getattr user "nfs_home_directory";
  dir ← join_value home "Library/LaunchAgents/";
  mret {| domain_target := domain;
          service_target := domain +:+ "/" +:+ agent_name args;
          launch_agent_file :=
            Path.join dir (agent_name args +:+ ".plist") |}.

Fixpoint user_targets (users : list (gmap string pyval))
  : outcome (list target) :=
  match users with
  | [] => Ok []
  | user :: rest =>
      t ← user_target user;
      ts ← user_targets rest;
      mret (t :: ts)
  end.

(** Lines 350 to 366. *)
Definition build_targets : outcome (list target) :=
  if String.eqb (PyStr.lower_bytes (agent_domain args)) "system" then
    _ ← local_user_root h;
    mret [ {| domain_target := "system";
              service_target := "system/" +:+ agent_name args;
              launch_agent_file :=
                Path.join "/Library/LaunchAgents"
                          (agent_name args +:+ ".plist") |} ]
  else
    users ← mobile_users h;
    user_targets users.

(** The target after lines 381 to 385: [session_types] decides it. *)
Definition resolved_target (user : target) (in_loginwindow : bool)
  : string :=
  if in_loginwindow then "loginwindow/" +:+ agent_name args
  else service_target user.

Definition cmd_list (target : string) : list (list string) := [
  [LAUNCHCTL; "kill"; "-15"; target];
  [LAUNCHCTL; "bootout"; target];
  [LAUNCHCTL; "disable"; target]].

(** Lines 394 to 401: each command is started, its output is
    collected; only [CalledProcessError] is handled. *)
Definition run_commands (target : string) : script unit :=
  for_each (cmd_list target) (λ cmd,
    try_script
      (run_command h cmd;; mret tt)
      (global_name imports "subprocess";; mret CalledProcessError)
      (mret tt)).

(** Lines 372 to 405, the body of the loop over the users. *)
Definition teardown_user (user : target) : script unit :=
  ex ← path_exists (launch_agent_file user);
  launch_agent_dict ←
    (if ex : bool then
       data ← read_file (launch_agent_file user);
       lift (readPlist h data)
     else mret (PDict ∅));
  session_types ←
    lift (py_get launch_agent_dict "LimitLoadToSessionType" (PList []));
  in_loginwindow ← lift (py_contains "LoginWindow" session_types);
  run_commands (resolved_target user in_loginwindow);;
  ex' ← path_exists (launch_agent_file user);
  if ex' : bool then unlink (launch_agent_file user) else mret tt.

(** [main()], after [get_arguments()]; [sys.exit(0)] is its normal
    end. *)
Definition main : script unit :=
  users ← lift build_targets;
  for_each users teardown_user.

End Main.

End Teardown.

(** The commands among the events, in order. *)
Definition spawned (evs : list event) : list (list string) :=
  omap (λ ev, match ev with EvSpawn cmd => Some cmd | _ => None end) evs.

(** A change of the file system. *)
Definition is_fs_write (ev : event) : bool :=
  match ev with
  | EvWrite _ _ | EvChown _ _ _ | EvChmod _ _ | EvMakedirs _ _
  | EvUnlink _ => true
  | _ => false
  end.

(** The number of times the content of [path] was written. *)
Definition is_write_of (path : string) (ev : event) : bool :=
  match ev with
  | EvWrite p _ => String.eqb p path
  | _ => false
  end.

Definition rewrites (path : string) (evs : list event) : nat :=
  length (List.filter (is_write_of path) evs).

(** A change of the owner or the mode of [path]. *)
Definition is_attr_change_of (path : string) (ev : event) : bool :=
  match ev with
  | EvChown p _ _ | EvChmod p _ => String.eqb p path
  | _ => false
  end.

(** The events a script adds to those of the machine it starts on. *)
Definition new_events (before after : machine) : list event :=
  List.skipn (length (events before)) (events after).

(** Owner, group and mode of a file. *)
Definition attrs (m : machine) (path : string) : option (Z * Z * Z) :=
  (λ f, (f_uid f, f_gid f, f_mode f)) <$> files m !! path.

(** The colour array is [old] followed by one colour per stored line. *)
Definition colors_extend (old : list NSColor) (s : JamfLogSource) : Prop :=
  ∃ news, log_file_color s = old ++ news
          ∧ length news = length (log_file_data s).

(** A script that runs no command, whatever the machine. *)
Definition keeps_spawned {A} (c : script A) : Prop :=
  ∀ m, spawned (events (c m).1) = spawned (events m).

(** Starting [cmd] raises nothing but [CalledProcessError]. *)
Definition starts (h : host) (cmd : list string) : Prop :=
  ∀ e, spawn h cmd = Raise e → e = CalledProcessError.

(** The descriptor [f] declares the login-window session type: it is a
    plist whose [LimitLoadToSessionType] holds ["LoginWindow"]. *)
Definition declares_loginwindow (h : host) (f : file) : Prop :=
  ∃ p session_types,
    readPlist h (f_data f) = Ok p
    ∧ py_get p "LimitLoadToSessionType" (PList []) = Ok session_types
    ∧ Teardown.py_contains "LoginWindow" session_types = Ok true.

(** The three commands of the teardown for a service target. *)
Definition teardown_commands (target : string) : list (list string) :=
  [ ["/bin/launchctl"; "kill"; "-15"; target];
    ["/bin/launchctl"; "bootout"; target];
    ["/bin/launchctl"; "disable"; target] ].

(** The LaunchAgent on the machine is not the desired one: there is none,
    or its plist differs. *)
Definition launch_agent_stale (h : host) (m : machine) : Prop :=
  match files m !! Installer.launch_agent_file with
  | None => True
  | Some f =>
      ∃ p, readPlist h (f_data f) = Ok p
           ∧ py_eq p Installer.launch_agent_dict = false
  end.

(** [plistlib] reads back the desired LaunchAgent it has written. *)
Definition plist_round_trip (h : host) : Prop :=
  ∃ p, readPlist h (writePlist h Installer.launch_agent_dict) = Ok p
       ∧ py_eq p Installer.launch_agent_dict = true.

(** The script cannot be written: its path is a directory, or the path of
    its directory is taken by a file. *)
Definition blocked (m : machine) : Prop :=
  Installer.log_script_file ∈ dirs m
  ∨ ((Path.dirname Installer.log_script_file ∉ dirs m)
     ∧ is_Some (files m !! Path.dirname Installer.log_script_file)).

(** The step of the script has nothing left to write. *)
Definition settled (log_script : string) (m : machine) : Prop :=
  (∃ f, files m !! Installer.log_script_file = Some f
        ∧ f_data f = log_script)
  ∨ (files m !! Installer.log_script_file = None
     ∧ Installer.log_script_file ∈ dirs m)
  ∨ blocked m.

(** Events that leave the content, the owner and the mode of [path]
    alone. *)
Definition quiet_for (path : string) (evs : list event) : Prop :=
  Forall (λ ev, is_write_of path ev = false
                ∧ is_attr_change_of path ev = false) evs.

(* ===================================================================== *)
(** ** Sample inputs *)
(* ===================================================================== *)

(** A store with one red line. *)
Definition store_red : JamfLogSource :=
  {| log_file_data := ["old"]; log_file_color := [redColor];
     last_line_is_partial := false |}.

(** The window as [showLogWindow_] leaves it. *)
Definition window_shown : JamfLogWindow :=
  {| log_source := JamfLogSource_init;
     computer_name := PStr "Unkown";
     jamf_command := PStr "Unknown";
     network := PStr "Unknown" |}.

(** A machine whose dynamic store does not hold the interface list yet. *)
Definition system_no_store : system :=
  {| preferences_system := Ok PNone;
     dynamic_store := ∅;
     network_interfaces := Some [];
     pgrep := Raise CalledProcessError |}.

Definition ipv4 (address : string) : gmap string property :=
  {[ "Addresses" := Texts [address] ]}.

Definition en0 : SCNetworkInterface :=
  {| BSDName := Some "en0";
     LocalizedDisplayName := Some "Ethernet";
     HardwareAddressString := Some "aa:bb:cc:dd:ee:ff" |}.

(** A machine with Ethernet up, and a tunnel that
    [SCNetworkInterfaceCopyAll] does not report if [tunnel] is set. *)
Definition system_up (tunnel : bool) : system :=
  {| preferences_system :=
       Ok (PDict {[ "System" :=
                      PDict {[ "ComputerName" := PStr "lab-12" ]} ]});
     dynamic_store :=
       <[ "State:/Network/Interface" :=
            {[ "Interfaces" :=
                 Texts (["lo0"; "en0"] ++ if tunnel then ["utun0"] else []) ]} ]>
       (<[ "State:/Network/Interface/lo0/IPv4" := ipv4 "127.0.0.1" ]>
       (<[ "State:/Network/Interface/en0/IPv4" := ipv4 "10.0.0.5" ]>
       (<[ "State:/Network/Interface/utun0/IPv4" := ipv4 "10.8.0.2" ]> ∅)));
     network_interfaces := Some [en0];
     pgrep := Ok "312 /usr/local/jamf/bin/jamf policy" |}.

(** The two devices of [system_up], as the first loop makes them. *)
Definition device_en0 : device :=
  {| dev_interface := "en0"; dev_address := Some (Texts ["10.0.0.5"]);
     dev_name_mac := None |}.

Definition device_utun0 : device :=
  {| dev_interface := "utun0"; dev_address := Some (Texts ["10.8.0.2"]);
     dev_name_mac := None |}.

(** A stand-in for [plistlib] that knows one document, the desired
    LaunchAgent. *)
Definition plist_document : string := "<plist>jamf_login_log</plist>".

Definition host_sample : host :=
  {| pw_root := (0, 0);
     new_file := (0, 0, octal 6 4 4);
     readPlist := λ data,
       if String.eqb data plist_document
       then Ok Installer.launch_agent_dict else Raise ExpatError;
     writePlist := λ _, plist_document;
     spawn := λ _, Ok 0;
     local_user_root := Ok ∅;
     mobile_users := Ok [] |}.

(** A machine before the first run of the installer. *)
Definition machine_fresh : machine :=
  {| files := ∅;
     dirs := {[ "/Library"; "/Library/LaunchAgents" ]};
     events := [] |}.

Definition script_sample : string := "import objc".

(** The machine after the installer has run. *)
Definition machine_installed : machine :=
  (Installer.run host_sample script_sample machine_fresh).1.

Definition arguments_system : Teardown.arguments :=
  {| Teardown.agent_name := "com.github.primalcurve.jamf_login_log";
     Teardown.agent_domain := "system";
     Teardown.agent_directory := "/Library/LaunchAgents" |}.

(* ===================================================================== *)
(** ** The teardown tool: the functions on user records *)
(* ===================================================================== *)

Module PyBytes.

(** [str.isspace] on one byte. *)
Definition is_space (c : ascii) : bool :=
  let n := PyStr.code c in ((9 <=? n) && (n <=? 13) || (n =? 32))%N.

Definition is_upper (c : ascii) : bool :=
  let n := PyStr.code c in ((65 <=? n) && (n <=? 90))%N.

Definition is_lower (c : ascii) : bool :=
  let n := PyStr.code c in ((97 <=? n) && (n <=? 122))%N.

Definition is_digit (c : ascii) : bool :=
  let n := PyStr.code c in ((48 <=? n) && (n <=? 57))%N.

Fixpoint lstrip (s : string) : string :=
  match s with
  | EmptyString => EmptyString
  | String c s' => if is_space c then lstrip s' else s
  end.

Fixpoint rstrip (s : string) : string :=
  match s with
  | EmptyString => EmptyString
  | String c s' =>
      match rstrip s' with
      | EmptyString => if is_space c then EmptyString
                       else String c EmptyString
      | r => String c r
      end
  end.

(** [s.strip()] on a [str]. *)
Definition strip (s : string) : string := rstrip (lstrip s).

(** [s.splitlines()] on a [str]: the lines end at a line feed, a carriage
    return, or the two in this order; [after_cr] says that a carriage
    return has just ended a line. *)
Fixpoint splitlines_go (after_cr : bool) (cur s : string) : list string :=
  match s with
  | EmptyString =>
      match cur with
      | EmptyString => []
      | _ => [cur]
      end
  | String c s' =>
      if Ascii.eqb c PyStr.LF then
        if after_cr then splitlines_go false cur s'
        else cur :: splitlines_go false EmptyString s'
      else if Ascii.eqb c PyStr.CR then
        cur :: splitlines_go true EmptyString s'
      else splitlines_go false (PyStr.snoc cur c) s'
  end.

Definition splitlines (s : string) : list string :=
  splitlines_go false EmptyString s.

End PyBytes.

Module Records.

(** [re.sub('(.)([A-Z][a-z]+)', r'\1_\2', s)]: a character other than a
    line feed, a capital and small letters, as many as follow; the search
    goes on after the small letters.  [in_run] says that the small letters
    of a match are being passed. *)
Fixpoint sub_word (in_run : bool) (s : string) : string :=
  match s with
  | EmptyString => EmptyString
  | String c rest =>
      if in_run && PyBytes.is_lower c then String c (sub_word true rest)
      else
        match rest with
        | String u (String l rest') =>
            if negb (Ascii.eqb c PyStr.LF) && PyBytes.is_upper u
               && PyBytes.is_lower l
            then String c (String "_" (String u (String l
                   (sub_word true rest'))))
            else String c (sub_word false rest)
        | _ => String c (sub_word false rest)
        end
  end.

(** [re.sub('([a-z0-9])([A-Z])', r'\1_\2', s)] *)
Fixpoint sub_hump (s : string) : string :=
  match s with
  | EmptyString => EmptyString
  | String c rest =>
      match rest with
      | String u rest' =>
          if (PyBytes.is_lower c || PyBytes.is_digit c) && PyBytes.is_upper u
          then String c (String "_" (String u (sub_hump rest')))
          else String c (sub_hump rest)
      | EmptyString => String c EmptyString
      end
  end.

Definition fix_case (pascal_case : string) : string :=
  PyStr.lower_bytes (sub_hump (sub_word false pascal_case)).

Definition nonempty (s : string) : bool :=
  negb (String.eqb s EmptyString).

Definition smb_home_fix (smb_home : string) : string :=
  "smb://" +:+
  PyStr.lower_bytes
    (PyStr.join "/" (List.filter nonempty (PyStr.split "\" smb_home))).

Definition ignored_users : list string :=
  ["admin"; "root"; "daemon"; "guest"; "nobody"].

(** [u.split(" ")[0]] *)
Definition first_field (u : string) : string :=
  match PyStr.split " " u with
  | name :: _ => name
  | [] => EmptyString
  end.

(** The names for which [get_mobile_users] makes a [LocalUser], [dscl]
    being the result of [check_output(dscl_cmd)]. *)
Definition mobile_user_names (dscl : outcome string) : outcome (list string) :=
  cmd_out ← try_except (out ← dscl; mret (PyBytes.strip out))
                       CalledProcessError (Ok EmptyString);
  mret (List.filter (λ name, negb (bool_decide (name ∈ ignored_users)))
          (map first_field (PyBytes.splitlines cmd_out))).

(** A Python value is true. *)
Definition truthy (v : pyval) : bool :=
  match v with
  | PNone => false
  | PBool b => b
  | PInt n => negb (n =? 0)
  | PStr s => nonempty s
  | PList l => negb (bool_decide (l = []))
  | PDict d => negb (bool_decide (d = ∅))
  end.

(** [_run_as_me], [communicate] being the result of
    [Popen(...).communicate()]: the pair of the two outputs. *)
Definition _run_as_me (communicate : outcome (pyval * pyval))
  : outcome (pyval * pyval) :=
  try_except communicate CalledProcessError (Ok (PBool false, PBool false)).

(** [run_as_me]: what it returns is the pair of outputs, or a truth
    value.  [results.returncode] is looked up on the pair, a tuple, which
    has no such attribute. *)
Definition run_as_me (self : gmap string pyval)
    (communicate : outcome (pyval * pyval)) (get_output : bool)
  : outcome (pyval * pyval + bool) :=
  _ ← of_option AttributeError (self !! "real_name");
  if get_output then
    results ← _run_as_me communicate; mret (inl results)
  else
    results ← _run_as_me communicate;
    if negb (truthy results.1) && negb (truthy results.2) then mret (inr false)
    else if truthy results.2 then Raise AttributeError
    else mret (inr true).

End Records.

(* ===================================================================== *)
(** ** Further notions used in the properties *)
(* ===================================================================== *)

(** The descriptor [f] is a plist that does not declare the login-window
    session type. *)
Definition declares_other (h : host) (f : file) : Prop :=
  ∃ p session_types,
    readPlist h (f_data f) = Ok p
    ∧ py_get p "LimitLoadToSessionType" (PList []) = Ok session_types
    ∧ Teardown.py_contains "LoginWindow" session_types = Ok false.

(** Reading the descriptor [f], or looking for the session type in it,
    raises [e]. *)
Definition descriptor_fails (h : host) (f : file) (e : exn) : Prop :=
  readPlist h (f_data f) = Raise e
  ∨ (∃ p, readPlist h (f_data f) = Ok p
          ∧ py_get p "LimitLoadToSessionType" (PList []) = Raise e)
  ∨ (∃ p session_types,
       readPlist h (f_data f) = Ok p
       ∧ py_get p "LimitLoadToSessionType" (PList []) = Ok session_types
       ∧ Teardown.py_contains "LoginWindow" session_types = Raise e).

(** A host whose LaunchAgent files are plists for the Aqua session, and
    one whose files are no plists. *)
Definition host_aqua : host :=
  {| pw_root := (0, 0);
     new_file := (0, 0, octal 6 4 4);
     readPlist := λ _,
       Ok (PDict {[ "LimitLoadToSessionType" := PStr "Aqua" ]});
     writePlist := λ _, plist_document;
     spawn := λ _, Ok 0;
     local_user_root := Ok ∅;
     mobile_users := Ok [ {[ "unique_id" := PInt 501 ]} ] |}.

Definition host_corrupt : host :=
  {| pw_root := (0, 0);
     new_file := (0, 0, octal 6 4 4);
     readPlist := λ _, Raise ExpatError;
     writePlist := λ _, plist_document;
     spawn := λ _, Raise OSError;
     local_user_root := Ok ∅;
     mobile_users := Ok [] |}.

(** The account has an integer as [unique_id], as [process_key_values]
    leaves the [UniqueID] of a record: [int(value)] succeeds on it. *)
Definition integer_unique_id (user : gmap string pyval) : Prop :=
  ∃ n, user !! "unique_id" = Some (PInt n).

(** The host of [host_sample] with one mobile account. *)
Definition host_mobile : host :=
  {| pw_root := (0, 0);
     new_file := (0, 0, octal 6 4 4);
     readPlist := λ data,
       if String.eqb data plist_document
       then Ok Installer.launch_agent_dict else Raise ExpatError;
     writePlist := λ _, plist_document;
     spawn := λ _, Ok 0;
     local_user_root := Ok ∅;
     mobile_users :=
       Ok [ {[ "unique_id" := PInt 501;
               "nfs_home_directory" := PStr "/Users/ann" ]} ] |}.

Definition arguments_loginwindow : Teardown.arguments :=
  {| Teardown.agent_name := "com.github.primalcurve.jamf_login_log";
     Teardown.agent_domain := "loginwindow";
     Teardown.agent_directory := "/Library/LaunchAgents" |}.

Definition arguments_gui : Teardown.arguments :=
  {| Teardown.agent_name := "com.example.agent";
     Teardown.agent_domain := "gui";
     Teardown.agent_directory := "/Library/LaunchAgents" |}.

Definition target_user : Teardown.target :=
  {| Teardown.domain_target := "gui/501";
     Teardown.service_target := "gui/501/com.example.agent";
     Teardown.launch_agent_file :=
       "/Users/ann/Library/LaunchAgents/com.example.agent.plist" |}.

(** A machine with the LaunchAgent of [target_user] and another file. *)
Definition machine_user_agent : machine :=
  {| files :=
       {[ "/Users/ann/Library/LaunchAgents/com.example.agent.plist" :=
            {| f_data := "<plist/>"; f_uid := 501; f_gid := 20;
               f_mode := octal 6 4 4 |};
          "/Users/ann/notes.txt" :=
            {| f_data := "notes"; f_uid := 501; f_gid := 20;
               f_mode := octal 6 4 4 |} ]};
     dirs := {[ "/Users/ann/Library/LaunchAgents" ]};
     events := [] |}.

(** What a run of the installer may do to the machine: print; write the
    LaunchAgent file or the script file; give one of them to root; set the
    mode of the LaunchAgent file to 0644 or 0755; make the directory of
    the script with the mode 0700. *)
Definition installer_event (h : host) (ev : event) : bool :=
  match ev with
  | EvPrint _ => true
  | EvWrite path _ =>
      String.eqb path Installer.launch_agent_file
      || String.eqb path Installer.log_script_file
  | EvChown path uid gid =>
      (String.eqb path Installer.launch_agent_file
       || String.eqb path Installer.log_script_file)
      && (uid =? Installer.uid h) && (gid =? Installer.gid h)
  | EvChmod path mode =>
      String.eqb path Installer.launch_agent_file
      && ((mode =? octal 6 4 4) || (mode =? octal 7 5 5))
  | EvMakedirs path mode =>
      String.eqb path (Path.dirname Installer.log_script_file)
      && (mode =? octal 7 0 0)
  | EvUnlink _ => false
  | EvSpawn _ => false
  end.

(** A script that adds events of the kind [allowed] only. *)
Definition emits_only (allowed : event → bool) {A} (c : script A) : Prop :=
  ∀ m, ∃ evs, events (c m).1 = events m ++ evs
              ∧ forallb allowed evs = true.

(** The LaunchAgent file of the machine holds the desired plist: what
    [writePlist] gives for it, or a plist equal to it. *)
Definition launch_agent_current (h : host) (m : machine) : Prop :=
  ∃ f, files m !! Installer.launch_agent_file = Some f
       ∧ (f_data f = writePlist h Installer.launch_agent_dict
          ∨ ∃ p, readPlist h (f_data f) = Ok p
                 ∧ py_eq p Installer.launch_agent_dict = true).

(** The text [t] does not hold the character [c]. *)
Definition lacks (c : ascii) (t : string) : Prop :=
  PyStr.contains (String c EmptyString) t = false.

(** The text holds no line boundary of [splitlines]. *)
Definition one_line (t : string) : Prop :=
  forallb (λ c, negb (PyStr.is_linebreak c)) (list_ascii_of_string t) = true.

(** A store as [addLine_partial_] keeps it: as many colours as lines, and a
    last line to complete if the flag is up. *)
Definition store_ok (s : JamfLogSource) : Prop :=
  length (log_file_data s) = length (log_file_color s)
  ∧ (last_line_is_partial s = true → log_file_data s ≠ []).

(** The line still to complete, if any, holds no closing brace. *)
Definition partial_plain (s : JamfLogSource) : Prop :=
  last_line_is_partial s = true →
  ∀ l, last (log_file_data s) = Some l → lacks "}" l.

(** The store after [text], black, has gone to the line to complete, if
    the flag is up, or to a new line; [isPartial] is the new flag. *)
Definition put (s : JamfLogSource) (text : string) (isPartial : bool)
  : JamfLogSource :=
  if last_line_is_partial s then
    {| log_file_data :=
         removelast (log_file_data s)
         ++ [default EmptyString (last (log_file_data s)) +:+ text];
       log_file_color := removelast (log_file_color s) ++ [blackColor];
       last_line_is_partial := isPartial |}
  else
    {| log_file_data := log_file_data s ++ [text];
       log_file_color := log_file_color s ++ [blackColor];
       last_line_is_partial := isPartial |}.

(** Reading one character: a line feed completes the line, any other
    character goes to the line to complete or starts a new one. *)
Definition feed_char (s : JamfLogSource) (c : ascii) : JamfLogSource :=
  if Ascii.eqb c PyStr.LF then put s EmptyString false
  else put s (String c EmptyString) true.

Definition feed (s : JamfLogSource) (text : string) : JamfLogSource :=
  fold_left feed_char (list_ascii_of_string text) s.

(** The chunks in one text. *)
Definition joined_text (chunks : list string) : string :=
  fold_right String.append EmptyString chunks.

(** The entry of the dynamic store for the IPv4 state of an interface. *)
Definition ipv4_status (sys : system) (interface : string)
  : option (gmap string property) :=
  SCDynamicStoreCopyValue sys
    ("State:/Network/Interface/" +:+ interface +:+ "/IPv4").

(** The interface has an IPv4 state and is not the loopback. *)
Definition is_active (sys : system) (interface : string) : bool :=
  bool_decide (ipv4_status sys interface ≠ None)
  && negb (String.eqb interface "lo0").

(** The device the first loop of [get_network_info] makes for an
    interface. *)
Definition device_of (sys : system) (interface : string) : device :=
  {| dev_interface := interface;
     dev_address := default ∅ (ipv4_status sys interface) !! "Addresses";
     dev_name_mac := None |}.

(** Ethernet is up, but its IPv4 state holds no [Addresses]. *)
Definition system_no_address : system :=
  {| preferences_system := Ok PNone;
     dynamic_store :=
       <[ "State:/Network/Interface" :=
            {[ "Interfaces" := Texts ["lo0"; "en0"] ]} ]>
       (<[ "State:/Network/Interface/en0/IPv4" :=
             {[ "Router" := Text "10.0.0.1" ]} ]> ∅);
     network_interfaces := Some [en0];
     pgrep := Raise CalledProcessError |}.

(** Ethernet is up without [Addresses] in its IPv4 state, and listed
    before a tunnel that no copied interface stands for. *)
Definition system_no_address_tunnel : system :=
  {| preferences_system := Ok PNone;
     dynamic_store :=
       <[ "State:/Network/Interface" :=
            {[ "Interfaces" := Texts ["lo0"; "en0"; "utun0"] ]} ]>
       (<[ "State:/Network/Interface/en0/IPv4" :=
             {[ "Router" := Text "10.0.0.1" ]} ]>
        (<[ "State:/Network/Interface/utun0/IPv4" := ipv4 "10.8.0.2" ]> ∅));
     network_interfaces := Some [en0];
     pgrep := Raise CalledProcessError |}.

(** No capital letter A-Z in the text. *)
Definition no_upper (t : string) : Prop :=
  forallb (λ c, negb (PyBytes.is_upper c)) (list_ascii_of_string t) = true.

(** The text without its underscores. *)
Fixpoint drop_underscores (t : string) : string :=
  match t with
  | EmptyString => EmptyString
  | String c t' =>
      if Ascii.eqb c "_" then drop_underscores t'
      else String c (drop_underscores t')
  end.


(* ===================================================================== *)
(** * Properties *)
(* ===================================================================== *)

(** ** The markup parser *)

Example parse_red :
  parseLineAttr_ "%{color=red} hello" = (" hello", redColor).
Proof. vm_compute. reflexivity. Qed.

Example parse_spaces :
  parseLineAttr_ "%{ Color = GREEN , x=1 }ok" = ("ok", greenColor).
Proof. vm_compute. reflexivity. Qed.

Example parse_no_brace :
  parseLineAttr_ "%{color=red hello" = ("%{color=red hello", blackColor).
Proof. vm_compute. reflexivity. Qed.

Example parse_second_block :
  parseLineAttr_ "%{color=blue}%{color=red}x" = ("%{color=red}x", blueColor).
Proof. vm_compute. reflexivity. Qed.


Lemma parse_directive_prefix (rest : string) :
  parseLineAttr_ ("%{color=red}" +:+ rest) = (rest, redColor).
Proof. vm_compute. reflexivity. Qed.

Lemma parse_white_prefix (rest : string) :
  parseLineAttr_ ("%{color=white}" +:+ rest) = (rest, lightGrayColor).
Proof. vm_compute. reflexivity. Qed.

(** C8. A line that starts with the directive [%{color=red}] parses to
    the text after the closing brace, unchanged, with the red colour; so
    does [%{color=red} hello] to [" hello"].  A [color=white] directive
    resolves to light gray, which is not white. *)
Theorem parseLineAttr_red_and_white :
  (∀ rest, parseLineAttr_ ("%{color=red}" +:+ rest) = (rest, redColor))
  ∧ parseLineAttr_ "%{color=red} hello" = (" hello", redColor)
  ∧ (∀ rest,
       parseLineAttr_ ("%{color=white}" +:+ rest) = (rest, lightGrayColor))
  ∧ nsColorForColor_ "white" = lightGrayColor
  ∧ lightGrayColor ≠ whiteColor.
Proof.
  split; [exact parse_directive_prefix|].
  split; [apply (parse_directive_prefix " hello")|].
  split; [exact parse_white_prefix|].
  split; [reflexivity | discriminate].
Qed.

(** ** The line store *)

Lemma removelast_snoc_length {A} (l : list A) (x : A) :
  l ≠ [] → length (removelast l ++ [x]) = length l.
Proof.
  intros Hl. rewrite length_app. simpl.
  destruct (proj2 (last_is_Some l) Hl) as [y Hy].
  apply last_Some in Hy as [l' ->].
  rewrite removelast_last, length_app. simpl. lia.
Qed.

Lemma addLine_partial_lengths (s : JamfLogSource) line isPartial :
  length (log_file_data s) = length (log_file_color s) →
  length (log_file_data (addLine_partial_ s line isPartial).1)
  = length (log_file_color (addLine_partial_ s line isPartial).1).
Proof.
  intros Hlen. unfold addLine_partial_.
  destruct (last_line_is_partial s).
  - destruct (last (log_file_data s)) as [lastObject|] eqn:Hlast; [|done].
    destruct (parseLineAttr_ (lastObject +:+ line)) as [new_line color].
    assert (log_file_data s ≠ []) as Hd.
    { apply last_is_Some. eauto. }
    destruct (log_file_color s) as [|c cs] eqn:Hc.
    + destruct (log_file_data s); [done | discriminate].
    + cbn [fst log_file_data log_file_color].
      rewrite !removelast_snoc_length by done. done.
  - destruct (parseLineAttr_ line) as [new_line color]. simpl.
    rewrite !length_app. simpl. lia.
Qed.

(** What a fragment and, later, its remainder leave in the store: one
    entry, the parse of the stored text of the fragment followed by the
    remainder. *)
Lemma addLine_partial_then_rest (s : JamfLogSource) frag rest isPartial :
  last_line_is_partial s = false →
  addLine_partial_ (addLine_partial_ s frag true).1 rest isPartial
  = ({| log_file_data :=
          log_file_data s ++ [(parseLineAttr_
                                 ((parseLineAttr_ frag).1 +:+ rest)).1];
        log_file_color :=
          log_file_color s ++ [(parseLineAttr_
                                  ((parseLineAttr_ frag).1 +:+ rest)).2];
        last_line_is_partial := isPartial |}, Ok tt).
Proof.
  intros Hflag. unfold addLine_partial_ at 2. rewrite Hflag.
  destruct (parseLineAttr_ frag) as [t1 c1]. simpl fst.
  unfold addLine_partial_. cbn [last_line_is_partial log_file_data
                                  log_file_color].
  rewrite last_snoc.
  destruct (parseLineAttr_ (t1 +:+ rest)) as [t2 c2].
  rewrite !removelast_last.
  destruct (log_file_color s ++ [c1]) eqn:Happ; [|done].
  by destruct (log_file_color s).
Qed.

(** C3. The first read ends inside the line [%{color=red} hello], after
    the whole directive.  The two reads leave one entry with the text of
    the full line, but its colour is black where the parse of the full
    line gives red: the remainder was joined to the stored text, from
    which the directive had already been taken off. *)
Theorem split_after_directive_loses_color :
  refreshLog_chunks JamfLogSource_init
    ["%{color=red} he"; "llo" +:+ LFs]
  = ({| log_file_data := [" hello"];
        log_file_color := [blackColor];
        last_line_is_partial := false |}, Ok tt)
  ∧ parseLineAttr_ "%{color=red} hello" = (" hello", redColor).
Proof. split; vm_compute; reflexivity. Qed.

(** A directive cut by the end of the read is resolved. *)
Example split_inside_directive :
  refreshLog_chunks JamfLogSource_init
    ["%{col"; "or=red} hello" +:+ LFs]
  = ({| log_file_data := [" hello"];
        log_file_color := [redColor];
        last_line_is_partial := false |}, Ok tt).
Proof. vm_compute. reflexivity. Qed.

Lemma colors_extend_addLine old (s : JamfLogSource) line isPartial :
  colors_extend old s →
  colors_extend old (addLine_partial_ s line isPartial).1.
Proof.
  intros (news & Hc & Hn). unfold addLine_partial_.
  destruct (last_line_is_partial s).
  - destruct (last (log_file_data s)) as [lastObject|] eqn:Hlast;
      [|by exists news].
    destruct (parseLineAttr_ (lastObject +:+ line)) as [new_line color].
    assert (log_file_data s ≠ []) as Hd by (apply last_is_Some; eauto).
    assert (news ≠ []) as Hnews.
    { intros ->. destruct (log_file_data s); [done | discriminate]. }
    rewrite Hc.
    destruct (old ++ news) as [|c cs] eqn:Hcs.
    { by destruct old, news. }
    rewrite <- Hcs. cbn [fst log_file_data log_file_color].
    exists (removelast news ++ [color]). split.
    + cbn [log_file_color]. rewrite (removelast_app old Hnews).
      by rewrite <- app_assoc.
    + cbn [log_file_data]. rewrite !removelast_snoc_length by done. done.
  - destruct (parseLineAttr_ line) as [new_line color]. simpl.
    exists (news ++ [color]). split.
    + cbn [log_file_color]. by rewrite Hc, <- app_assoc.
    + cbn [log_file_data]. rewrite !length_app. simpl. lia.
Qed.

Lemma colors_extend_add_lines old lines (s : JamfLogSource) :
  colors_extend old s → colors_extend old (add_lines s lines).1.
Proof.
  revert s. induction lines as [|line rest IH]; intros s Hs; [done|].
  simpl.
  destruct (PyStr.endswith_char line PyStr.LF).
  - pose proof (colors_extend_addLine old s
                  (PyStr.rstrip_char PyStr.LF line) false Hs) as H1.
    destruct (addLine_partial_ s (PyStr.rstrip_char PyStr.LF line) false)
      as [s' [[]|e]]; simpl in *; [by apply IH | done].
  - pose proof (colors_extend_addLine old s line true Hs) as H1.
    destruct (addLine_partial_ s line true) as [s' [[]|e]]; simpl in *;
      [by apply IH | done].
Qed.

Lemma colors_extend_chunks old chunks (s : JamfLogSource) :
  colors_extend old s → colors_extend old (refreshLog_chunks s chunks).1.
Proof.
  revert s. induction chunks as [|c cs IH]; intros s Hs; [done|].
  simpl.
  assert (colors_extend old (refreshLog_data s c).1) as H1.
  { unfold refreshLog_data. destruct c; [done|].
    by apply colors_extend_add_lines. }
  destruct (refreshLog_data s c) as [s' [[]|e]]; simpl in *;
    [by apply IH | done].
Qed.

(** C10. Adding a line, as a new entry or in place of the last one,
    keeps the text array and the colour array of equal length.
    [removeAllLines] empties the text array only: the colours and the
    partial flag stay.  So, after it, every row that is shown and whose
    index the old colours cover is drawn in the old colour of that index;
    a first line added with the flag down lands behind all the old
    colours. *)
Theorem store_lengths_and_clear (s : JamfLogSource) :
  length (log_file_data s) = length (log_file_color s) →
  (∀ line isPartial,
     length (log_file_data (addLine_partial_ s line isPartial).1)
     = length (log_file_color (addLine_partial_ s line isPartial).1))
  ∧ removeAllLines s
    = {| log_file_data := []; log_file_color := log_file_color s;
         last_line_is_partial := last_line_is_partial s |}
  ∧ (∀ chunks row c,
       log_file_color s !! row = Some c →
       (row < lineCount (refreshLog_chunks (removeAllLines s) chunks).1)%nat →
       tableView_dataCellForTableColumn_row_
         (refreshLog_chunks (removeAllLines s) chunks).1 row = Ok c)
  ∧ (last_line_is_partial s = false →
     ∀ line isPartial,
       addLine_partial_ (removeAllLines s) line isPartial
       = ({| log_file_data := [(parseLineAttr_ line).1];
             log_file_color :=
               log_file_color s ++ [(parseLineAttr_ line).2];
             last_line_is_partial := isPartial |}, Ok tt)).
Proof.
  intros Hlen. split; [|split; [|split]].
  - intros line isPartial. by apply addLine_partial_lengths.
  - reflexivity.
  - intros chunks row c Hrow Hshown.
    assert (colors_extend (log_file_color s) (removeAllLines s)) as H0.
    { exists []. simpl. by rewrite app_nil_r. }
    destruct (colors_extend_chunks _ chunks _ H0) as (news & Hc & _).
    unfold tableView_dataCellForTableColumn_row_.
    rewrite Hc, lookup_app_l by (by eapply lookup_lt_Some).
    by rewrite Hrow.
  - intros Hflag line isPartial. unfold addLine_partial_, removeAllLines.
    cbn [last_line_is_partial]. rewrite Hflag.
    by destruct (parseLineAttr_ line).
Qed.

Lemma store_lengths_and_clear_witness :
  length (log_file_data store_red) = length (log_file_color store_red)
  ∧ tableView_objectValueForTableColumn_row_
      (refreshLog_chunks (removeAllLines store_red)
         ["%{color=green}ok" +:+ LFs]).1 0 = Ok "ok"
  ∧ tableView_dataCellForTableColumn_row_
      (refreshLog_chunks (removeAllLines store_red)
         ["%{color=green}ok" +:+ LFs]).1 0 = Ok redColor.
Proof.
  split; [reflexivity|]. split; [vm_compute; reflexivity|].
  apply (store_lengths_and_clear store_red eq_refl).
  - reflexivity.
  - vm_compute. lia.
Defined.

(** ** The three snapshots *)

Example network_info_ethernet :
  get_network_info (system_up false)
  = Ok (PStr ("aa:bb:cc:dd:ee:ff" +:+ String PyStr.TAB "10.0.0.5"
              +:+ String PyStr.TAB "Ethernet (en0)")).
Proof. vm_compute. reflexivity. Qed.

Example computername_found :
  get_sc_computername (system_up false) = PStr "lab-12".
Proof. vm_compute. reflexivity. Qed.

(** C4, as stated, fails: with no interface list in the dynamic store,
    [get_network_info] raises [AttributeError], and so does the refresh
    that calls it, after it has set the two other fields. *)
Lemma network_info_raises :
  get_network_info system_no_store = Raise AttributeError
  ∧ refreshLog system_no_store window_shown ""
    = ({| log_source := JamfLogSource_init;
          computer_name := PStr "Unknown";
          jamf_command := PStr "Unknown";
          network := PStr "Unknown" |}, Raise AttributeError).
Proof. split; vm_compute; reflexivity. Qed.

(** C4, amended.  The lookups of the computer name and of the jamf
    processes turn every failure into ["Unknown"].  The lookup of the
    network interfaces turns a [KeyError] into ["Unknown"]; any other
    exception leaves [get_network_info], and the refresh that has read
    its log data without error ends with that exception after it has set
    the two other fields: the computer name and the jamf processes are
    those just looked up, the network field is the one of before. *)
Theorem snapshot_failures (sys : system) :
  (∀ e, computername_lookup sys = Raise e →
        get_sc_computername sys = PStr "Unknown")
  ∧ (∀ e, jamf_command_lookup sys = Raise e →
          get_jamf_command sys = PStr "Unknown")
  ∧ (network_info_lookup sys = Raise KeyError →
     get_network_info sys = Ok (PStr "Unknown"))
  ∧ (∀ e, e ≠ KeyError → network_info_lookup sys = Raise e →
       get_network_info sys = Raise e
       ∧ ∀ self utf8string src,
           refreshLog_data (log_source self) utf8string = (src, Ok tt) →
           refreshLog sys self utf8string
           = ({| log_source := src;
                 computer_name := get_sc_computername sys;
                 jamf_command := get_jamf_command sys;
                 network := network self |}, Raise e)).
Proof.
  split; [|split; [|split]].
  - intros e He. unfold get_sc_computername. by rewrite He.
  - intros e He. unfold get_jamf_command. by rewrite He.
  - intros He. unfold get_network_info. by rewrite He.
  - intros e Hne He.
    assert (get_network_info sys = Raise e) as Hnet.
    { unfold get_network_info, try_except. rewrite He.
      by destruct (decide (e = KeyError)). }
    split; [done|]. intros self utf8string src Hdata. unfold refreshLog.
    by rewrite Hdata, Hnet.
Qed.

Lemma snapshot_failures_witness :
  get_sc_computername system_no_store = PStr "Unknown"
  ∧ get_jamf_command system_no_store = PStr "Unknown"
  ∧ refreshLog system_no_store window_shown "line"
    = ({| log_source :=
            {| log_file_data := ["line"];
               log_file_color := [blackColor];
               last_line_is_partial := true |};
          computer_name := PStr "Unknown";
          jamf_command := PStr "Unknown";
          network := PStr "Unknown" |}, Raise AttributeError)
  ∧ computer_name window_shown = PStr "Unkown".
Proof.
  destruct (snapshot_failures system_no_store) as (H1 & H2 & _ & H4).
  split; [apply (H1 TypeError); vm_compute; reflexivity|].
  split; [apply (H2 CalledProcessError); vm_compute; reflexivity|].
  split; [|reflexivity].
  apply (H4 AttributeError); [discriminate | vm_compute; reflexivity
                              | vm_compute; reflexivity].
Defined.

Lemma join_interfaces_map copiedInterfaces (devs : list device) :
  join_interfaces copiedInterfaces devs = map (joined copiedInterfaces) devs.
Proof.
  unfold join_interfaces, joined. revert devs.
  induction copiedInterfaces as [|i ifs IH]; intros devs; simpl.
  - by rewrite map_id.
  - rewrite IH. unfold update_devices. by rewrite map_map.
Qed.

Lemma resolved_interface copiedInterfaces (d1 d2 : device) :
  dev_interface d1 = dev_interface d2 →
  resolved copiedInterfaces d1 = resolved copiedInterfaces d2.
Proof. intros H. unfold resolved. by rewrite H. Qed.

(** What the second loop leaves in one device: the name and the address
    of a copied interface that has its BSD name, if there is one. *)
Lemma joined_device copiedInterfaces (d : device) :
  dev_interface (joined copiedInterfaces d) = dev_interface d
  ∧ dev_address (joined copiedInterfaces d) = dev_address d
  ∧ if resolved copiedInterfaces d
    then ∃ i, i ∈ copiedInterfaces
              ∧ BSDName i = Some (dev_interface d)
              ∧ dev_name_mac (joined copiedInterfaces d)
                = Some (LocalizedDisplayName i, HardwareAddressString i)
    else dev_name_mac (joined copiedInterfaces d) = dev_name_mac d.
Proof.
  revert d. induction copiedInterfaces as [|i ifs IH]; intros d; [done|].
  change (joined (i :: ifs) d) with (joined ifs (update_device i d)).
  destruct (IH (update_device i d)) as (H1 & H2 & H3).
  assert (dev_interface (update_device i d) = dev_interface d
          ∧ dev_address (update_device i d) = dev_address d) as [E1 E2].
  { unfold update_device. by destruct (bool_decide _). }
  rewrite (resolved_interface ifs _ d E1) in H3.
  rewrite H1, H2, E1, E2. split; [done|]. split; [done|].
  rewrite E1 in H3. cbn [resolved existsb]. fold (resolved ifs d).
  destruct (bool_decide_reflect (Some (dev_interface d) = BSDName i))
    as [Heq|Hne]; cbn [orb].
  - destruct (resolved ifs d).
    + destruct H3 as (i' & Hin & Hb & Hn). exists i'.
      split; [by apply list_elem_of_further | done].
    + exists i. split; [apply list_elem_of_here|]. split; [done|].
      rewrite H3. unfold update_device. by rewrite bool_decide_eq_true_2.
  - destruct (resolved ifs d).
    + destruct H3 as (i' & Hin & Hb & Hn). exists i'.
      split; [by apply list_elem_of_further | done].
    + rewrite H3. unfold update_device. by rewrite bool_decide_eq_false_2.
Qed.

Lemma connected_devices_fresh sys names devs :
  connected_devices sys names = Ok devs →
  Forall (λ d, dev_name_mac d = None) devs.
Proof.
  revert devs. induction names as [|n names IH]; intros devs; simpl.
  - intros [= <-]. constructor.
  - destruct (_ && _); [|by apply IH].
    destruct (store_get _ _) as [address|e]; simpl; [|done].
    destruct (connected_devices sys names) as [tail|e]; simpl; [|done].
    intros [= <-]. constructor; [done | by apply IH].
Qed.

Lemma active_devices_fresh sys devs :
  active_devices sys = Ok devs → Forall (λ d, dev_name_mac d = None) devs.
Proof.
  unfold active_devices.
  destruct (store_get _ _) as [interfaces|e]; simpl; [|done].
  destruct (property_iter interfaces) as [names|e]; simpl; [|done].
  apply connected_devices_fresh.
Qed.

Lemma format_joined_resolved copiedInterfaces (devs : list device) :
  Forall has_address devs →
  Forall (λ d, resolved copiedInterfaces d = true) devs →
  ∃ lines, format_devices (map (joined copiedInterfaces) devs) = Ok lines
           ∧ Forall2 (listed copiedInterfaces) devs lines.
Proof.
  induction devs as [|d devs IH]; intros Haddr Hres.
  - exists []. split; [done | constructor].
  - apply Forall_cons in Haddr as [[a Ha] Haddr].
    apply Forall_cons in Hres as [Hd Hres].
    destruct (IH Haddr Hres) as (lines & Hlines & Hall).
    destruct (joined_device copiedInterfaces d) as (H1 & H2 & H3).
    rewrite Hd in H3. destruct H3 as (i & Hin & Hb & Hn).
    exists (summary_line (HardwareAddressString i) a
                         (LocalizedDisplayName i) (dev_interface d) :: lines).
    split.
    + cbn [map format_devices]. unfold format_device.
      rewrite Hn, H2, Ha, H1. simpl. by rewrite Hlines.
    + constructor; [|done]. by exists i, a.
Qed.

Lemma format_joined_unresolved copiedInterfaces (devs : list device) :
  Forall has_address devs →
  Forall (λ d, dev_name_mac d = None) devs →
  Exists (λ d, resolved copiedInterfaces d = false) devs →
  format_devices (map (joined copiedInterfaces) devs) = Raise KeyError.
Proof.
  induction devs as [|d devs IH]; intros Haddr Hfresh Hex.
  - by apply Exists_nil in Hex.
  - apply Forall_cons in Haddr as [[a Ha] Haddr].
    apply Forall_cons in Hfresh as [Hd Hfresh].
    destruct (joined_device copiedInterfaces d) as (H1 & H2 & H3).
    cbn [map format_devices]. unfold format_device.
    destruct (resolved copiedInterfaces d) eqn:Hres.
    + destruct H3 as (i & Hin & Hb & Hn).
      rewrite Hn, H2, Ha. simpl.
      apply Exists_cons in Hex as [Hex|Hex]; [congruence|].
      by rewrite (IH Haddr Hfresh Hex).
    + by rewrite H3, Hd.
Qed.

(** C5, as stated, fails: Ethernet and a tunnel are up, both with an
    address, and the copied interfaces hold Ethernet only.  The lookup
    ends in the handler of [KeyError]: the summary is ["Unknown"], and
    names neither interface.  Without the tunnel, Ethernet is listed. *)
Lemma unresolved_interface_hides_all :
  active_devices (system_up true)
  = Ok [device_en0; device_utun0]
  ∧ get_network_info (system_up true) = Ok (PStr "Unknown")
  ∧ PyStr.contains "utun0" "Unknown" = false
  ∧ PyStr.contains "en0" "Unknown" = false.
Proof. repeat split; vm_compute; reflexivity. Qed.

Lemma property_first_error v e :
  property_first v = Raise e → e = TypeError ∨ e = IndexError.
Proof.
  destruct v as [[[|c s]|[|x l]]|]; cbn; intros [= <-]; auto.
Qed.

(** The devices before the first one without a copied interface have a
    first address: the format stops at that one, on its missing [mac]. *)
Lemma format_joined_first_unresolved copiedInterfaces pre d post :
  Forall (λ d, dev_name_mac d = None) (pre ++ d :: post) →
  Forall has_address pre →
  resolved copiedInterfaces d = false →
  format_devices (map (joined copiedInterfaces) (pre ++ d :: post))
  = Raise KeyError.
Proof.
  intros Hfresh Haddr Hd.
  induction pre as [|x pre IH].
  - apply Forall_cons in Hfresh as [Hnone _].
    destruct (joined_device copiedInterfaces d) as (_ & _ & H3).
    rewrite Hd in H3. cbn [app map format_devices]. unfold format_device.
    by rewrite H3, Hnone.
  - apply Forall_cons in Hfresh as [Hnone Hfresh].
    apply Forall_cons in Haddr as [[a Ha] Haddr].
    destruct (joined_device copiedInterfaces x) as (_ & H2 & H3).
    change ((x :: pre) ++ d :: post) with (x :: (pre ++ d :: post)).
    cbn [map format_devices]. unfold format_device.
    destruct (resolved copiedInterfaces x).
    + destruct H3 as (i & _ & _ & Hn).
      rewrite Hn, H2, Ha. simpl. by rewrite (IH Hfresh Haddr).
    + by rewrite H3, Hnone.
Qed.

(** The devices before the first one without a first address have a
    copied interface: the format stops on an address that cannot be
    read. *)
Lemma format_joined_first_no_address copiedInterfaces pre d post :
  Forall (λ d, resolved copiedInterfaces d = true) pre →
  resolved copiedInterfaces d = true →
  ¬ has_address d →
  format_devices (map (joined copiedInterfaces) (pre ++ d :: post))
  = Raise TypeError
  ∨ format_devices (map (joined copiedInterfaces) (pre ++ d :: post))
    = Raise IndexError.
Proof.
  intros Hres Hd Hno.
  induction pre as [|x pre IH].
  - destruct (joined_device copiedInterfaces d) as (_ & H2 & H3).
    rewrite Hd in H3. destruct H3 as (i & _ & _ & Hn).
    cbn [app map format_devices]. unfold format_device. rewrite Hn, H2.
    cbn [of_option mbind outcome_bind].
    destruct (property_first (dev_address d)) as [a|e] eqn:Ha.
    + exfalso. apply Hno. by exists a.
    + destruct (property_first_error _ _ Ha) as [-> | ->]; auto.
  - apply Forall_cons in Hres as [Hx Hres].
    destruct (joined_device copiedInterfaces x) as (_ & H2 & H3).
    rewrite Hx in H3. destruct H3 as (i & _ & _ & Hn).
    change ((x :: pre) ++ d :: post) with (x :: (pre ++ d :: post)).
    cbn [map format_devices]. unfold format_device. rewrite Hn, H2.
    cbn [of_option mbind outcome_bind].
    destruct (property_first (dev_address x)) as [a|e] eqn:Ha.
    + destruct (IH Hres) as [-> | ->]; auto.
    + destruct (property_first_error _ _ Ha) as [-> | ->]; auto.
Qed.

(** C5, amended.  The active interfaces other than [lo0] have been read
    and the interfaces have been copied.  If every active interface has a
    first address and the BSD name of a copied interface, the summary has
    one line for each, in order, with the address and the name of such a
    copied interface (a name or an address that is [None] shows as
    [None]).  Otherwise the first active interface that cannot be shown
    decides.  If it has no copied interface (those before it have a first
    address), the summary is ["Unknown"], whatever the other interfaces
    are.  If it has a copied interface but no first address (those before
    it have a copied interface), the lookup raises [TypeError] or
    [IndexError], which leaves [get_network_info]. *)
Theorem network_summary_all_or_unknown (sys : system) devs copiedInterfaces :
  active_devices sys = Ok devs →
  network_interfaces sys = Some copiedInterfaces →
  (Forall has_address devs →
   Forall (λ d, resolved copiedInterfaces d = true) devs →
   ∃ lines, get_network_info sys = Ok (PStr (PyStr.join LFs lines))
            ∧ Forall2 (listed copiedInterfaces) devs lines)
  ∧ (∀ pre d post,
       devs = pre ++ d :: post →
       Forall has_address pre →
       resolved copiedInterfaces d = false →
       get_network_info sys = Ok (PStr "Unknown"))
  ∧ (∀ pre d post,
       devs = pre ++ d :: post →
       Forall (λ d, resolved copiedInterfaces d = true) pre →
       resolved copiedInterfaces d = true →
       ¬ has_address d →
       get_network_info sys = Raise TypeError
       ∨ get_network_info sys = Raise IndexError).
Proof.
  intros Hact Hcopy.
  unfold get_network_info, network_info_lookup.
  rewrite Hact, Hcopy. cbn [of_option]. simpl mbind.
  rewrite join_interfaces_map. split; [|split].
  - intros Haddr Hres.
    destruct (format_joined_resolved _ _ Haddr Hres) as (lines & Hl & Hall).
    exists lines. rewrite Hl. by split.
  - intros pre d post -> Haddr Hd.
    rewrite (format_joined_first_unresolved copiedInterfaces pre d post
               (active_devices_fresh _ _ Hact) Haddr Hd).
    reflexivity.
  - intros pre d post -> Hres Hd Hno.
    destruct (format_joined_first_no_address copiedInterfaces pre d post
                Hres Hd Hno) as [-> | ->]; auto.
Qed.

Lemma network_summary_all_or_unknown_witness :
  (∃ lines,
     get_network_info (system_up false) = Ok (PStr (PyStr.join LFs lines))
     ∧ Forall2 (listed [en0]) [device_en0] lines)
  ∧ get_network_info (system_up true) = Ok (PStr "Unknown")
  ∧ (get_network_info system_no_address_tunnel = Raise TypeError
     ∨ get_network_info system_no_address_tunnel = Raise IndexError).
Proof.
  split; [|split].
  - apply (network_summary_all_or_unknown (system_up false)
             [device_en0] [en0]).
    + vm_compute. reflexivity.
    + reflexivity.
    + repeat constructor. eexists. reflexivity.
    + repeat constructor.
  - destruct (network_summary_all_or_unknown (system_up true)
                [device_en0; device_utun0] [en0]) as (_ & Hunknown & _).
    + vm_compute. reflexivity.
    + reflexivity.
    + apply (Hunknown [device_en0] device_utun0 []).
      * reflexivity.
      * repeat constructor. eexists. reflexivity.
      * vm_compute. reflexivity.
  - destruct (network_summary_all_or_unknown system_no_address_tunnel
                [ {| dev_interface := "en0"; dev_address := None;
                     dev_name_mac := None |}; device_utun0 ] [en0])
      as (_ & _ & Hraise).
    + vm_compute. reflexivity.
    + reflexivity.
    + apply (Hraise [] {| dev_interface := "en0"; dev_address := None;
                          dev_name_mac := None |} [device_utun0]).
      * reflexivity.
      * constructor.
      * vm_compute. reflexivity.
      * intros [a Ha]. discriminate.
Defined.

(** ** The installer *)

Lemma bool_decide_is_Some {A} (x : A) :
  bool_decide (is_Some (Some x)) = true.
Proof. apply bool_decide_eq_true_2. eauto. Qed.

Lemma new_events_app (m m' : machine) evs :
  events m' = events m ++ evs → new_events m m' = evs.
Proof.
  intros H. unfold new_events. rewrite H. apply drop_app_length.
Qed.

Section keeps_spawned.

Context {A B : Type}.

Lemma keeps_mret (a : A) : keeps_spawned (mret a : script A).
Proof. by intros m. Qed.

Lemma keeps_raise (e : exn) : keeps_spawned (raise e : script A).
Proof. by intros m. Qed.

Lemma keeps_lift (o : outcome A) : keeps_spawned (lift o).
Proof. by intros m. Qed.

Lemma keeps_bind (c : script A) (k : A → script B) :
  keeps_spawned c → (∀ a, keeps_spawned (k a)) → keeps_spawned (c ≫= k).
Proof.
  intros Hc Hk m. specialize (Hc m).
  unfold mbind, script_bind. destruct (c m) as [m' [a|e]]; simpl in *.
  - by rewrite Hk.
  - done.
Qed.

Lemma keeps_if (b : bool) (c1 c2 : script A) :
  keeps_spawned c1 → keeps_spawned c2 →
  keeps_spawned (if b then c1 else c2).
Proof. by destruct b. Qed.

End keeps_spawned.

Lemma spawned_snoc evs ev :
  spawned (evs ++ [ev])
  = spawned evs ++ match ev with EvSpawn cmd => [cmd] | _ => [] end.
Proof. unfold spawned. rewrite omap_app. by destruct ev. Qed.

Lemma keeps_print text : keeps_spawned (print text).
Proof. intros m. simpl. by rewrite spawned_snoc, app_nil_r. Qed.

Lemma keeps_path_exists path : keeps_spawned (path_exists path).
Proof. by intros m. Qed.

Lemma keeps_read_file path : keeps_spawned (read_file path).
Proof. intros m. unfold read_file. by destruct (files m !! path). Qed.

Lemma keeps_write_file h path data : keeps_spawned (write_file h path data).
Proof.
  intros m. unfold write_file. destruct (_ || _); [done|].
  simpl. by rewrite spawned_snoc, app_nil_r.
Qed.

Lemma keeps_lchown path uid gid : keeps_spawned (lchown path uid gid).
Proof.
  intros m. unfold lchown.
  destruct (files m !! path); [|destruct (bool_decide _)]; simpl;
    by rewrite ?spawned_snoc, ?app_nil_r.
Qed.

Lemma keeps_chmod path mode : keeps_spawned (chmod path mode).
Proof.
  intros m. unfold chmod.
  destruct (files m !! path); [|destruct (bool_decide _)]; simpl;
    by rewrite ?spawned_snoc, ?app_nil_r.
Qed.

Lemma keeps_makedirs path mode : keeps_spawned (makedirs path mode).
Proof.
  intros m. unfold makedirs. destruct (_ || _); [done|].
  simpl. by rewrite spawned_snoc, app_nil_r.
Qed.

Create HintDb keeps discriminated.
#[local] Hint Resolve keeps_mret keeps_raise keeps_lift keeps_print
  keeps_path_exists keeps_read_file keeps_write_file keeps_lchown
  keeps_chmod keeps_makedirs : keeps.

Ltac keeps_tac :=
  repeat first
    [ apply keeps_bind; [|intros ?]
    | apply keeps_if
    | solve [auto with keeps] ].

Lemma keeps_reconcile_launch_agent h :
  keeps_spawned (Installer.reconcile_launch_agent h).
Proof. unfold Installer.reconcile_launch_agent. keeps_tac. Qed.

Lemma keeps_reconcile_log_script h log_script :
  keeps_spawned (Installer.reconcile_log_script h log_script).
Proof.
  unfold Installer.reconcile_log_script, Installer.write_log_script.
  keeps_tac.
Qed.

(** The name [subprocess] is not bound in the installer: the call of
    [check_call] raises [NameError], and so does the look-up of the class
    of the [except] clause. *)
Lemma activate_raises h m :
  Installer.activate h m = (m, Raise NameError).
Proof. reflexivity. Qed.

(** C2.  The installer imports [os], [pwd], [sys] and [plistlib] only.
    On every machine the loop over the three commands ends at its first
    turn with [NameError], before a command is run: [check_call] runs
    none of the three, and the whole script runs no command at all. *)
Theorem activation_runs_no_command h log_script m :
  Installer.activate h m = (m, Raise NameError)
  ∧ (∀ cmd, Installer.check_call h cmd m = (m, Raise NameError))
  ∧ spawned (events (Installer.run h log_script m).1) = spawned (events m)
  ∧ Installer.launchctl_list
    = [ ["/bin/launchctl"; "bootstrap"; "loginwindow";
         Installer.launch_agent_file];
        ["/bin/launchctl"; "enable";
         "loginwindow/com.github.primalcurve.jamf_login_log"];
        ["/bin/launchctl"; "kickstart"; "-k";
         "loginwindow/com.github.primalcurve.jamf_login_log"] ].
Proof.
  split; [reflexivity|]. split; [reflexivity|]. split; [|reflexivity].
  assert (keeps_spawned (Installer.run h log_script)) as H; [|apply H].
  unfold Installer.run.
  apply keeps_bind; [apply keeps_reconcile_launch_agent|intros _].
  apply keeps_bind; [apply keeps_reconcile_log_script|intros _].
  intros m'. by rewrite activate_raises.
Qed.

(** C1.  On a machine without the LaunchAgent and without the script, the
    first step writes the LaunchAgent and gives it to root with the mode
    0644.  The step of the script then sets the mode of the LaunchAgent,
    not of the script, to 0755; no command is run, and the run ends with
    [NameError].  A second run changes nothing in the file system. *)
Theorem fresh_install_mode_and_commands :
  let laf := Installer.launch_agent_file in
  let m1 := (Installer.run host_sample script_sample machine_fresh).1 in
  let m2 := (Installer.run host_sample script_sample m1).1 in
  List.filter is_fs_write
    (events (Installer.reconcile_launch_agent host_sample machine_fresh).1)
  = [EvWrite laf plist_document; EvChown laf 0 0; EvChmod laf (octal 6 4 4)]
  ∧ attrs (Installer.reconcile_launch_agent host_sample machine_fresh).1 laf
    = Some (0, 0, octal 6 4 4)
  ∧ attrs m1 laf = Some (0, 0, octal 7 5 5)
  ∧ attrs m1 Installer.log_script_file = Some (0, 0, octal 6 4 4)
  ∧ spawned (events m1) = []
  ∧ (Installer.run host_sample script_sample machine_fresh).2
    = Raise NameError
  ∧ List.filter is_fs_write (new_events m1 m2) = [].
Proof. vm_compute. repeat split; reflexivity. Qed.

(** ** The installer run twice *)

Local Abbreviation laf := Installer.launch_agent_file.
Local Abbreviation lsf := Installer.log_script_file.
Local Abbreviation script_dir := (Path.dirname Installer.log_script_file).

Lemma script_dir_made :
  lsf ∉ ({[script_dir]} ∪ list_to_set
           (Path.ancestors (String.length script_dir) script_dir)
         : gset string).
Proof. apply (bool_decide_unpack _). vm_compute. exact I. Qed.

Lemma not_in_made (ds : gset string) :
  lsf ∉ ds →
  lsf ∉ ds ∪ {[script_dir]}
        ∪ list_to_set (Path.ancestors (String.length script_dir) script_dir).
Proof.
  intros Hds Hin. apply elem_of_union in Hin as [Hin|Hin].
  - apply elem_of_union in Hin as [Hin|Hin]; [done|].
    apply script_dir_made, elem_of_union. by left.
  - apply script_dir_made, elem_of_union. by right.
Qed.

Lemma laf_ne_lsf : laf ≠ lsf.
Proof. apply (bool_decide_unpack _). vm_compute. exact I. Qed.

Lemma quiet_for_print path text : quiet_for path [EvPrint text].
Proof. by repeat constructor. Qed.

Section installer_steps.

Variable h : host.
Variable log_script : string.
Variable m : machine.

Lemma launch_agent_kept f p :
  files m !! laf = Some f →
  readPlist h (f_data f) = Ok p →
  py_eq p Installer.launch_agent_dict = true →
  Installer.reconcile_launch_agent h m
  = ({| files := files m; dirs := dirs m;
        events := events m ++
          [EvPrint "LaunchAgent already exists. Checking it against master LD.";
           EvPrint "Existing LaunchAgent matches master. Continuing."] |},
     Ok tt).
Proof.
  intros Hf Hp Heq.
  unfold Installer.reconcile_launch_agent, mbind, script_bind, path_exists,
    read_file, lift, print, emit.
  rewrite Hf, bool_decide_is_Some. cbn [orb]. rewrite Hf, Hp.
  cbn [files dirs events mret script_ret Installer.differs].
  rewrite Heq. cbn [negb files dirs events].
  by rewrite <- app_assoc.
Qed.

Lemma launch_agent_written :
  Path.dirname laf ∈ dirs m →
  laf ∉ dirs m →
  launch_agent_stale h m →
  ∃ text,
    Installer.reconcile_launch_agent h m
    = ({| files :=
            <[laf := {| f_data := writePlist h Installer.launch_agent_dict;
                        f_uid := Installer.uid h;
                        f_gid := Installer.gid h;
                        f_mode := octal 6 4 4 |}]> (files m);
          dirs := dirs m;
          events := events m ++
            [EvPrint text;
             EvPrint "LaunchAgent does not exist or does not match master. Creating.";
             EvWrite laf (writePlist h Installer.launch_agent_dict);
             EvChown laf (Installer.uid h) (Installer.gid h);
             EvChmod laf (octal 6 4 4)] |}, Ok tt).
Proof.
  intros Hdir Hnd Hstale. unfold launch_agent_stale in Hstale.
  unfold Installer.reconcile_launch_agent, mbind, script_bind, path_exists,
    read_file, lift, print, emit, write_file, lchown, chmod.
  rewrite (bool_decide_eq_false_2 (laf ∈ dirs m)) by done.
  destruct (files m !! laf) as [f|] eqn:Hf.
  - destruct Hstale as (p & Hp & Hne).
    rewrite bool_decide_is_Some. cbn [orb]. rewrite Hf, Hp.
    cbn [files dirs events mret script_ret Installer.differs].
    rewrite Hne. cbn [negb files dirs events].
    rewrite (bool_decide_eq_false_2 (laf ∈ dirs m)) by done.
    rewrite (bool_decide_eq_false_2 (Path.dirname laf ∉ dirs m)) by tauto.
    cbn [orb files dirs events]. rewrite Hf.
    cbn [orb files dirs events].
    rewrite !lookup_insert_eq. cbn [files dirs events f_data f_uid f_gid f_mode].
    rewrite !lookup_insert_eq. cbn [files dirs events f_data f_uid f_gid f_mode].
    rewrite !insert_insert_eq. eexists.
    by rewrite <- !app_assoc.
  - rewrite (bool_decide_eq_false_2 (is_Some None)) by (by intros [? ?]).
    cbn [orb files dirs events mret script_ret Installer.differs].
    rewrite (bool_decide_eq_false_2 (laf ∈ dirs m)) by done.
    rewrite (bool_decide_eq_false_2 (Path.dirname laf ∉ dirs m)) by tauto.
    cbn [orb files dirs events]. rewrite Hf.
    cbn [orb files dirs events].
    rewrite !lookup_insert_eq. cbn [files dirs events f_data f_uid f_gid f_mode].
    rewrite !lookup_insert_eq. cbn [files dirs events f_data f_uid f_gid f_mode].
    rewrite !insert_insert_eq. eexists.
    by rewrite <- !app_assoc.
Qed.


(** The script cannot be written: the machine keeps its files, a
    directory may be added, and the script stays out of reach. *)
Lemma write_log_script_blocked :
  blocked m →
  ∃ m' evs,
    Installer.write_log_script h log_script m = (m', Raise IOError)
    ∧ files m' = files m
    ∧ blocked m'
    ∧ (lsf ∈ dirs m → lsf ∈ dirs m')
    ∧ events m' = events m ++ evs
    ∧ quiet_for laf evs.
Proof.
  intros Hb.
  unfold Installer.write_log_script, mbind, script_bind, path_exists,
    makedirs, write_file.
  destruct (decide (is_Some (files m !! script_dir))) as [Hpf|Hpf].
  - rewrite (bool_decide_eq_true_2 _ Hpf). cbn [orb mret script_ret].
    assert (bool_decide (lsf ∈ dirs m)
            || bool_decide (script_dir ∉ dirs m) = true) as ->.
    { destruct Hb as [Hd|[Hd _]].
      - by rewrite (bool_decide_eq_true_2 _ Hd).
      - rewrite (bool_decide_eq_true_2 _ Hd). apply orb_true_r. }
    exists m, []. rewrite app_nil_r. repeat split; try done. constructor.
  - rewrite (bool_decide_eq_false_2 _ Hpf). cbn [orb].
    destruct Hb as [Hd|[_ Hd]]; [|done].
    destruct (decide (script_dir ∈ dirs m)) as [Hpd|Hpd].
    + rewrite (bool_decide_eq_true_2 _ Hpd). cbn [mret script_ret].
      rewrite (bool_decide_eq_true_2 _ Hd). cbn [orb].
      exists m, []. rewrite app_nil_r. repeat split; try done.
      * by left.
      * constructor.
    + rewrite (bool_decide_eq_false_2 _ Hpd). cbn [orb].
      cbn [files dirs events].
      rewrite (bool_decide_eq_false_2 _ Hpf), (bool_decide_eq_false_2 _ Hpd).
      cbn [orb files dirs events].
      rewrite (bool_decide_eq_true_2 (lsf ∈ _)) by set_solver.
      cbn [orb]. eexists _, [_]. cbn [files dirs events].
      repeat split; try done.
      * left. cbn [dirs]. set_solver.
      * intros _. set_solver.
      * by repeat constructor.
Qed.

(** The script can be written: it is, it goes to root, and the mode of
    the LaunchAgent becomes 0755. *)
Lemma write_log_script_done fl :
  ¬ blocked m →
  files m !! laf = Some fl →
  ∃ m' evs fs,
    Installer.write_log_script h log_script m = (m', Ok tt)
    ∧ files m' !! lsf = Some fs ∧ f_data fs = log_script
    ∧ files m' !! laf = Some {| f_data := f_data fl; f_uid := f_uid fl;
                                f_gid := f_gid fl;
                                f_mode := octal 7 5 5 |}
    ∧ events m' = events m ++ evs
    ∧ rewrites laf evs = 0%nat.
Proof.
  intros Hnb Hfl.
  assert (lsf ∉ dirs m) as Hd by (intros ?; apply Hnb; by left).
  unfold Installer.write_log_script, mbind, script_bind, path_exists,
    makedirs, write_file, lchown, chmod, print, emit.
  destruct (decide (script_dir ∈ dirs m)) as [Hpd|Hpd].
  - rewrite (bool_decide_eq_true_2 _ Hpd), orb_true_r.
    cbn [mret script_ret].
    rewrite (bool_decide_eq_false_2 _ Hd).
    rewrite (bool_decide_eq_false_2 (script_dir ∉ dirs m)) by tauto.
    cbn [orb files dirs events].
    rewrite !lookup_insert_eq. cbn [files dirs events].
    rewrite lookup_insert_ne by (apply not_eq_sym, laf_ne_lsf).
    rewrite lookup_insert_ne by (apply not_eq_sym, laf_ne_lsf).
    rewrite Hfl. cbn [files dirs events f_data f_uid f_gid f_mode].
    eexists _, _, _. split; [reflexivity|]. cbn [files events].
    rewrite lookup_insert_ne by apply laf_ne_lsf.
    rewrite !lookup_insert_eq.
    split; [reflexivity|]. split.
    { by destruct (files m !! lsf). }
    split; [reflexivity|]. split.
    { rewrite <- !app_assoc. reflexivity. }
    vm_compute. reflexivity.
  - assert (¬ is_Some (files m !! script_dir)) as Hpf.
    { intros ?. apply Hnb. by right. }
    rewrite (bool_decide_eq_false_2 _ Hpd), (bool_decide_eq_false_2 _ Hpf).
    cbn [orb files dirs events].
    rewrite ?(bool_decide_eq_false_2 _ Hpf), ?(bool_decide_eq_false_2 _ Hpd).
    cbn [orb files dirs events].
    rewrite (bool_decide_eq_false_2 (lsf ∈ _)).
    2:{ by apply not_in_made. }
    rewrite (bool_decide_eq_false_2 (script_dir ∉ _)).
    2:{ intros Hn. apply Hn. set_solver. }
    cbn [orb files dirs events].
    rewrite !lookup_insert_eq. cbn [files dirs events].
    rewrite lookup_insert_ne by (apply not_eq_sym, laf_ne_lsf).
    rewrite lookup_insert_ne by (apply not_eq_sym, laf_ne_lsf).
    rewrite Hfl. cbn [files dirs events f_data f_uid f_gid f_mode].
    eexists _, _, _. split; [reflexivity|]. cbn [files events].
    rewrite lookup_insert_ne by apply laf_ne_lsf.
    rewrite !lookup_insert_eq.
    split; [reflexivity|]. split.
    { by destruct (files m !! lsf). }
    split; [reflexivity|]. split.
    { rewrite <- !app_assoc. reflexivity. }
    vm_compute. reflexivity.
Qed.


Lemma script_kept f :
  files m !! lsf = Some f →
  f_data f = log_script →
  Installer.reconcile_log_script h log_script m
  = ({| files := files m; dirs := dirs m;
        events := events m ++
          [EvPrint "Script exists. Checking its contents against master script.";
           EvPrint "Script file matches master. No need to update. Exiting."] |},
     Ok tt).
Proof.
  intros Hf Hdata.
  unfold Installer.reconcile_log_script, mbind, script_bind, path_exists,
    read_file, print, emit.
  rewrite Hf, bool_decide_is_Some. cbn [orb]. rewrite Hf.
  cbn [files dirs events mret script_ret].
  rewrite bool_decide_eq_true_2 by (by rewrite Hdata).
  cbn [negb files dirs events]. by rewrite <- app_assoc.
Qed.

Lemma script_unreadable :
  files m !! lsf = None →
  lsf ∈ dirs m →
  Installer.reconcile_log_script h log_script m = (m, Raise IOError).
Proof.
  intros Hf Hd.
  unfold Installer.reconcile_log_script, mbind, script_bind, path_exists,
    read_file.
  rewrite (bool_decide_eq_true_2 _ Hd), orb_true_r. by rewrite Hf.
Qed.

Lemma script_rewritten :
  match files m !! lsf with
  | Some f => f_data f ≠ log_script
  | None => lsf ∉ dirs m
  end →
  ∃ text,
    Installer.reconcile_log_script h log_script m
    = Installer.write_log_script h log_script
        {| files := files m; dirs := dirs m;
           events := events m ++ [EvPrint text] |}.
Proof.
  intros Hdiff.
  unfold Installer.reconcile_log_script, mbind at 1 2.
  unfold script_bind, path_exists, read_file, print, emit.
  destruct (files m !! lsf) as [f|] eqn:Hf.
  - rewrite bool_decide_is_Some. cbn [orb].
    unfold mbind, script_bind. rewrite Hf.
    cbn [files dirs events mret script_ret].
    rewrite bool_decide_eq_false_2 by congruence.
    cbn [negb]. by eexists.
  - rewrite (bool_decide_eq_false_2 (is_Some None)) by (by intros [? ?]).
    rewrite (bool_decide_eq_false_2 _ Hdiff). cbn [orb].
    unfold mbind, script_bind.
    cbn [files dirs events mret script_ret].
    rewrite bool_decide_eq_false_2 by done.
    cbn [negb]. by eexists.
Qed.

End installer_steps.

Global Instance blocked_dec m : Decision (blocked m).
Proof. unfold blocked. apply _. Defined.

Lemma quiet_for_rewrites path evs :
  quiet_for path evs →
  rewrites path evs = 0%nat
  ∧ List.filter (is_attr_change_of path) evs = [].
Proof.
  unfold rewrites. induction 1 as [|ev evs [Hw Ha] _ [IH1 IH2]]; [done|].
  simpl. by rewrite Hw, Ha.
Qed.

Lemma rewrites_app path evs1 evs2 :
  rewrites path (evs1 ++ evs2)
  = (rewrites path evs1 + rewrites path evs2)%nat.
Proof. unfold rewrites. by rewrite List.filter_app, length_app. Qed.

(** A machine on which the step of the script has nothing left to write
    keeps its files through that step, and the LaunchAgent is not
    touched. *)
Lemma script_settled_quiet h log_script m :
  settled log_script m →
  ∃ m' r evs,
    Installer.reconcile_log_script h log_script m = (m', r)
    ∧ files m' = files m
    ∧ events m' = events m ++ evs
    ∧ quiet_for laf evs.
Proof.
  assert (∀ f, files m !! lsf = Some f → f_data f = log_script →
            ∃ m' r evs,
              Installer.reconcile_log_script h log_script m = (m', r)
              ∧ files m' = files m ∧ events m' = events m ++ evs
              ∧ quiet_for laf evs) as Hkept.
  { intros f Hf Hdata. rewrite (script_kept h log_script m f Hf Hdata).
    eexists _, _, _. repeat split. by repeat constructor. }
  assert (files m !! lsf = None → lsf ∈ dirs m →
          ∃ m' r evs,
            Installer.reconcile_log_script h log_script m = (m', r)
            ∧ files m' = files m ∧ events m' = events m ++ evs
            ∧ quiet_for laf evs) as Hunread.
  { intros Hf Hd. rewrite (script_unreadable h log_script m Hf Hd).
    exists m, (Raise IOError), []. rewrite app_nil_r.
    repeat split. constructor. }
  intros [(f & Hf & Hdata)|[[Hf Hd]|Hb]]; [by eapply Hkept|by apply Hunread|].
  assert (match files m !! lsf with
          | Some f => f_data f ≠ log_script
          | None => lsf ∉ dirs m
          end →
          ∃ m' r evs,
            Installer.reconcile_log_script h log_script m = (m', r)
            ∧ files m' = files m ∧ events m' = events m ++ evs
            ∧ quiet_for laf evs) as Hrew.
  { intros Hdiff.
    destruct (script_rewritten h log_script m Hdiff) as [text ->].
    destruct (write_log_script_blocked h log_script
                {| files := files m; dirs := dirs m;
                   events := events m ++ [EvPrint text] |} Hb)
      as (m' & evs & -> & Hfiles & _ & _ & Hev & Hq).
    exists m', (Raise IOError), (EvPrint text :: evs).
    split; [done|]. split; [done|]. split.
    - rewrite Hev. cbn [events]. by rewrite <- app_assoc.
    - constructor; [done | exact Hq]. }
  destruct (files m !! lsf) as [f|] eqn:Hf.
  - destruct (decide (f_data f = log_script)); [by eapply Hkept | by apply Hrew].
  - destruct (decide (lsf ∈ dirs m)); [by apply Hunread | by apply Hrew].
Qed.

(** The step of the script leaves a machine on which it has nothing left
    to write; it keeps the content of the LaunchAgent and does not write
    it. *)
Lemma script_settles h log_script m fl :
  files m !! laf = Some fl →
  ∃ m' r evs fl',
    Installer.reconcile_log_script h log_script m = (m', r)
    ∧ settled log_script m'
    ∧ files m' !! laf = Some fl' ∧ f_data fl' = f_data fl
    ∧ events m' = events m ++ evs
    ∧ rewrites laf evs = 0%nat.
Proof.
  intros Hfl.
  assert (match files m !! lsf with
          | Some f => f_data f ≠ log_script
          | None => lsf ∉ dirs m
          end →
          ∃ m' r evs fl',
            Installer.reconcile_log_script h log_script m = (m', r)
            ∧ settled log_script m'
            ∧ files m' !! laf = Some fl' ∧ f_data fl' = f_data fl
            ∧ events m' = events m ++ evs
            ∧ rewrites laf evs = 0%nat) as Hrew.
  { intros Hdiff.
    destruct (script_rewritten h log_script m Hdiff) as [text ->].
    set (mp := {| files := files m; dirs := dirs m;
                  events := events m ++ [EvPrint text] |}).
    destruct (decide (blocked mp)) as [Hb|Hnb].
    - destruct (write_log_script_blocked h log_script mp Hb)
        as (m' & evs & -> & Hfiles & Hb' & _ & Hev & Hq).
      exists m', (Raise IOError), (EvPrint text :: evs), fl.
      split; [done|]. split; [by right; right|].
      split; [by rewrite Hfiles|]. split; [done|]. split.
      + rewrite Hev. cbn [events mp]. by rewrite <- app_assoc.
      + apply (quiet_for_rewrites laf (EvPrint text :: evs)).
        constructor; [done | exact Hq].
    - destruct (write_log_script_done h log_script mp fl Hnb Hfl)
        as (m' & evs & fs & -> & Hfs & Hdata & Hlaf & Hev & Hrw).
      eexists m', (Ok tt), (EvPrint text :: evs), _.
      split; [done|]. split; [left; by exists fs|].
      split; [exact Hlaf|]. split; [done|]. split.
      + rewrite Hev. cbn [events mp]. by rewrite <- app_assoc.
      + exact Hrw. }
  destruct (files m !! lsf) as [f|] eqn:Hf.
  - destruct (decide (f_data f = log_script)) as [Hdata|]; [|by apply Hrew].
    rewrite (script_kept h log_script m f Hf Hdata).
    eexists _, _, _, fl. split; [reflexivity|].
    split; [left; by exists f|]. by repeat split.
  - destruct (decide (lsf ∈ dirs m)) as [Hd|]; [|by apply Hrew].
    rewrite (script_unreadable h log_script m Hf Hd).
    exists m, (Raise IOError), [], fl. rewrite app_nil_r.
    split; [done|]. split; [right; by left|]. by repeat split.
Qed.

(** The state a run ends in: that of the step of the script, if the step
    of the LaunchAgent went through; the loop of the commands changes
    nothing. *)
Lemma run_state h log_script m ma :
  Installer.reconcile_launch_agent h m = (ma, Ok tt) →
  (Installer.run h log_script m).1
  = (Installer.reconcile_log_script h log_script ma).1.
Proof.
  intros H1. unfold Installer.run, mbind, script_bind. rewrite H1.
  destruct (Installer.reconcile_log_script h log_script ma) as [m' [[]|e]];
    [|done].
  by rewrite activate_raises.
Qed.

(** C6.  The directory of the LaunchAgents is there, the LaunchAgent is
    absent or differs from the desired one, and [plistlib] reads back
    what it writes.  Then the first run writes the LaunchAgent file once,
    and the second run, from the machine the first one left, does not
    write it and changes neither its owner nor its mode. *)
Theorem apply_twice h log_script m :
  Path.dirname Installer.launch_agent_file ∈ dirs m →
  Installer.launch_agent_file ∉ dirs m →
  launch_agent_stale h m →
  plist_round_trip h →
  let m1 := (Installer.run h log_script m).1 in
  let m2 := (Installer.run h log_script m1).1 in
  rewrites Installer.launch_agent_file (new_events m m1) = 1%nat
  ∧ rewrites Installer.launch_agent_file (new_events m1 m2) = 0%nat
  ∧ List.filter (is_attr_change_of Installer.launch_agent_file)
      (new_events m1 m2) = []
  ∧ is_Some (attrs m1 Installer.launch_agent_file)
  ∧ attrs m2 Installer.launch_agent_file
    = attrs m1 Installer.launch_agent_file.
Proof.
  intros Hdir Hnd Hstale (p & Hp & Heq) m1 m2.
  (* the first run *)
  destruct (launch_agent_written h m Hdir Hnd Hstale) as [text Hstep1].
  set (ma := {| files := _ |}) in Hstep1.
  assert (files ma !! laf
          = Some {| f_data := writePlist h Installer.launch_agent_dict;
                    f_uid := Installer.uid h; f_gid := Installer.gid h;
                    f_mode := octal 6 4 4 |}) as Hlaf_a.
  { apply lookup_insert_eq. }
  destruct (script_settles h log_script ma _ Hlaf_a)
    as (m1' & r1 & evs1 & fl1 & Hstep2 & Hsettled & Hlaf1 & Hdata1 & Hev1
        & Hrw1).
  assert (m1 = m1') as Hm1.
  { unfold m1. rewrite (run_state h log_script m ma Hstep1).
    by rewrite Hstep2. }
  clearbody m1. subst m1'.
  (* the second run *)
  cbn [f_data] in Hdata1.
  assert (readPlist h (f_data fl1) = Ok p) as Hp1 by (by rewrite Hdata1).
  pose proof (launch_agent_kept h m1 fl1 p Hlaf1 Hp1 Heq) as Hstep1'.
  set (mb := {| files := files m1 |}) in Hstep1'.
  destruct (script_settled_quiet h log_script mb Hsettled)
    as (m2' & r2 & evs2 & Hstep2' & Hfiles2 & Hev2 & Hquiet).
  assert (m2 = m2') as Hm2.
  { unfold m2. rewrite (run_state h log_script m1 mb Hstep1').
    by rewrite Hstep2'. }
  clearbody m2. subst m2'.
  assert (new_events m m1
          = [EvPrint text;
             EvPrint "LaunchAgent does not exist or does not match master. Creating.";
             EvWrite laf (writePlist h Installer.launch_agent_dict);
             EvChown laf (Installer.uid h) (Installer.gid h);
             EvChmod laf (octal 6 4 4)] ++ evs1) as ->.
  { apply new_events_app. rewrite Hev1. cbn [events ma].
    by rewrite <- app_assoc. }
  assert (new_events m1 m2
          = [EvPrint "LaunchAgent already exists. Checking it against master LD.";
             EvPrint "Existing LaunchAgent matches master. Continuing."]
            ++ evs2) as ->.
  { apply new_events_app. rewrite Hev2. cbn [events mb].
    by rewrite <- app_assoc. }
  destruct (quiet_for_rewrites laf evs2 Hquiet) as [Hrw2 Hattr2].
  split; [|split; [|split; [|split]]].
  - rewrite rewrites_app, Hrw1. vm_compute. reflexivity.
  - rewrite rewrites_app, Hrw2. reflexivity.
  - rewrite List.filter_app, Hattr2. reflexivity.
  - unfold attrs. rewrite Hlaf1. by eexists.
  - unfold attrs. by rewrite Hfiles2.
Qed.

Lemma apply_twice_witness :
  let m1 := (Installer.run host_sample script_sample machine_fresh).1 in
  let m2 := (Installer.run host_sample script_sample m1).1 in
  rewrites Installer.launch_agent_file (new_events machine_fresh m1) = 1%nat
  ∧ rewrites Installer.launch_agent_file (new_events m1 m2) = 0%nat
  ∧ List.filter (is_attr_change_of Installer.launch_agent_file)
      (new_events m1 m2) = []
  ∧ is_Some (attrs m1 Installer.launch_agent_file)
  ∧ attrs m2 Installer.launch_agent_file
    = attrs m1 Installer.launch_agent_file.
Proof.
  apply (apply_twice host_sample script_sample machine_fresh).
  - apply (bool_decide_unpack _). vm_compute. exact I.
  - apply (bool_decide_unpack _). vm_compute. exact I.
  - exact I.
  - exists Installer.launch_agent_dict. split; vm_compute; reflexivity.
Defined.

(** ** The teardown tool *)

Lemma for_each_cons {A} (x : A) l (body : A → script unit) m :
  for_each (x :: l) body m
  = match body x m with
    | (m', Ok _) => for_each l body m'
    | (m', Raise e) => (m', Raise e)
    end.
Proof. reflexivity. Qed.

(** One turn of the loop over the commands: the command is started, and
    a [CalledProcessError] does not leave the [try]. *)
Lemma teardown_command h cmd m :
  starts h cmd →
  try_script (run_command h cmd;; mret tt)
     (global_name Teardown.imports "subprocess";; mret CalledProcessError)
     (mret tt) m
  = ({| files := files m; dirs := dirs m;
        events := events m ++ [EvSpawn cmd] |}, Ok tt).
Proof.
  intros Hs. unfold try_script, mbind, script_bind, run_command.
  destruct (spawn h cmd) as [z|e] eqn:Hsp; [done|].
  rewrite (Hs e Hsp). reflexivity.
Qed.

Lemma teardown_run_commands h target m :
  Forall (starts h) (teardown_commands target) →
  Teardown.run_commands h target m
  = ({| files := files m; dirs := dirs m;
        events := events m ++ map EvSpawn (teardown_commands target) |},
     Ok tt).
Proof.
  intros Hstart.
  apply Forall_cons in Hstart as [H1 Hstart].
  apply Forall_cons in Hstart as [H2 Hstart].
  apply Forall_cons in Hstart as [H3 _].
  unfold Teardown.run_commands, Teardown.cmd_list.
  rewrite for_each_cons, (teardown_command _ _ _ H1).
  rewrite for_each_cons, (teardown_command _ _ _ H2).
  rewrite for_each_cons, (teardown_command _ _ _ H3).
  cbn [for_each files dirs events mret script_ret].
  by rewrite <- !app_assoc.
Qed.

Lemma teardown_user_loginwindow h args user m f :
  files m !! Teardown.launch_agent_file user = Some f →
  declares_loginwindow h f →
  Forall (starts h)
    (teardown_commands ("loginwindow/" +:+ Teardown.agent_name args)) →
  Teardown.teardown_user h args user m
  = ({| files := delete (Teardown.launch_agent_file user) (files m);
        dirs := dirs m;
        events :=
          events m
          ++ map EvSpawn
               (teardown_commands
                  ("loginwindow/" +:+ Teardown.agent_name args))
          ++ [EvUnlink (Teardown.launch_agent_file user)] |}, Ok tt).
Proof.
  intros Hf (p & st & Hp & Hst & Hin) Hstart.
  unfold Teardown.teardown_user, mbind, script_bind, path_exists, read_file,
    lift.
  rewrite Hf, bool_decide_is_Some. cbn [orb]. rewrite Hf, Hp, Hst, Hin.
  unfold Teardown.resolved_target.
  rewrite (teardown_run_commands _ _ _ Hstart).
  cbn [files dirs events]. rewrite Hf, bool_decide_is_Some. cbn [orb].
  unfold unlink. cbn [files dirs events]. rewrite Hf.
  by rewrite <- !app_assoc.
Qed.

Lemma spawned_commands cmds path :
  spawned (map EvSpawn cmds ++ [EvUnlink path]) = cmds.
Proof.
  induction cmds as [|cmd cmds IH]; [done|].
  change (spawned (map EvSpawn (cmd :: cmds) ++ [EvUnlink path]))
    with (cmd :: spawned (map EvSpawn cmds ++ [EvUnlink path])).
  by rewrite IH.
Qed.

Lemma new_events_same (m : machine) : new_events m m = [].
Proof. apply new_events_app. by rewrite app_nil_r. Qed.

Lemma main_build_error h args m e :
  Teardown.build_targets h args = Raise e →
  Teardown.main h args m = (m, Raise e).
Proof.
  intros H. unfold Teardown.main, mbind, script_bind, lift. by rewrite H.
Qed.

Lemma user_target_error args user e :
  Teardown.user_target args user = Raise e →
  e = TypeError ∨ e = AttributeError.
Proof.
  unfold Teardown.user_target, Teardown.getattr.
  destruct (user !! "unique_id") as [unique_id|]; cbn; [|intros [= <-]; auto].
  destruct (Teardown.str_add _ unique_id) as [domain|e'] eqn:Hadd; cbn.
  - destruct (user !! "nfs_home_directory") as [home|]; cbn;
      [|intros [= <-]; auto].
    destruct home; cbn; try discriminate; intros [= <-]; auto.
  - destruct unique_id; cbn in Hadd; try discriminate;
      injection Hadd as <-; intros [= <-]; auto.
Qed.

Lemma user_target_integer_unique_id args user :
  integer_unique_id user → Teardown.user_target args user = Raise TypeError.
Proof.
  intros [n Hn]. unfold Teardown.user_target, Teardown.getattr.
  by rewrite Hn.
Qed.

Lemma user_targets_integer_unique_id args users :
  Exists integer_unique_id users →
  ∃ e, Teardown.user_targets args users = Raise e
       ∧ (e = TypeError ∨ e = AttributeError).
Proof.
  induction users as [|user users IH]; intros Hex.
  - by apply Exists_nil in Hex.
  - cbn [Teardown.user_targets].
    destruct (Teardown.user_target args user) as [t|e] eqn:Ht.
    + apply Exists_cons in Hex as [Hint|Hex].
      { by rewrite (user_target_integer_unique_id args user Hint) in Ht. }
      destruct (IH Hex) as (e & -> & He). by exists e.
    + exists e. split; [done|]. by apply (user_target_error args user).
Qed.

(** C9.  A user of the loop whose LaunchAgent file declares the
    login-window session type gets the commands kill, bootout and
    disable, in this order, for the target [loginwindow/<agent-name>],
    whatever the target computed from the domain; then the file is
    removed.  With the domain [system], [main] handles the file of
    [/Library/LaunchAgents] so.  With any other domain [main] does not
    get to the loop when the first account has an integer [unique_id]: it
    ends with [TypeError] where it builds the domain target, and no
    [launchctl] command is started, whatever the LaunchAgent files
    declare.  Without any mobile account it ends normally and has started
    no command either. *)
Theorem teardown_targets_loginwindow h args m :
  (∀ user f,
     Forall (starts h)
       (teardown_commands ("loginwindow/" +:+ Teardown.agent_name args)) →
     files m !! Teardown.launch_agent_file user = Some f →
     declares_loginwindow h f →
     spawned (new_events m (Teardown.teardown_user h args user m).1)
     = teardown_commands ("loginwindow/" +:+ Teardown.agent_name args))
  ∧ (∀ f root_user,
       Forall (starts h)
         (teardown_commands ("loginwindow/" +:+ Teardown.agent_name args)) →
       PyStr.lower_bytes (Teardown.agent_domain args) = "system" →
       local_user_root h = Ok root_user →
       files m !! Path.join "/Library/LaunchAgents"
                            (Teardown.agent_name args +:+ ".plist") = Some f →
       declares_loginwindow h f →
       spawned (new_events m (Teardown.main h args m).1)
       = teardown_commands ("loginwindow/" +:+ Teardown.agent_name args)
       ∧ (Teardown.main h args m).2 = Ok tt)
  ∧ (∀ user users,
       PyStr.lower_bytes (Teardown.agent_domain args) ≠ "system" →
       mobile_users h = Ok (user :: users) →
       integer_unique_id user →
       (Teardown.main h args m).2 = Raise TypeError
       ∧ spawned (new_events m (Teardown.main h args m).1) = [])
  ∧ (PyStr.lower_bytes (Teardown.agent_domain args) ≠ "system" →
     mobile_users h = Ok [] →
     (Teardown.main h args m).2 = Ok tt
     ∧ spawned (new_events m (Teardown.main h args m).1) = []).
Proof.
  split; [|split; [|split]].
  - intros user f Hstart Hf Hdecl.
    rewrite (teardown_user_loginwindow h args user m f Hf Hdecl Hstart).
    cbn [fst]. erewrite new_events_app by reflexivity.
    apply spawned_commands.
  - intros f root_user Hstart Hdom Hroot Hf Hdecl.
    set (root := {| Teardown.domain_target := "system";
                    Teardown.service_target :=
                      "system/" +:+ Teardown.agent_name args;
                    Teardown.launch_agent_file :=
                      Path.join "/Library/LaunchAgents"
                                (Teardown.agent_name args +:+ ".plist") |}).
    assert (Teardown.main h args m = Teardown.teardown_user h args root m)
      as ->.
    { unfold Teardown.main, Teardown.build_targets.
      rewrite Hdom, Hroot.
      change (String.eqb "system" "system") with true. cbv iota.
      unfold mbind at 1. unfold script_bind, lift.
      cbn [mbind outcome_bind mret outcome_ret].
      rewrite for_each_cons.
      fold root.
      by destruct (Teardown.teardown_user h args root m) as [m' [[]|e]]. }
    rewrite (teardown_user_loginwindow h args root m f Hf Hdecl Hstart).
    cbn [fst snd]. split; [|done].
    erewrite new_events_app by reflexivity.
    apply spawned_commands.
  - intros user users Hdom Hmob Hint.
    rewrite (main_build_error h args m TypeError).
    { cbn [fst snd]. by rewrite new_events_same. }
    unfold Teardown.build_targets.
    rewrite (proj2 (String.eqb_neq _ _) Hdom), Hmob.
    cbn [mbind outcome_bind Teardown.user_targets].
    by rewrite (user_target_integer_unique_id args user Hint).
  - intros Hdom Hmob.
    assert (Teardown.main h args m = (m, Ok tt)) as ->.
    { unfold Teardown.main, Teardown.build_targets.
      rewrite (proj2 (String.eqb_neq _ _) Hdom), Hmob. reflexivity. }
    cbn [fst snd]. by rewrite new_events_same.
Qed.

Lemma teardown_targets_loginwindow_witness :
  (spawned (new_events machine_installed
              (Teardown.main host_sample arguments_system
                             machine_installed).1)
   = teardown_commands "loginwindow/com.github.primalcurve.jamf_login_log"
   ∧ (Teardown.main host_sample arguments_system machine_installed).2
     = Ok tt)
  ∧ ((Teardown.main host_mobile arguments_loginwindow machine_installed).2
     = Raise TypeError
     ∧ spawned (new_events machine_installed
                  (Teardown.main host_mobile arguments_loginwindow
                                 machine_installed).1) = [])
  ∧ ((Teardown.main host_sample arguments_loginwindow machine_installed).2
     = Ok tt
     ∧ spawned (new_events machine_installed
                  (Teardown.main host_sample arguments_loginwindow
                                 machine_installed).1) = []).
Proof.
  split; [|split].
  - assert (Forall (starts host_sample)
              (teardown_commands
                 ("loginwindow/"
                  +:+ Teardown.agent_name arguments_system))) as Hstart.
    { repeat constructor; intros e; discriminate. }
    destruct (teardown_targets_loginwindow host_sample arguments_system
                machine_installed) as (_ & Hmain & _ & _).
    apply (Hmain {| f_data := plist_document; f_uid := 0; f_gid := 0;
                    f_mode := octal 7 5 5 |} ∅).
    + exact Hstart.
    + reflexivity.
    + reflexivity.
    + vm_compute. reflexivity.
    + exists Installer.launch_agent_dict, (PList [PStr "LoginWindow"]).
      repeat split; vm_compute; reflexivity.
  - destruct (teardown_targets_loginwindow host_mobile
                arguments_loginwindow machine_installed)
      as (_ & _ & Hother & _).
    apply (Hother {[ "unique_id" := PInt 501;
                     "nfs_home_directory" := PStr "/Users/ann" ]} []).
    + vm_compute. discriminate.
    + reflexivity.
    + exists 501. vm_compute. reflexivity.
  - destruct (teardown_targets_loginwindow host_sample
                arguments_loginwindow machine_installed)
      as (_ & _ & _ & Hnone).
    apply Hnone.
    + vm_compute. discriminate.
    + reflexivity.
Defined.

(* ===================================================================== *)
(** * Further properties *)
(* ===================================================================== *)

(** ** The teardown of one user *)

Lemma bool_decide_is_Some_None {A} :
  bool_decide (is_Some (@None A)) = false.
Proof. apply bool_decide_eq_false_2. by intros [? ?]. Qed.

Lemma teardown_user_own_target h args user m :
  Forall (starts h) (teardown_commands (Teardown.service_target user)) →
  (files m !! Teardown.launch_agent_file user = None →
   Teardown.launch_agent_file user ∉ dirs m →
   Teardown.teardown_user h args user m
   = ({| files := files m; dirs := dirs m;
         events := events m
           ++ map EvSpawn
                (teardown_commands (Teardown.service_target user)) |},
      Ok tt))
  ∧ (∀ f, files m !! Teardown.launch_agent_file user = Some f →
          declares_other h f →
          Teardown.teardown_user h args user m
          = ({| files := delete (Teardown.launch_agent_file user) (files m);
                dirs := dirs m;
                events := events m
                  ++ map EvSpawn
                       (teardown_commands (Teardown.service_target user))
                  ++ [EvUnlink (Teardown.launch_agent_file user)] |},
             Ok tt)).
Proof.
  intros Hstart. split.
  - intros Hf Hd.
    unfold Teardown.teardown_user, mbind, script_bind, path_exists, lift.
    rewrite Hf, bool_decide_is_Some_None, (bool_decide_eq_false_2 _ Hd).
    cbn [orb mret script_ret py_get Teardown.py_contains existsb].
    rewrite lookup_empty. cbn [default from_option id Teardown.py_contains
                                existsb Teardown.resolved_target].
    rewrite (teardown_run_commands _ _ _ Hstart).
    cbn [files dirs events].
    rewrite Hf, bool_decide_is_Some_None, (bool_decide_eq_false_2 _ Hd).
    reflexivity.
  - intros f Hf (p & st & Hp & Hst & Hin).
    unfold Teardown.teardown_user, mbind, script_bind, path_exists, read_file,
      lift.
    rewrite Hf, bool_decide_is_Some. cbn [orb]. rewrite Hf, Hp, Hst, Hin.
    unfold Teardown.resolved_target.
    rewrite (teardown_run_commands _ _ _ Hstart).
    cbn [files dirs events]. rewrite Hf, bool_decide_is_Some. cbn [orb].
    unfold unlink. cbn [files dirs events]. rewrite Hf.
    by rewrite <- !app_assoc.
Qed.

Lemma spawned_map_spawn cmds : spawned (map EvSpawn cmds) = cmds.
Proof.
  induction cmds as [|cmd cmds IH]; [done|].
  change (spawned (map EvSpawn (cmd :: cmds)))
    with (cmd :: spawned (map EvSpawn cmds)).
  by rewrite IH.
Qed.

(** The three commands can be started.  Then, for a user with nothing at
    the path of the LaunchAgent, or with a LaunchAgent file that does not
    declare the login-window session type, the teardown ends normally; the [launchctl] commands it
    starts are kill, bootout and disable for the service target computed
    from the domain, in this order; and it leaves no file at the path of
    the LaunchAgent of the user. *)
Theorem teardown_own_target h args user m :
  Forall (starts h) (teardown_commands (Teardown.service_target user)) →
  (files m !! Teardown.launch_agent_file user = None
   ∧ (Teardown.launch_agent_file user ∉ dirs m))
  ∨ (∃ f, files m !! Teardown.launch_agent_file user = Some f
          ∧ declares_other h f) →
  (Teardown.teardown_user h args user m).2 = Ok tt
  ∧ spawned (new_events m (Teardown.teardown_user h args user m).1)
    = teardown_commands (Teardown.service_target user)
  ∧ files (Teardown.teardown_user h args user m).1
    !! Teardown.launch_agent_file user = None.
Proof.
  intros Hstart Hcase.
  destruct (teardown_user_own_target h args user m Hstart) as [Habsent Hother].
  destruct Hcase as [[Hf Hd]|(f & Hf & Hdecl)].
  - rewrite (Habsent Hf Hd). cbn [fst snd files]. split; [done|].
    split; [|done].
    erewrite new_events_app by reflexivity. apply spawned_map_spawn.
  - rewrite (Hother f Hf Hdecl). cbn [fst snd files]. split; [done|].
    split; [|apply lookup_delete_eq].
    erewrite new_events_app by reflexivity. apply spawned_commands.
Qed.

Lemma teardown_own_target_witness :
  ((Teardown.teardown_user host_aqua arguments_gui target_user
      machine_fresh).2 = Ok tt
   ∧ spawned (new_events machine_fresh
                (Teardown.teardown_user host_aqua arguments_gui target_user
                   machine_fresh).1)
     = teardown_commands "gui/501/com.example.agent"
   ∧ files (Teardown.teardown_user host_aqua arguments_gui target_user
              machine_fresh).1
     !! "/Users/ann/Library/LaunchAgents/com.example.agent.plist" = None)
  ∧ ((Teardown.teardown_user host_aqua arguments_gui target_user
        machine_user_agent).2 = Ok tt
     ∧ spawned (new_events machine_user_agent
                  (Teardown.teardown_user host_aqua arguments_gui target_user
                     machine_user_agent).1)
       = teardown_commands "gui/501/com.example.agent"
     ∧ files (Teardown.teardown_user host_aqua arguments_gui target_user
                machine_user_agent).1
       !! "/Users/ann/Library/LaunchAgents/com.example.agent.plist" = None).
Proof.
  assert (Forall (starts host_aqua)
            (teardown_commands (Teardown.service_target target_user)))
    as Hstart.
  { repeat constructor; intros e; discriminate. }
  split.
  - apply (teardown_own_target host_aqua arguments_gui target_user
             machine_fresh Hstart).
    left. split; [reflexivity|].
    apply (bool_decide_unpack _). vm_compute. exact I.
  - apply (teardown_own_target host_aqua arguments_gui target_user
             machine_user_agent Hstart).
    right.
    exists {| f_data := "<plist/>"; f_uid := 501; f_gid := 20;
              f_mode := octal 6 4 4 |}.
    split; [vm_compute; reflexivity|].
    exists (PDict {[ "LimitLoadToSessionType" := PStr "Aqua" ]}),
      (PStr "Aqua").
    repeat split; vm_compute; reflexivity.
Defined.

(** If reading the LaunchAgent file, or looking for the session type in
    it, raises, the teardown of the user ends with that exception: no
    command is run and the file stays.  With the domain [system], [main]
    ends so. *)
Theorem teardown_descriptor_error h args user m f e :
  files m !! Teardown.launch_agent_file user = Some f →
  descriptor_fails h f e →
  Teardown.teardown_user h args user m = (m, Raise e)
  ∧ (PyStr.lower_bytes (Teardown.agent_domain args) = "system" →
     (∃ root_user, local_user_root h = Ok root_user) →
     Teardown.launch_agent_file user
     = Path.join "/Library/LaunchAgents"
                 (Teardown.agent_name args +:+ ".plist") →
     Teardown.main h args m = (m, Raise e)).
Proof.
  intros Hf Hfail.
  assert (∀ user', Teardown.launch_agent_file user'
                   = Teardown.launch_agent_file user →
            Teardown.teardown_user h args user' m = (m, Raise e)) as Huser.
  { intros user' Hfile.
    unfold Teardown.teardown_user, mbind, script_bind, path_exists, read_file,
      lift.
    rewrite Hfile, Hf, bool_decide_is_Some. cbn [orb]. rewrite Hf.
    destruct Hfail as [Hp|[(p & Hp & Hst)|(p & st & Hp & Hst & Hin)]].
    - by rewrite Hp.
    - by rewrite Hp, Hst.
    - by rewrite Hp, Hst, Hin. }
  split; [by apply Huser|].
  intros Hdom [root_user Hroot] Hfile.
  unfold Teardown.main, Teardown.build_targets.
  rewrite Hdom, Hroot.
  change (String.eqb "system" "system") with true. cbv iota.
  unfold mbind at 1. unfold script_bind, lift.
  cbn [mbind outcome_bind mret outcome_ret].
  rewrite for_each_cons, Huser; [done|]. by rewrite Hfile.
Qed.

Lemma teardown_descriptor_error_witness :
  Teardown.main host_corrupt arguments_system machine_installed
  = (machine_installed, Raise ExpatError).
Proof.
  apply (teardown_descriptor_error host_corrupt arguments_system
           {| Teardown.domain_target := "system";
              Teardown.service_target :=
                "system/com.github.primalcurve.jamf_login_log";
              Teardown.launch_agent_file :=
                "/Library/LaunchAgents/com.github.primalcurve.jamf_login_log.plist" |}
           machine_installed
           {| f_data := plist_document; f_uid := 0; f_gid := 0;
              f_mode := octal 7 5 5 |} ExpatError).
  - vm_compute. reflexivity.
  - left. reflexivity.
  - reflexivity.
  - by exists ∅.
  - vm_compute. reflexivity.
Defined.

Lemma subprocess_imported :
  global_name Teardown.imports "subprocess" = mret tt.
Proof. reflexivity. Qed.

(** A command that cannot be started ends the teardown. *)
Lemma teardown_command_fails h cmd m e :
  spawn h cmd = Raise e →
  e ≠ CalledProcessError →
  try_script (run_command h cmd;; mret tt)
     (global_name Teardown.imports "subprocess";; mret CalledProcessError)
     (mret tt) m
  = ({| files := files m; dirs := dirs m;
        events := events m ++ [EvSpawn cmd] |}, Raise e).
Proof.
  intros Hsp Hne. unfold try_script, mbind, script_bind, run_command.
  rewrite Hsp, subprocess_imported.
  cbn [mret script_ret]. by destruct (decide (e = CalledProcessError)).
Qed.

Lemma for_each_commands_stop h pre cmd post e m :
  Forall (starts h) pre →
  spawn h cmd = Raise e →
  e ≠ CalledProcessError →
  for_each (pre ++ cmd :: post) (λ cmd,
     try_script (run_command h cmd;; mret tt)
       (global_name Teardown.imports "subprocess";; mret CalledProcessError)
       (mret tt)) m
  = ({| files := files m; dirs := dirs m;
        events := events m ++ map EvSpawn (pre ++ [cmd]) |}, Raise e).
Proof.
  intros Hpre Hsp Hne. revert m.
  induction Hpre as [|c pre Hc _ IH]; intros m.
  - cbn [app]. rewrite for_each_cons.
    by rewrite (teardown_command_fails h cmd m e Hsp Hne).
  - cbn [app]. rewrite for_each_cons, (teardown_command h c m Hc), IH.
    cbn [files dirs events map]. by rewrite <- app_assoc.
Qed.

(** The commands are run in order until one cannot be started with an
    exception other than [CalledProcessError] ([OSError] when the
    executable is missing): that exception ends the teardown of the user,
    the later commands are not run and the LaunchAgent file is not
    removed. *)
Theorem teardown_stops_at_failed_start h args user m f p session_types
    in_loginwindow pre cmd post e :
  files m !! Teardown.launch_agent_file user = Some f →
  readPlist h (f_data f) = Ok p →
  py_get p "LimitLoadToSessionType" (PList []) = Ok session_types →
  Teardown.py_contains "LoginWindow" session_types = Ok in_loginwindow →
  teardown_commands (Teardown.resolved_target args user in_loginwindow)
  = pre ++ cmd :: post →
  Forall (starts h) pre →
  spawn h cmd = Raise e →
  e ≠ CalledProcessError →
  Teardown.teardown_user h args user m
  = ({| files := files m; dirs := dirs m;
        events := events m ++ map EvSpawn (pre ++ [cmd]) |}, Raise e).
Proof.
  intros Hf Hp Hst Hin Hcmds Hpre Hsp Hne.
  unfold Teardown.teardown_user, mbind, script_bind, path_exists, read_file,
    lift.
  rewrite Hf, bool_decide_is_Some. cbn [orb]. rewrite Hf, Hp, Hst, Hin.
  unfold Teardown.run_commands.
  change (Teardown.cmd_list
            (Teardown.resolved_target args user in_loginwindow))
    with (teardown_commands
            (Teardown.resolved_target args user in_loginwindow)).
  rewrite Hcmds.
  by rewrite (for_each_commands_stop h pre cmd post e m Hpre Hsp Hne).
Qed.

Lemma teardown_stops_at_failed_start_witness :
  Teardown.teardown_user
    {| pw_root := (0, 0); new_file := (0, 0, 0);
       readPlist := readPlist host_aqua; writePlist := λ _, "";
       spawn := spawn host_corrupt;
       local_user_root := Ok ∅; mobile_users := Ok [] |}
    arguments_gui target_user machine_user_agent
  = ({| files := files machine_user_agent;
        dirs := dirs machine_user_agent;
        events := [EvSpawn ["/bin/launchctl"; "kill"; "-15";
                            "gui/501/com.example.agent"]] |},
     Raise OSError).
Proof.
  apply (teardown_stops_at_failed_start _ arguments_gui target_user
           machine_user_agent
           {| f_data := "<plist/>"; f_uid := 501; f_gid := 20;
              f_mode := octal 6 4 4 |}
           (PDict {[ "LimitLoadToSessionType" := PStr "Aqua" ]})
           (PStr "Aqua") false []
           ["/bin/launchctl"; "kill"; "-15"; "gui/501/com.example.agent"]
           [ ["/bin/launchctl"; "bootout"; "gui/501/com.example.agent"];
             ["/bin/launchctl"; "disable"; "gui/501/com.example.agent"] ]
           OSError).
  - vm_compute. reflexivity.
  - reflexivity.
  - vm_compute. reflexivity.
  - vm_compute. reflexivity.
  - reflexivity.
  - constructor.
  - reflexivity.
  - discriminate.
Defined.

(** ** [main] outside the domain [system] *)

(** With a domain other than [system], [main] builds the targets of all
    the accounts before the loop.  If one account has an integer as
    [unique_id], [main] ends there, with [TypeError] or [AttributeError]
    ([TypeError] if it is the first account), and has started no
    [launchctl] command. *)
Theorem main_integer_unique_id h args m users :
  PyStr.lower_bytes (Teardown.agent_domain args) ≠ "system" →
  mobile_users h = Ok users →
  Exists integer_unique_id users →
  (∃ e, (Teardown.main h args m).2 = Raise e
        ∧ (e = TypeError ∨ e = AttributeError))
  ∧ spawned (new_events m (Teardown.main h args m).1) = []
  ∧ (∀ user rest, users = user :: rest → integer_unique_id user →
       (Teardown.main h args m).2 = Raise TypeError).
Proof.
  intros Hdom Hmob Hex.
  assert (Teardown.build_targets h args = Teardown.user_targets args users)
    as Hbuild.
  { unfold Teardown.build_targets.
    by rewrite (proj2 (String.eqb_neq _ _) Hdom), Hmob. }
  destruct (user_targets_integer_unique_id args users Hex) as (e & He & Hcase).
  rewrite (main_build_error h args m e) by (by rewrite Hbuild).
  cbn [fst snd]. split; [by exists e|].
  split; [by rewrite new_events_same|].
  intros user rest -> Hint. f_equal.
  cbn [Teardown.user_targets] in He.
  rewrite (user_target_integer_unique_id args user Hint) in He.
  by injection He.
Qed.

Lemma main_integer_unique_id_witness :
  (∃ e, (Teardown.main host_mobile arguments_gui machine_user_agent).2
        = Raise e
        ∧ (e = TypeError ∨ e = AttributeError))
  ∧ spawned (new_events machine_user_agent
               (Teardown.main host_mobile arguments_gui
                              machine_user_agent).1) = []
  ∧ (Teardown.main host_mobile arguments_gui machine_user_agent).2
    = Raise TypeError.
Proof.
  destruct (main_integer_unique_id host_mobile arguments_gui
              machine_user_agent
              [ {[ "unique_id" := PInt 501;
                   "nfs_home_directory" := PStr "/Users/ann" ]} ])
    as (H1 & H2 & H3).
  - vm_compute. discriminate.
  - reflexivity.
  - apply Exists_cons_hd. exists 501. vm_compute. reflexivity.
  - split; [exact H1|]. split; [exact H2|].
    apply (H3 _ [] eq_refl). exists 501. vm_compute. reflexivity.
Defined.

(** ** The installer: errors and what it may do *)

(** A LaunchAgent file that [plistlib] cannot read, or a directory in its
    place, ends the run with the exception of the read, before anything
    is written. *)
Theorem installer_unreadable_launch_agent h log_script m :
  (∀ f e, files m !! Installer.launch_agent_file = Some f →
          readPlist h (f_data f) = Raise e →
          Installer.run h log_script m = (m, Raise e))
  ∧ (files m !! Installer.launch_agent_file = None →
     Installer.launch_agent_file ∈ dirs m →
     Installer.run h log_script m = (m, Raise IOError)).
Proof.
  split.
  - intros f e Hf He.
    unfold Installer.run, Installer.reconcile_launch_agent, mbind,
      script_bind, path_exists, read_file, lift.
    rewrite Hf, bool_decide_is_Some. cbn [orb]. by rewrite Hf, He.
  - intros Hf Hd.
    unfold Installer.run, Installer.reconcile_launch_agent, mbind,
      script_bind, path_exists, read_file, lift.
    rewrite Hf, (bool_decide_eq_true_2 _ Hd), orb_true_r. by rewrite Hf.
Qed.

Lemma installer_unreadable_launch_agent_witness :
  Installer.run host_corrupt script_sample machine_installed
  = (machine_installed, Raise ExpatError).
Proof.
  destruct (installer_unreadable_launch_agent host_corrupt script_sample
              machine_installed) as [H _].
  apply (H {| f_data := plist_document; f_uid := 0; f_gid := 0;
              f_mode := octal 7 5 5 |}).
  - vm_compute. reflexivity.
  - reflexivity.
Defined.

(** No run of the installer ends normally: the exit of line 730 is never
    reached. *)
Theorem installer_never_ends_normally h log_script m :
  ∃ e, (Installer.run h log_script m).2 = Raise e.
Proof.
  unfold Installer.run, mbind, script_bind.
  destruct (Installer.reconcile_launch_agent h m) as [ma [[]|e]];
    [|by exists e].
  destruct (Installer.reconcile_log_script h log_script ma) as [m1 [[]|e]];
    [|by exists e].
  rewrite activate_raises. by exists NameError.
Qed.

Section emits_only.

Context {A B : Type}.
Variable allowed : event → bool.

Lemma emits_mret (a : A) : emits_only allowed (mret a : script A).
Proof. intros m. exists []. by rewrite app_nil_r. Qed.

Lemma emits_raise (e : exn) : emits_only allowed (raise e : script A).
Proof. intros m. exists []. by rewrite app_nil_r. Qed.

Lemma emits_lift (o : outcome A) : emits_only allowed (lift o).
Proof. intros m. exists []. by rewrite app_nil_r. Qed.

Lemma emits_bind (c : script A) (k : A → script B) :
  emits_only allowed c → (∀ a, emits_only allowed (k a)) →
  emits_only allowed (c ≫= k).
Proof.
  intros Hc Hk m. destruct (Hc m) as (evs1 & He1 & Ha1).
  unfold mbind, script_bind. destruct (c m) as [m' [a|e]]; simpl in *.
  - destruct (Hk a m') as (evs2 & He2 & Ha2).
    exists (evs1 ++ evs2). rewrite He2, He1, <- app_assoc.
    split; [done|]. rewrite forallb_app. by rewrite Ha1, Ha2.
  - by exists evs1.
Qed.

Lemma emits_if (b : bool) (c1 c2 : script A) :
  emits_only allowed c1 → emits_only allowed c2 →
  emits_only allowed (if b then c1 else c2).
Proof. by destruct b. Qed.

End emits_only.

Section emits_primitives.

Variable allowed : event → bool.

Lemma emits_emit ev : allowed ev = true → emits_only allowed (emit ev).
Proof. intros Hev m. exists [ev]. simpl. by rewrite Hev. Qed.

Lemma emits_path_exists path : emits_only allowed (path_exists path).
Proof. intros m. exists []. by rewrite app_nil_r. Qed.

Lemma emits_read_file path : emits_only allowed (read_file path).
Proof.
  intros m. exists []. rewrite app_nil_r. unfold read_file.
  by destruct (files m !! path).
Qed.

Lemma emits_write_file h path data :
  allowed (EvWrite path data) = true →
  emits_only allowed (write_file h path data).
Proof.
  intros Hev m. unfold write_file. destruct (_ || _).
  - exists []. by rewrite app_nil_r.
  - exists [EvWrite path data]. simpl. by rewrite Hev.
Qed.

Lemma emits_lchown path uid gid :
  allowed (EvChown path uid gid) = true →
  emits_only allowed (lchown path uid gid).
Proof.
  intros Hev m. unfold lchown.
  destruct (files m !! path); [|destruct (bool_decide _)].
  - exists [EvChown path uid gid]. simpl. by rewrite Hev.
  - exists [EvChown path uid gid]. simpl. by rewrite Hev.
  - exists []. by rewrite app_nil_r.
Qed.

Lemma emits_chmod path mode :
  allowed (EvChmod path mode) = true →
  emits_only allowed (chmod path mode).
Proof.
  intros Hev m. unfold chmod.
  destruct (files m !! path); [|destruct (bool_decide _)].
  - exists [EvChmod path mode]. simpl. by rewrite Hev.
  - exists [EvChmod path mode]. simpl. by rewrite Hev.
  - exists []. by rewrite app_nil_r.
Qed.

Lemma emits_makedirs path mode :
  allowed (EvMakedirs path mode) = true →
  emits_only allowed (makedirs path mode).
Proof.
  intros Hev m. unfold makedirs. destruct (_ || _).
  - exists []. by rewrite app_nil_r.
  - exists [EvMakedirs path mode]. simpl. by rewrite Hev.
Qed.

End emits_primitives.

Lemma installer_event_chown h path :
  path = Installer.launch_agent_file ∨ path = Installer.log_script_file →
  installer_event h (EvChown path (Installer.uid h) (Installer.gid h)) = true.
Proof.
  intros Hpath. cbn [installer_event]. rewrite !Z.eqb_refl, !andb_true_r.
  destruct Hpath as [-> | ->]; vm_compute; reflexivity.
Qed.

Ltac emits_tac :=
  repeat first
    [ apply emits_bind; [|intros ?]
    | apply emits_if
    | apply emits_mret | apply emits_raise | apply emits_lift
    | apply emits_path_exists | apply emits_read_file
    | apply emits_emit; reflexivity
    | apply emits_write_file; vm_compute; reflexivity
    | apply emits_chmod; vm_compute; reflexivity
    | apply emits_makedirs; vm_compute; reflexivity
    | apply emits_lchown; apply installer_event_chown; auto ].

(** All a run of the installer does to the machine is print, write the
    LaunchAgent file and the script file, give them to root, set the mode
    of the LaunchAgent file to 0644 or 0755, and make the directory of the
    script with the mode 0700.  It never sets the mode of the script file,
    never removes a file and never runs a command. *)
Theorem installer_events h log_script m :
  ∃ evs,
    events (Installer.run h log_script m).1 = events m ++ evs
    ∧ forallb (installer_event h) evs = true.
Proof.
  assert (emits_only (installer_event h) (Installer.run h log_script))
    as H; [|apply H].
  unfold Installer.run.
  apply emits_bind; [|intros _; apply emits_bind; [|intros _]].
  - unfold Installer.reconcile_launch_agent, print. emits_tac.
  - unfold Installer.reconcile_log_script, Installer.write_log_script, print.
    emits_tac.
  - intros m'. exists []. rewrite activate_raises. by rewrite app_nil_r.
Qed.

(** ** The installer: what its two steps leave *)

Lemma script_step_content h log_script m fl m' :
  files m !! Installer.launch_agent_file = Some fl →
  Installer.reconcile_log_script h log_script m = (m', Ok tt) →
  ∃ fs fl',
    files m' !! Installer.log_script_file = Some fs
    ∧ f_data fs = log_script
    ∧ files m' !! Installer.launch_agent_file = Some fl'
    ∧ f_data fl' = f_data fl.
Proof.
  intros Hfl Hstep.
  assert (match files m !! Installer.log_script_file with
          | Some f => f_data f ≠ log_script
          | None => Installer.log_script_file ∉ dirs m
          end →
          ∃ fs fl',
            files m' !! Installer.log_script_file = Some fs
            ∧ f_data fs = log_script
            ∧ files m' !! Installer.launch_agent_file = Some fl'
            ∧ f_data fl' = f_data fl) as Hrew.
  { intros Hdiff.
    destruct (script_rewritten h log_script m Hdiff) as [text Heq].
    rewrite Heq in Hstep.
    set (mp := {| files := files m |}) in Hstep.
    destruct (decide (blocked mp)) as [Hb|Hnb].
    - destruct (write_log_script_blocked h log_script mp Hb)
        as (m2 & evs & Hw & _). congruence.
    - destruct (write_log_script_done h log_script mp fl Hnb Hfl)
        as (m2 & evs & fs & Hw & Hfs & Hdata & Hlaf & _).
      rewrite Hw in Hstep. injection Hstep as <-.
      by eexists fs, _. }
  destruct (files m !! Installer.log_script_file) as [f|] eqn:Hf.
  - destruct (decide (f_data f = log_script)) as [Hdata|]; [|by apply Hrew].
    rewrite (script_kept h log_script m f Hf Hdata) in Hstep.
    injection Hstep as <-. by exists f, fl.
  - destruct (decide (Installer.log_script_file ∈ dirs m)) as [Hd|];
      [|by apply Hrew].
    rewrite (script_unreadable h log_script m Hf Hd) in Hstep. congruence.
Qed.

Lemma bind_Ok_inv {A B} (c : script A) (k : A → script B) m m' b :
  (c ≫= k) m = (m', Ok b) →
  ∃ a m1, c m = (m1, Ok a) ∧ k a m1 = (m', Ok b).
Proof.
  unfold mbind, script_bind. destruct (c m) as [m1 [a|e]]; [|done].
  intros H. by exists a, m1.
Qed.

Lemma write_file_Ok h path data m m' :
  write_file h path data m = (m', Ok tt) →
  ∃ f, files m' !! path = Some f ∧ f_data f = data.
Proof.
  unfold write_file. destruct (_ || _); [done|]. intros [= <-].
  cbn [files]. rewrite lookup_insert_eq. eexists. split; [done|].
  by destruct (files m !! path).
Qed.

Lemma lchown_data path uid gid m m' q :
  lchown path uid gid m = (m', Ok tt) →
  f_data <$> files m' !! q = f_data <$> files m !! q.
Proof.
  unfold lchown. destruct (files m !! path) as [f|] eqn:Hf.
  - intros [= <-]. cbn [files].
    destruct (decide (path = q)) as [<-|Hne].
    + by rewrite lookup_insert_eq, Hf.
    + by rewrite lookup_insert_ne.
  - destruct (bool_decide _); [|done]. by intros [= <-].
Qed.

Lemma chmod_data path mode m m' q :
  chmod path mode m = (m', Ok tt) →
  f_data <$> files m' !! q = f_data <$> files m !! q.
Proof.
  unfold chmod. destruct (files m !! path) as [f|] eqn:Hf.
  - intros [= <-]. cbn [files].
    destruct (decide (path = q)) as [<-|Hne].
    + by rewrite lookup_insert_eq, Hf.
    + by rewrite lookup_insert_ne.
  - destruct (bool_decide _); [|done]. by intros [= <-].
Qed.

Lemma launch_agent_step_current h m ma :
  Installer.reconcile_launch_agent h m = (ma, Ok tt) →
  launch_agent_current h ma.
Proof.
  unfold Installer.reconcile_launch_agent. intros H.
  apply bind_Ok_inv in H as (ex & m1 & Hex & H).
  apply bind_Ok_inv in H as (existing & m2 & Hread & H).
  assert (m1 = m) as -> by (by injection Hex).
  assert (files m2 = files m
          ∧ ∀ p, existing = Some p →
                 ∃ f, files m !! Installer.launch_agent_file = Some f
                      ∧ readPlist h (f_data f) = Ok p) as [Hfiles Hex'].
  { destruct ex.
    - apply bind_Ok_inv in Hread as (data & m3 & Hdata & Hread).
      apply bind_Ok_inv in Hread as (p & m4 & Hp & Hread).
      apply bind_Ok_inv in Hread as ([] & m5 & Hpr & Hread).
      injection Hread as <- <-. injection Hpr as <-.
      unfold lift in Hp. injection Hp as <- Hp.
      unfold read_file in Hdata.
      destruct (files m !! Installer.launch_agent_file) as [f|]; [|done].
      injection Hdata as <- <-. split; [done|].
      intros p' [= <-]. by exists f.
    - apply bind_Ok_inv in Hread as ([] & m3 & Hpr & Hread).
      injection Hread as <- <-. injection Hpr as <-. by split. }
  destruct (Installer.differs existing Installer.launch_agent_dict) eqn:Hd.
  - apply bind_Ok_inv in H as ([] & m3 & _ & H).
    apply bind_Ok_inv in H as ([] & m4 & Hw & H).
    apply bind_Ok_inv in H as ([] & m5 & Hown & Hmod).
    apply write_file_Ok in Hw as (f & Hf & Hdata).
    pose proof (lchown_data _ _ _ _ _ Installer.launch_agent_file Hown) as E1.
    pose proof (chmod_data _ _ _ _ Installer.launch_agent_file Hmod) as E2.
    rewrite E1, Hf in E2. cbn in E2.
    destruct (files ma !! Installer.launch_agent_file) as [f'|] eqn:Hma;
      [|done].
    injection E2 as E2. exists f'. split; [done|]. left. congruence.
  - destruct existing as [p|]; [|done]. cbn in Hd.
    apply negb_false_iff in Hd.
    destruct (Hex' p eq_refl) as (f & Hf & Hp).
    injection H as <-. exists f. cbn [files]. rewrite Hfiles.
    split; [done|]. right. eauto.
Qed.

(** If the step of the LaunchAgent and the step of the script both end
    without exception, the LaunchAgent file holds the desired plist and
    the script file holds the text of the script. *)
Theorem installed_after_steps h log_script m ma m1 :
  Installer.reconcile_launch_agent h m = (ma, Ok tt) →
  Installer.reconcile_log_script h log_script ma = (m1, Ok tt) →
  launch_agent_current h m1
  ∧ ∃ fs, files m1 !! Installer.log_script_file = Some fs
          ∧ f_data fs = log_script.
Proof.
  intros H1 H2.
  destruct (launch_agent_step_current h m ma H1) as (fl & Hfl & Hcur).
  destruct (script_step_content h log_script ma fl m1 Hfl H2)
    as (fs & fl' & Hfs & Hdata & Hfl' & Hdata').
  split; [|by exists fs].
  exists fl'. split; [done|]. by rewrite Hdata'.
Qed.

Lemma installed_after_steps_witness :
  launch_agent_current host_sample machine_installed
  ∧ ∃ fs, files machine_installed !! Installer.log_script_file = Some fs
          ∧ f_data fs = script_sample.
Proof.
  apply (installed_after_steps host_sample script_sample machine_fresh
           (Installer.reconcile_launch_agent host_sample machine_fresh).1
           machine_installed).
  - vm_compute. reflexivity.
  - vm_compute. reflexivity.
Defined.

Lemma script_step_done h log_script m fl :
  ¬ blocked m →
  files m !! Installer.launch_agent_file = Some fl →
  ∃ m' fs fl',
    Installer.reconcile_log_script h log_script m = (m', Ok tt)
    ∧ files m' !! Installer.log_script_file = Some fs
    ∧ f_data fs = log_script
    ∧ files m' !! Installer.launch_agent_file = Some fl'
    ∧ f_data fl' = f_data fl.
Proof.
  intros Hnb Hfl.
  assert (match files m !! Installer.log_script_file with
          | Some f => f_data f ≠ log_script
          | None => Installer.log_script_file ∉ dirs m
          end →
          ∃ m' fs fl',
            Installer.reconcile_log_script h log_script m = (m', Ok tt)
            ∧ files m' !! Installer.log_script_file = Some fs
            ∧ f_data fs = log_script
            ∧ files m' !! Installer.launch_agent_file = Some fl'
            ∧ f_data fl' = f_data fl) as Hrew.
  { intros Hdiff.
    destruct (script_rewritten h log_script m Hdiff) as [text ->].
    destruct (write_log_script_done h log_script
                {| files := files m; dirs := dirs m;
                   events := events m ++ [EvPrint text] |} fl Hnb Hfl)
      as (m2 & evs & fs & -> & Hfs & Hdata & Hlaf & _).
    by eexists m2, fs, _. }
  destruct (files m !! Installer.log_script_file) as [f|] eqn:Hf.
  - destruct (decide (f_data f = log_script)) as [Hdata|]; [|by apply Hrew].
    rewrite (script_kept h log_script m f Hf Hdata).
    by eexists _, f, fl.
  - apply Hrew. intros Hd. apply Hnb. by left.
Qed.

(** The LaunchAgent file is absent or not the desired one, the directory
    of the LaunchAgents is there, [plistlib] reads back what it writes,
    and nothing stands in the way of the script file.  Then a second run,
    from the machine the first one left, only prints: files and
    directories are those the first run left. *)
Theorem second_run_changes_nothing h log_script m :
  Path.dirname Installer.launch_agent_file ∈ dirs m →
  Installer.launch_agent_file ∉ dirs m →
  launch_agent_stale h m →
  plist_round_trip h →
  ¬ blocked m →
  let m1 := (Installer.run h log_script m).1 in
  let m2 := (Installer.run h log_script m1).1 in
  files m2 = files m1
  ∧ dirs m2 = dirs m1
  ∧ new_events m1 m2
    = [EvPrint "LaunchAgent already exists. Checking it against master LD.";
       EvPrint "Existing LaunchAgent matches master. Continuing.";
       EvPrint "Script exists. Checking its contents against master script.";
       EvPrint "Script file matches master. No need to update. Exiting."].
Proof.
  intros Hdir Hnd Hstale (p & Hp & Heq) Hnb m1 m2.
  destruct (launch_agent_written h m Hdir Hnd Hstale) as [text Hstep1].
  set (ma := {| files := _ |}) in Hstep1.
  assert (¬ blocked ma) as Hnba.
  { unfold blocked, ma. cbn [files dirs].
    rewrite lookup_insert_ne; [done|].
    apply (bool_decide_unpack _). vm_compute. exact I. }
  assert (files ma !! Installer.launch_agent_file
          = Some {| f_data := writePlist h Installer.launch_agent_dict;
                    f_uid := Installer.uid h; f_gid := Installer.gid h;
                    f_mode := octal 6 4 4 |}) as Hlaf_a.
  { apply lookup_insert_eq. }
  destruct (script_step_done h log_script ma _ Hnba Hlaf_a)
    as (m1' & fs & fl1 & Hstep2 & Hfs & Hdata & Hlaf1 & Hdata1).
  assert (m1 = m1') as Hm1.
  { unfold m1. rewrite (run_state h log_script m ma Hstep1).
    by rewrite Hstep2. }
  clearbody m1. subst m1'.
  cbn [f_data] in Hdata1.
  assert (readPlist h (f_data fl1) = Ok p) as Hp1 by (by rewrite Hdata1).
  pose proof (launch_agent_kept h m1 fl1 p Hlaf1 Hp1 Heq) as Hstep1'.
  set (mb := {| files := files m1 |}) in Hstep1'.
  pose proof (script_kept h log_script mb fs Hfs Hdata) as Hstep2'.
  assert (m2 = (Installer.reconcile_log_script h log_script mb).1) as ->.
  { unfold m2. by rewrite (run_state h log_script m1 mb Hstep1'). }
  rewrite Hstep2'. cbn [fst files dirs].
  split; [done|]. split; [done|].
  apply new_events_app. cbn [events mb]. by rewrite <- app_assoc.
Qed.

Lemma second_run_changes_nothing_witness :
  let m2 := (Installer.run host_sample script_sample machine_installed).1 in
  files m2 = files machine_installed
  ∧ dirs m2 = dirs machine_installed
  ∧ new_events machine_installed m2
    = [EvPrint "LaunchAgent already exists. Checking it against master LD.";
       EvPrint "Existing LaunchAgent matches master. Continuing.";
       EvPrint "Script exists. Checking its contents against master script.";
       EvPrint "Script file matches master. No need to update. Exiting."].
Proof.
  apply (second_run_changes_nothing host_sample script_sample machine_fresh).
  - apply (bool_decide_unpack _). vm_compute. exact I.
  - apply (bool_decide_unpack _). vm_compute. exact I.
  - exact I.
  - exists Installer.launch_agent_dict. split; vm_compute; reflexivity.
  - apply (bool_decide_unpack _). vm_compute. exact I.
Defined.

(** ** The markup parser: shape of the result *)

Lemma startswith_app s p :
  PyStr.startswith s p = true → s = p +:+ PyStr.drop (String.length p) s.
Proof.
  revert s. induction p as [|a p IH]; intros s; [done|].
  destruct s as [|b s]; [done|]. cbn [PyStr.startswith].
  destruct (Ascii.eqb_spec a b) as [->|]; [|done].
  intros H.
  change (String b s = String b (p +:+ PyStr.drop (String.length p) s)).
  f_equal. by apply IH.
Qed.

Lemma contains_char_cons c x s :
  PyStr.contains (String c EmptyString) (String x s)
  = if Ascii.eqb c x then true
    else PyStr.contains (String c EmptyString) s.
Proof. cbn. by destruct (Ascii.eqb c x). Qed.

(** [partition] at the first separator: the text before it holds none. *)
Lemma partition_found sep s :
  PyStr.contains (String sep EmptyString) s = true →
  ∃ a b, PyStr.partition sep s = (a, String sep EmptyString, b)
         ∧ s = a +:+ String sep b
         ∧ PyStr.contains (String sep EmptyString) a = false.
Proof.
  induction s as [|x s IH]; [done|].
  rewrite contains_char_cons. cbn [PyStr.partition].
  rewrite (Ascii.eqb_sym x sep).
  destruct (Ascii.eqb_spec sep x) as [->|Hne].
  - intros _. by exists EmptyString, s.
  - intros Hs. destruct (IH Hs) as (a & b & -> & -> & Ha).
    exists (String x a), b. split; [done|]. split; [done|].
    rewrite contains_char_cons.
    by destruct (Ascii.eqb_spec sep x).
Qed.

(** The text [parseLineAttr_] returns is the line itself, with black, when
    the line does not start with [%{] or holds no closing brace; else the
    line is [%{], attributes without a closing brace, the brace, and the
    text returned: the directive ends at the first brace and what follows
    is returned unchanged. *)
Theorem parseLineAttr_shape line :
  (parseLineAttr_ line = (line, blackColor)
   ∧ (PyStr.startswith line "%{" = false
      ∨ PyStr.contains "}" line = false))
  ∨ (∃ attrs,
       line = "%{" +:+ attrs +:+ "}" +:+ (parseLineAttr_ line).1
       ∧ PyStr.contains "}" attrs = false).
Proof.
  unfold parseLineAttr_.
  destruct (PyStr.startswith line "%{") eqn:Hstart; [|left; auto].
  destruct (PyStr.contains "}" line) eqn:Hbrace; [|left; auto].
  right. cbn [andb].
  apply startswith_app in Hstart. cbn [String.length] in Hstart.
  assert (PyStr.contains "}" (PyStr.drop 2 line) = true) as Hrest.
  { rewrite Hstart in Hbrace. exact Hbrace. }
  destruct (partition_found _ _ Hrest) as (a & b & Hpart & Hsplit & Ha).
  rewrite Hpart. exists a. split; [|done].
  cbn [fst]. rewrite Hstart at 1. by rewrite Hsplit.
Qed.

Lemma nsColorForColor_not_white color :
  nsColorForColor_ color ≠ whiteColor.
Proof. unfold nsColorForColor_. repeat case_match; discriminate. Qed.

Lemma parse_attr_not_white color attr :
  color ≠ whiteColor → parse_attr color attr ≠ whiteColor.
Proof.
  intros Hc. unfold parse_attr.
  repeat case_match; auto using nsColorForColor_not_white.
Qed.

(** No line gets the white colour, whatever its directive: the value
    [white] gives light gray and an unknown value gives black. *)
Theorem parseLineAttr_never_white line :
  (parseLineAttr_ line).2 ≠ whiteColor.
Proof.
  unfold parseLineAttr_. destruct (_ && _); [|discriminate].
  destruct (PyStr.partition "}" (PyStr.drop 2 line)) as [[attrStr sep] rest].
  cbn [snd].
  generalize (map PyStr.strip (PyStr.split "," attrStr)).
  assert (blackColor ≠ whiteColor) as H by discriminate.
  revert H. generalize blackColor.
  intros c Hc attrs. revert c Hc.
  induction attrs as [|attr attrs IH]; intros c Hc; [done|].
  cbn [fold_left]. by apply IH, parse_attr_not_white.
Qed.

(** ** The line store: reading text without directives *)

Lemma lacks_cons c x t :
  lacks c (String x t) ↔ c ≠ x ∧ lacks c t.
Proof.
  unfold lacks. rewrite contains_char_cons.
  destruct (Ascii.eqb_spec c x) as [Heq|Hne].
  - split; [discriminate | by intros [Hne _]].
  - split; [by intros H | by intros [_ H]].
Qed.

Lemma lacks_app c t1 t2 :
  lacks c (t1 +:+ t2) ↔ lacks c t1 ∧ lacks c t2.
Proof.
  induction t1 as [|x t1 IH].
  - change (EmptyString +:+ t2) with t2.
    split; [by intros H | by intros [_ H]].
  - change (String x t1 +:+ t2) with (String x (t1 +:+ t2)).
    rewrite !lacks_cons, IH. tauto.
Qed.

Lemma append_empty_r t : t +:+ EmptyString = t.
Proof.
  induction t as [|c t IH]; [done|].
  change (String c (t +:+ EmptyString) = String c t). by rewrite IH.
Qed.

Lemma append_assoc t1 t2 t3 : (t1 +:+ t2) +:+ t3 = t1 +:+ (t2 +:+ t3).
Proof.
  induction t1 as [|c t1 IH]; [done|].
  change (String c ((t1 +:+ t2) +:+ t3) = String c (t1 +:+ (t2 +:+ t3))).
  by rewrite IH.
Qed.

Lemma parse_plain l : lacks "}" l → parseLineAttr_ l = (l, blackColor).
Proof.
  unfold lacks, parseLineAttr_. intros ->. by rewrite andb_false_r.
Qed.

Lemma put_ok s text isPartial : store_ok s → store_ok (put s text isPartial).
Proof.
  intros [Hlen Hne]. unfold put.
  destruct (last_line_is_partial s) eqn:Hflag.
  - specialize (Hne eq_refl).
    assert (log_file_color s ≠ []) as Hc.
    { intros Hc. rewrite Hc in Hlen. by destruct (log_file_data s). }
    split; cbn [log_file_data log_file_color last_line_is_partial].
    + by rewrite !removelast_snoc_length.
    + intros _. by destruct (removelast (log_file_data s)).
  - split; cbn [log_file_data log_file_color last_line_is_partial].
    + rewrite !length_app. simpl. lia.
    + intros _. by destruct (log_file_data s).
Qed.

Lemma put_plain s text isPartial :
  store_ok s → partial_plain s → lacks "}" text →
  partial_plain (put s text isPartial).
Proof.
  intros [_ Hne] Hplain Htext _ l. unfold put.
  destruct (last_line_is_partial s) eqn:Hflag;
    cbn [log_file_data]; rewrite last_snoc; intros [= <-]; [|done].
  destruct (proj2 (last_is_Some _) (Hne eq_refl)) as [l' Hl'].
  rewrite Hl'. cbn. apply lacks_app. split; [|done].
  by apply (Hplain Hflag).
Qed.

(** Two texts put one after the other make one line. *)
Lemma put_put s text1 text2 isPartial :
  put (put s text1 true) text2 isPartial
  = put s (text1 +:+ text2) isPartial.
Proof.
  unfold put. destruct (last_line_is_partial s) eqn:Hflag;
    cbn [last_line_is_partial log_file_data log_file_color];
    rewrite !removelast_last, last_snoc; cbn [default from_option id].
  - by rewrite append_assoc.
  - done.
Qed.

Lemma addLine_plain s text isPartial :
  store_ok s → partial_plain s → lacks "}" text →
  addLine_partial_ s text isPartial = (put s text isPartial, Ok tt).
Proof.
  intros [Hlen Hne] Hplain Htext. unfold addLine_partial_, put.
  destruct (last_line_is_partial s) eqn:Hflag.
  - destruct (proj2 (last_is_Some _) (Hne eq_refl)) as [l Hl].
    rewrite Hl. cbn [default from_option id].
    rewrite parse_plain
      by (apply lacks_app; split; [by apply (Hplain Hflag)|done]).
    destruct (log_file_color s) as [|c cs] eqn:Hc; [|done].
    destruct (log_file_data s); [done | discriminate].
  - by rewrite parse_plain.
Qed.

Lemma feed_app s text1 text2 :
  feed s (text1 +:+ text2) = feed (feed s text1) text2.
Proof.
  unfold feed. revert s. induction text1 as [|c text1 IH]; intros s; [done|].
  change (String c text1 +:+ text2) with (String c (text1 +:+ text2)).
  cbn [list_ascii_of_string fold_left]. apply IH.
Qed.

Lemma feed_one s c :
  PyStr.LF ≠ c →
  feed s (String c EmptyString) = put s (String c EmptyString) true.
Proof.
  intros Hc. unfold feed, feed_char. cbn.
  destruct (Ascii.eqb_spec c PyStr.LF); [congruence | done].
Qed.

(** Characters without a line feed go to one line. *)
Lemma feed_segment s c text :
  lacks PyStr.LF (String c text) →
  feed s (String c text) = put s (String c text) true.
Proof.
  revert s c. induction text as [|c' text IH]; intros s c.
  - intros [Hc _]%lacks_cons. by apply feed_one.
  - intros [Hc Ht]%lacks_cons.
    change (String c (String c' text))
      with (String c EmptyString +:+ String c' text).
    by rewrite feed_app, (IH _ c' Ht), feed_one, put_put.
Qed.

Lemma feed_line s text :
  lacks PyStr.LF text →
  feed s (text +:+ String PyStr.LF EmptyString) = put s text false.
Proof.
  intros Ht. rewrite feed_app. destruct text as [|c text].
  - done.
  - rewrite (feed_segment s c text Ht).
    change (feed ?s (String PyStr.LF EmptyString))
      with (put s EmptyString false).
    rewrite put_put. f_equal. apply append_empty_r.
Qed.

Lemma feed_char_ok s c : store_ok s → store_ok (feed_char s c).
Proof. intros Hs. unfold feed_char. destruct (Ascii.eqb _ _); by apply put_ok. Qed.

Lemma feed_char_plain s c :
  store_ok s → partial_plain s → "}"%char ≠ c → partial_plain (feed_char s c).
Proof.
  intros Hs Hp Hc. unfold feed_char.
  destruct (Ascii.eqb _ _); apply put_plain; try done.
  apply lacks_cons. by split.
Qed.

Lemma feed_ok s text :
  store_ok s → partial_plain s → lacks "}" text →
  store_ok (feed s text) ∧ partial_plain (feed s text).
Proof.
  unfold feed. revert s. induction text as [|c text IH]; intros s Hs Hp Ht.
  - by split.
  - apply lacks_cons in Ht as [Hc Ht]. cbn [list_ascii_of_string fold_left].
    apply IH; [by apply feed_char_ok | by apply feed_char_plain | done].
Qed.

Lemma snoc_cons cur c : ∃ x t, PyStr.snoc cur c = String x t.
Proof. destruct cur as [|x cur]; [by exists c, EmptyString|]. by eexists x, _. Qed.

Lemma lacks_snoc c cur x :
  lacks c (PyStr.snoc cur x) ↔ lacks c cur ∧ c ≠ x.
Proof.
  unfold PyStr.snoc. rewrite lacks_app, lacks_cons.
  split; [by intros (? & ? & _) | intros [? ?]; by repeat split].
Qed.

Lemma endswith_snoc cur c c' :
  PyStr.endswith_char (PyStr.snoc cur c) c' = Ascii.eqb c c'.
Proof.
  induction cur as [|x cur IH]; [done|].
  change (PyStr.snoc (String x cur) c) with (String x (PyStr.snoc cur c)).
  destruct (snoc_cons cur c) as (y & t & Heq). rewrite Heq in *.
  exact IH.
Qed.

Lemma endswith_lacks cur c :
  lacks c cur → PyStr.endswith_char cur c = false.
Proof.
  induction cur as [|x cur IH]; [done|]. intros [Hx Hcur]%lacks_cons.
  destruct cur as [|y cur].
  - cbn. destruct (Ascii.eqb_spec x c); [congruence | done].
  - by apply IH.
Qed.

Lemma rstrip_snoc cur c :
  lacks c cur → PyStr.rstrip_char c (PyStr.snoc cur c) = cur.
Proof.
  induction cur as [|x cur IH].
  - intros _. change (PyStr.snoc EmptyString c) with (String c EmptyString).
    cbn [PyStr.rstrip_char]. by rewrite Ascii.eqb_refl.
  - intros [Hx Hcur]%lacks_cons.
    change (PyStr.snoc (String x cur) c) with (String x (PyStr.snoc cur c)).
    cbn [PyStr.rstrip_char]. rewrite (IH Hcur).
    destruct cur as [|y cur]; [|done].
    destruct (Ascii.eqb_spec x c); [congruence | done].
Qed.

Lemma feed_nonempty_segment s text :
  text ≠ EmptyString → lacks PyStr.LF text → feed s text = put s text true.
Proof. destruct text as [|c text]; [done|]. intros _. apply feed_segment. Qed.

Lemma snoc_append cur c rest :
  PyStr.snoc cur c +:+ rest = cur +:+ String c rest.
Proof. unfold PyStr.snoc. by rewrite append_assoc. Qed.

(** The loop of [refreshLog] over the lines of a text, on a store without
    directive in sight, is the character-wise reading of the text. *)
Lemma add_lines_feed rest :
  ∀ cur s,
    store_ok s → partial_plain s →
    lacks PyStr.LF cur → lacks "}" cur → lacks "}" rest →
    add_lines s (PyStr.splitlines_go cur rest)
    = (feed s (cur +:+ rest), Ok tt).
Proof.
  induction rest as [|c rest IH]; intros cur s Hs Hp Hlf Hcur Hrest.
  - rewrite append_empty_r. destruct cur as [|x cur]; [done|].
    cbn [PyStr.splitlines_go add_lines].
    rewrite (endswith_lacks _ _ Hlf), (addLine_plain _ _ _ Hs Hp Hcur).
    by rewrite (feed_segment s x cur Hlf).
  - apply lacks_cons in Hrest as [Hc Hrest].
    assert (lacks "}" (PyStr.snoc cur c)) as Hcur'.
    { apply lacks_snoc. by split. }
    cbn [PyStr.splitlines_go].
    destruct (PyStr.is_linebreak c) eqn:Hbreak.
    + destruct (Ascii.eqb c PyStr.CR && PyStr.head_is rest PyStr.LF) eqn:Hcr.
      * apply andb_true_iff in Hcr as [Hcr%Ascii.eqb_eq _]. subst c.
        rewrite IH, snoc_append; try done.
        apply lacks_snoc. split; [done | discriminate].
      * cbn [add_lines]. rewrite endswith_snoc.
        destruct (Ascii.eqb_spec c PyStr.LF) as [->|Hne].
        -- rewrite (rstrip_snoc _ _ Hlf), (addLine_plain _ _ _ Hs Hp Hcur).
           rewrite IH; try done.
           ++ change (EmptyString +:+ rest) with rest.
              by rewrite <- snoc_append, feed_app, (feed_line _ _ Hlf).
           ++ by apply put_ok.
           ++ by apply put_plain.
        -- assert (lacks PyStr.LF (PyStr.snoc cur c)) as Hlf'.
           { apply lacks_snoc. split; [done | congruence]. }
           rewrite (addLine_plain _ _ _ Hs Hp Hcur').
           rewrite IH; try done.
           ++ change (EmptyString +:+ rest) with rest.
              rewrite <- snoc_append, feed_app.
              rewrite (feed_nonempty_segment s (PyStr.snoc cur c)); [done| |done].
              by destruct (snoc_cons cur c) as (x & t & ->).
           ++ by apply put_ok.
           ++ by apply put_plain.
    + rewrite IH, snoc_append; try done.
      apply lacks_snoc. split; [done|]. intros <-. discriminate.
Qed.

Lemma refreshLog_data_feed s text :
  store_ok s → partial_plain s → lacks "}" text →
  refreshLog_data s text = (feed s text, Ok tt).
Proof.
  intros Hs Hp Ht. unfold refreshLog_data.
  destruct text as [|c text]; [done|].
  by apply (add_lines_feed (String c text) EmptyString).
Qed.

(** On a store in order, with no closing brace in the line to complete nor
    in the text read, one refresh is the character-wise reading: only a
    line feed ends a line, the other line boundaries of [splitlines] stay
    in the line, and every line is black.  The store it leaves is in order
    again, with no closing brace in the line to complete. *)
Theorem refreshLog_data_plain s text :
  store_ok s → partial_plain s → lacks "}" text →
  refreshLog_data s text = (feed s text, Ok tt)
  ∧ store_ok (feed s text)
  ∧ partial_plain (feed s text).
Proof.
  intros Hs Hp Ht. split; [by apply refreshLog_data_feed|].
  by apply feed_ok.
Qed.

(** The same text read in any number of chunks leaves the store that one
    read of the whole text leaves, as long as no closing brace is in
    sight. *)
Theorem chunking_invariance chunks :
  ∀ s,
    store_ok s → partial_plain s → Forall (lacks "}") chunks →
    refreshLog_chunks s chunks = refreshLog_data s (joined_text chunks).
Proof.
  induction chunks as [|chunk chunks IH]; intros s Hs Hp Hall; [done|].
  apply Forall_cons in Hall as [Hc Hall].
  assert (lacks "}" (joined_text chunks)) as Hjoined.
  { clear -Hall. induction Hall as [|c cs Hc _ IHc]; [done|].
    cbn [joined_text fold_right]. apply lacks_app. by split. }
  cbn [refreshLog_chunks joined_text fold_right].
  fold (joined_text chunks).
  rewrite (refreshLog_data_feed s chunk Hs Hp Hc).
  destruct (feed_ok s chunk Hs Hp Hc) as [Hs' Hp'].
  rewrite (IH _ Hs' Hp' Hall).
  rewrite (refreshLog_data_feed _ _ Hs' Hp' Hjoined).
  rewrite (refreshLog_data_feed s); [by rewrite feed_app|done|done|].
  apply lacks_app. by split.
Qed.

Lemma store_ok_init : store_ok JamfLogSource_init.
Proof. split; [done | discriminate]. Qed.

Lemma partial_plain_init : partial_plain JamfLogSource_init.
Proof. intros H. discriminate. Qed.

Lemma refreshLog_data_plain_witness :
  refreshLog_data JamfLogSource_init
    ("ab" +:+ String PyStr.CR "cd" +:+ LFs +:+ "e")
  = ({| log_file_data := ["ab" +:+ String PyStr.CR "cd"; "e"];
        log_file_color := [blackColor; blackColor];
        last_line_is_partial := true |}, Ok tt).
Proof.
  destruct (refreshLog_data_plain JamfLogSource_init
              ("ab" +:+ String PyStr.CR "cd" +:+ LFs +:+ "e")
              store_ok_init partial_plain_init) as [-> _];
    [vm_compute; reflexivity|].
  vm_compute. reflexivity.
Defined.

Lemma chunking_invariance_witness :
  refreshLog_chunks JamfLogSource_init
    ["a" +:+ String PyStr.CR EmptyString; LFs +:+ "b"; "c" +:+ LFs]
  = refreshLog_data JamfLogSource_init
      ("a" +:+ String PyStr.CR EmptyString +:+ LFs +:+ "bc" +:+ LFs).
Proof.
  apply (chunking_invariance
           ["a" +:+ String PyStr.CR EmptyString; LFs +:+ "b"; "c" +:+ LFs]
           JamfLogSource_init store_ok_init partial_plain_init).
  repeat constructor; vm_compute; reflexivity.
Defined.

(** ** The line store: a read that ends after a directive *)

Lemma one_line_cons c t :
  one_line (String c t) ↔ PyStr.is_linebreak c = false ∧ one_line t.
Proof.
  unfold one_line. cbn [list_ascii_of_string forallb].
  rewrite andb_true_iff, negb_true_iff. done.
Qed.

Lemma one_line_lacks_LF t : one_line t → lacks PyStr.LF t.
Proof.
  induction t as [|c t IH]; [done|]. intros [Hc Ht]%one_line_cons.
  apply lacks_cons. split; [|by apply IH].
  intros <-. discriminate.
Qed.

Lemma splitlines_go_one_line t rest :
  ∀ cur, one_line t →
         PyStr.splitlines_go cur (t +:+ rest)
         = PyStr.splitlines_go (cur +:+ t) rest.
Proof.
  induction t as [|c t IH]; intros cur Ht.
  - by rewrite append_empty_r.
  - apply one_line_cons in Ht as [Hc Ht].
    change (String c t +:+ rest) with (String c (t +:+ rest)).
    cbn [PyStr.splitlines_go]. rewrite Hc, (IH _ Ht).
    by rewrite snoc_append.
Qed.

Lemma splitlines_one_line_LF t :
  one_line t → PyStr.splitlines_keepends (t +:+ LFs) = [PyStr.snoc t PyStr.LF].
Proof.
  intros Ht. unfold PyStr.splitlines_keepends.
  rewrite (splitlines_go_one_line t LFs EmptyString Ht).
  reflexivity.
Qed.

Lemma splitlines_one_line c t :
  one_line (String c t) → PyStr.splitlines_keepends (String c t) = [String c t].
Proof.
  intros Ht. unfold PyStr.splitlines_keepends.
  rewrite <- (append_empty_r (String c t)) at 1.
  rewrite (splitlines_go_one_line (String c t) EmptyString EmptyString Ht).
  reflexivity.
Qed.

Lemma one_line_app t1 t2 : one_line (t1 +:+ t2) ↔ one_line t1 ∧ one_line t2.
Proof.
  induction t1 as [|c t1 IH]; [by intuition|].
  change (String c t1 +:+ t2) with (String c (t1 +:+ t2)).
  rewrite !one_line_cons, IH. intuition.
Qed.

(** C7.  The text of the example, ["ab\ncd"], leaves the same store read
    at once and read as ["a"], ["b\nc"], ["d"].  But the store does depend
    on where the reads end: a read that ends after a colour directive and
    before the end of its line leaves this line black, where the same line
    read at once is red.  This holds for every line [a ++ b] without a
    closing brace, cut between [a] and [b]. *)
Theorem chunking_after_directive :
  refreshLog_chunks JamfLogSource_init ["ab" +:+ LFs +:+ "cd"]
  = refreshLog_chunks JamfLogSource_init ["a"; "b" +:+ LFs +:+ "c"; "d"]
  ∧ refreshLog_chunks JamfLogSource_init ["ab" +:+ LFs +:+ "cd"]
    = ({| log_file_data := ["ab"; "cd"];
          log_file_color := [blackColor; blackColor];
          last_line_is_partial := true |}, Ok tt)
  ∧ ∀ a b,
      one_line a → one_line b → lacks "}" a → lacks "}" b →
      refreshLog_chunks JamfLogSource_init
        ["%{color=red}" +:+ a; b +:+ LFs]
      = ({| log_file_data := [a +:+ b];
            log_file_color := [blackColor];
            last_line_is_partial := false |}, Ok tt)
      ∧ refreshLog_chunks JamfLogSource_init
          ["%{color=red}" +:+ a +:+ b +:+ LFs]
        = ({| log_file_data := [a +:+ b];
              log_file_color := [redColor];
              last_line_is_partial := false |}, Ok tt).
Proof.
  split; [vm_compute; reflexivity|].
  split; [vm_compute; reflexivity|].
  intros a b Ha Hb Hbrace_a Hbrace_b.
  assert (one_line "%{color=red}") as Hdir by (vm_compute; reflexivity).
  split.
  - cbn [refreshLog_chunks].
    assert (refreshLog_data JamfLogSource_init ("%{color=red}" +:+ a)
            = ({| log_file_data := [a]; log_file_color := [redColor];
                  last_line_is_partial := true |}, Ok tt)) as ->.
    { change ("%{color=red}" +:+ a) with (String "%" ("{color=red}" +:+ a)).
      unfold refreshLog_data. rewrite splitlines_one_line.
      - change (String "%" ("{color=red}" +:+ a)) with ("%{color=red}" +:+ a).
        cbn [add_lines]. rewrite endswith_lacks.
        + unfold addLine_partial_. cbn [last_line_is_partial JamfLogSource_init].
          by rewrite parse_directive_prefix.
        + apply one_line_lacks_LF, one_line_app. by split.
      - change (String "%" ("{color=red}" +:+ a)) with ("%{color=red}" +:+ a).
        apply one_line_app. by split. }
    assert (∀ s, refreshLog_data s (b +:+ LFs)
                 = addLine_partial_ s b false) as ->.
    { intros s. unfold refreshLog_data.
      destruct (b +:+ LFs) eqn:Hne.
      { by destruct b. }
      rewrite <- Hne. rewrite (splitlines_one_line_LF b Hb).
      cbn [add_lines]. rewrite endswith_snoc.
      change (Ascii.eqb PyStr.LF PyStr.LF) with true. cbv iota.
      rewrite (rstrip_snoc _ _ (one_line_lacks_LF b Hb)).
      by destruct (addLine_partial_ s b false) as [s' [[]|e]]. }
    unfold addLine_partial_.
    cbn [last_line_is_partial log_file_data log_file_color last].
    rewrite parse_plain; [reflexivity|].
    apply lacks_app. by split.
  - cbn [refreshLog_chunks].
    assert (one_line ("%{color=red}" +:+ a +:+ b)) as Hall.
    { apply one_line_app. split; [done|]. apply one_line_app. by split. }
    assert ("%{color=red}" +:+ a +:+ b +:+ LFs
            = ("%{color=red}" +:+ a +:+ b) +:+ LFs) as ->.
    { by rewrite !append_assoc. }
    unfold refreshLog_data.
    destruct (("%{color=red}" +:+ a +:+ b) +:+ LFs) eqn:Hne; [done|].
    rewrite <- Hne. rewrite (splitlines_one_line_LF _ Hall).
    cbn [add_lines]. rewrite endswith_snoc.
    change (Ascii.eqb PyStr.LF PyStr.LF) with true. cbv iota.
    rewrite (rstrip_snoc _ _ (one_line_lacks_LF _ Hall)).
    unfold addLine_partial_. cbn [last_line_is_partial JamfLogSource_init].
    by rewrite parse_directive_prefix.
Qed.

Lemma chunking_after_directive_witness :
  refreshLog_chunks JamfLogSource_init ["%{color=red} he"; "llo" +:+ LFs]
  = ({| log_file_data := [" hello"];
        log_file_color := [blackColor];
        last_line_is_partial := false |}, Ok tt)
  ∧ refreshLog_chunks JamfLogSource_init ["%{color=red} hello" +:+ LFs]
    = ({| log_file_data := [" hello"];
          log_file_color := [redColor];
          last_line_is_partial := false |}, Ok tt).
Proof.
  destruct chunking_after_directive as (_ & _ & H).
  apply (H " he" "llo"); vm_compute; reflexivity.
Defined.

(** ** The line store: no exception on a store in order *)

Lemma addLine_ok s line isPartial :
  store_ok s →
  ∃ s', addLine_partial_ s line isPartial = (s', Ok tt)
        ∧ store_ok s'
        ∧ lineCount s'
          = (lineCount s + if last_line_is_partial s then 0 else 1)%nat.
Proof.
  intros [Hlen Hne]. unfold addLine_partial_, lineCount.
  destruct (last_line_is_partial s) eqn:Hflag.
  - specialize (Hne eq_refl).
    destruct (proj2 (last_is_Some _) Hne) as [l ->].
    destruct (parseLineAttr_ (l +:+ line)) as [new_line color].
    destruct (log_file_color s) as [|c cs] eqn:Hc.
    { by destruct (log_file_data s). }
    eexists. split; [reflexivity|].
    cbn [log_file_data log_file_color last_line_is_partial].
    rewrite removelast_snoc_length by done.
    split; [split|lia];
      cbn [log_file_data log_file_color last_line_is_partial].
    + by rewrite !removelast_snoc_length.
    + intros _. by destruct (removelast (log_file_data s)).
  - destruct (parseLineAttr_ line) as [new_line color].
    eexists. split; [reflexivity|].
    cbn [log_file_data log_file_color last_line_is_partial].
    rewrite length_app. cbn [length].
    split; [split|done];
      cbn [log_file_data log_file_color last_line_is_partial].
    + rewrite !length_app. cbn [length]. lia.
    + intros _. by destruct (log_file_data s).
Qed.

Lemma add_lines_ok lines :
  ∀ s, store_ok s →
       ∃ s', add_lines s lines = (s', Ok tt) ∧ store_ok s'
             ∧ (lineCount s ≤ lineCount s')%nat.
Proof.
  induction lines as [|line lines IH]; intros s Hs.
  - exists s. split; [done|]. split; [done|lia].
  - cbn [add_lines].
    destruct (PyStr.endswith_char line PyStr.LF).
    + destruct (addLine_ok s (PyStr.rstrip_char PyStr.LF line) false Hs)
        as (s1 & -> & Hs1 & Hcount).
      destruct (IH s1 Hs1) as (s' & -> & Hs' & Hle).
      exists s'. split; [done|]. split; [done|lia].
    + destruct (addLine_ok s line true Hs) as (s1 & -> & Hs1 & Hcount).
      destruct (IH s1 Hs1) as (s' & -> & Hs' & Hle).
      exists s'. split; [done|]. split; [done|lia].
Qed.

(** On a store with as many colours as lines and, if the flag is up, a
    last line, no read raises, whatever the text and its directives; the
    store stays so and the number of lines never goes down.  The store of
    a new [JamfLogSource] is such a store. *)
Theorem refreshLog_chunks_ok chunks :
  ∀ s, store_ok s →
       (refreshLog_chunks s chunks).2 = Ok tt
       ∧ store_ok (refreshLog_chunks s chunks).1
       ∧ (lineCount s ≤ lineCount (refreshLog_chunks s chunks).1)%nat.
Proof.
  induction chunks as [|chunk chunks IH]; intros s Hs.
  { split; [done|]. split; [done|]. cbn. lia. }
  cbn [refreshLog_chunks].
  assert (∃ s', refreshLog_data s chunk = (s', Ok tt) ∧ store_ok s'
                ∧ (lineCount s ≤ lineCount s')%nat)
    as (s1 & -> & Hs1 & Hle).
  { unfold refreshLog_data. destruct chunk; [|by apply add_lines_ok].
    exists s. split; [done|]. split; [done|lia]. }
  destruct (IH s1 Hs1) as (Hr & Hok & Hle').
  split; [done|]. split; [done|lia].
Qed.

Lemma refreshLog_chunks_ok_witness :
  (refreshLog_chunks JamfLogSource_init
     ["%{color=red} he"; "llo" +:+ LFs +:+ "}x"]).2 = Ok tt.
Proof.
  apply (refreshLog_chunks_ok ["%{color=red} he"; "llo" +:+ LFs +:+ "}x"]
           JamfLogSource_init store_ok_init).
Defined.

Lemma splitlines_go_nonempty rest :
  ∀ cur, cur ≠ EmptyString ∨ rest ≠ EmptyString →
         PyStr.splitlines_go cur rest ≠ [].
Proof.
  induction rest as [|c rest IH]; intros cur Hne.
  - destruct cur; [by destruct Hne | done].
  - cbn [PyStr.splitlines_go].
    assert (PyStr.snoc cur c ≠ EmptyString) as Hsnoc.
    { by destruct (snoc_cons cur c) as (x & t & ->). }
    destruct (PyStr.is_linebreak c); [destruct (_ && _)|];
      [apply IH; by left | done | apply IH; by left].
Qed.

(** [removeAllLines] keeps the flag: after it, on a store whose last line
    was still to complete, the next read of any text raises [TypeError],
    at the first line, and leaves the store as it is. *)
Theorem clear_while_partial_breaks_read s text :
  last_line_is_partial s = true →
  text ≠ EmptyString →
  refreshLog_data (removeAllLines s) text
  = (removeAllLines s, Raise TypeError).
Proof.
  intros Hflag Htext. unfold refreshLog_data.
  destruct text as [|c text]; [done|].
  pose proof (splitlines_go_nonempty (String c text) EmptyString
                (or_intror Htext)) as Hlines.
  unfold PyStr.splitlines_keepends.
  destruct (PyStr.splitlines_go EmptyString (String c text))
    as [|line lines]; [done|].
  cbn [add_lines]. unfold addLine_partial_, removeAllLines.
  cbn [last_line_is_partial log_file_data last]. rewrite Hflag.
  by destruct (PyStr.endswith_char line PyStr.LF).
Qed.

Lemma clear_while_partial_breaks_read_witness :
  refreshLog_data
    (removeAllLines (refreshLog_data JamfLogSource_init "ab").1) "c"
  = (removeAllLines (refreshLog_data JamfLogSource_init "ab").1,
     Raise TypeError).
Proof.
  apply (clear_while_partial_breaks_read
           (refreshLog_data JamfLogSource_init "ab").1 "c").
  - reflexivity.
  - discriminate.
Defined.

(** ** The network snapshot: which interfaces, and addresses *)

(** The first loop of [get_network_info] never raises: it keeps, in the
    order of the list, the interfaces that have an IPv4 state, without
    [lo0], each with the [Addresses] of that state. *)
Theorem connected_devices_active sys names :
  connected_devices sys names
  = Ok (map (device_of sys) (List.filter (is_active sys) names))
  ∧ "lo0" ∉ map dev_interface
             (map (device_of sys) (List.filter (is_active sys) names)).
Proof.
  split.
  - induction names as [|n names IH]; [done|].
    cbn [connected_devices List.filter].
    fold (ipv4_status sys n). fold (is_active sys n).
    unfold is_active at 1.
    destruct (ipv4_status sys n) as [d|] eqn:Hst.
    + rewrite bool_decide_eq_true_2 by done. cbn [andb].
      destruct (String.eqb n "lo0") eqn:Hlo; cbn [negb].
      * unfold is_active. by rewrite Hlo, andb_false_r.
      * unfold is_active at 1. rewrite Hst, Hlo.
        rewrite bool_decide_eq_true_2 by done. cbn [andb negb map].
        rewrite IH. cbn. unfold device_of. by rewrite Hst.
    + rewrite bool_decide_eq_false_2 by (by intros H). cbn [andb].
      unfold is_active. rewrite Hst.
      rewrite bool_decide_eq_false_2 by (by intros H). by cbn [andb].
  - rewrite map_map. cbn [dev_interface device_of].
    intros Hin. apply list_elem_of_fmap in Hin as (n & Hn & Hin).
    apply list_elem_of_In, List.filter_In in Hin as [_ Hact].
    unfold is_active in Hact. apply andb_true_iff in Hact as [_ Hlo].
    rewrite <- Hn in Hlo. discriminate.
Qed.

Lemma format_joined_no_address copiedInterfaces (devs : list device) :
  Forall (λ d, resolved copiedInterfaces d = true) devs →
  Exists (λ d, ¬ has_address d) devs →
  format_devices (map (joined copiedInterfaces) devs) = Raise TypeError
  ∨ format_devices (map (joined copiedInterfaces) devs) = Raise IndexError.
Proof.
  induction devs as [|d devs IH]; intros Hres Hex.
  - by apply Exists_nil in Hex.
  - apply Forall_cons in Hres as [Hd Hres].
    destruct (joined_device copiedInterfaces d) as (H1 & H2 & H3).
    rewrite Hd in H3. destruct H3 as (i & Hin & Hb & Hn).
    cbn [map format_devices]. unfold format_device. rewrite Hn, H2.
    cbn [of_option mbind outcome_bind].
    destruct (property_first (dev_address d)) as [a|e] eqn:Ha.
    + apply Exists_cons in Hex as [Hex|Hex].
      { exfalso. apply Hex. by exists a. }
      destruct (IH Hres Hex) as [-> | ->]; auto.
    + destruct (property_first_error _ _ Ha) as [-> | ->]; auto.
Qed.

(** The interfaces are matched, but one of them has no first address to
    show (no [Addresses] in its IPv4 state, or an empty list): the lookup
    raises [TypeError] or [IndexError], which its handler of [KeyError]
    lets through. *)
Theorem network_info_no_address sys devs copiedInterfaces :
  active_devices sys = Ok devs →
  network_interfaces sys = Some copiedInterfaces →
  Forall (λ d, resolved copiedInterfaces d = true) devs →
  Exists (λ d, ¬ has_address d) devs →
  get_network_info sys = Raise TypeError
  ∨ get_network_info sys = Raise IndexError.
Proof.
  intros Hact Hcopy Hres Hex.
  unfold get_network_info, network_info_lookup.
  rewrite Hact, Hcopy. cbn [of_option]. simpl mbind.
  rewrite join_interfaces_map.
  destruct (format_joined_no_address _ _ Hres Hex) as [-> | ->]; auto.
Qed.

Lemma network_info_no_address_witness :
  get_network_info system_no_address = Raise TypeError
  ∨ get_network_info system_no_address = Raise IndexError.
Proof.
  apply (network_info_no_address system_no_address
           [ {| dev_interface := "en0"; dev_address := None;
                dev_name_mac := None |} ] [en0]).
  - vm_compute. reflexivity.
  - reflexivity.
  - repeat constructor.
  - apply Exists_cons_hd. intros [a Ha]. discriminate.
Defined.

(** ** The functions on user records *)

Example fix_case_unique_id : Records.fix_case "UniqueID" = "unique_id".
Proof. vm_compute. reflexivity. Qed.

Example fix_case_home :
  Records.fix_case "NFSHomeDirectory" = "nfs_home_directory".
Proof. vm_compute. reflexivity. Qed.

Example fix_case_real_name : Records.fix_case "RealName" = "real_name".
Proof. vm_compute. reflexivity. Qed.

Example smb_home_fix_server :
  Records.smb_home_fix "\\Server\Share\\Ann" = "smb://server/share/ann".
Proof. vm_compute. reflexivity. Qed.

Example mobile_user_names_dscl :
  Records.mobile_user_names
    (Ok ("ann   /Active Directory/X" +:+ LFs +:+ "root  x" +:+ LFs
         +:+ "bob y" +:+ LFs))
  = Ok ["ann"; "bob"].
Proof. vm_compute. reflexivity. Qed.

Lemma lower_byte_not_upper c :
  PyBytes.is_upper (PyStr.lower_byte c) = false.
Proof. destruct c as [[] [] [] [] [] [] [] []]; vm_compute; reflexivity. Qed.

Lemma lower_byte_id c :
  PyBytes.is_upper c = false → PyStr.lower_byte c = c.
Proof.
  destruct c as [[] [] [] [] [] [] [] []]; vm_compute;
    solve [reflexivity | discriminate].
Qed.

Lemma lower_byte_underscore c :
  Ascii.eqb (PyStr.lower_byte c) "_" = Ascii.eqb c "_".
Proof. destruct c as [[] [] [] [] [] [] [] []]; vm_compute; reflexivity. Qed.

Lemma lower_byte_backslash c : "\"%char ≠ c → "\"%char ≠ PyStr.lower_byte c.
Proof.
  destruct c as [[] [] [] [] [] [] [] []]; vm_compute; intros H;
    solve [discriminate | exact H].
Qed.

Lemma no_upper_cons c t :
  no_upper (String c t) ↔ PyBytes.is_upper c = false ∧ no_upper t.
Proof.
  unfold no_upper. cbn [list_ascii_of_string forallb].
  rewrite andb_true_iff, negb_true_iff. done.
Qed.

Lemma lower_bytes_no_upper t : no_upper (PyStr.lower_bytes t).
Proof.
  induction t as [|c t IH]; [done|].
  cbn [PyStr.lower_bytes]. apply no_upper_cons.
  split; [apply lower_byte_not_upper | done].
Qed.

Lemma lower_bytes_id t : no_upper t → PyStr.lower_bytes t = t.
Proof.
  induction t as [|c t IH]; [done|]. intros [Hc Ht]%no_upper_cons.
  cbn [PyStr.lower_bytes]. by rewrite (lower_byte_id c Hc), IH.
Qed.

Lemma sub_word_id t : no_upper t → ∀ in_run, Records.sub_word in_run t = t.
Proof.
  induction t as [|c t IH]; [done|]. intros [Hc Ht]%no_upper_cons in_run.
  cbn [Records.sub_word].
  destruct (in_run && PyBytes.is_lower c); [by rewrite IH|].
  destruct t as [|u [|l t']]; [done| by rewrite IH |].
  apply no_upper_cons in Ht as [Hu Ht'].
  rewrite Hu, andb_false_r. cbn [andb]. rewrite IH; [done|].
  by apply no_upper_cons.
Qed.

Lemma sub_hump_id t : no_upper t → Records.sub_hump t = t.
Proof.
  induction t as [|c t IH]; [done|]. intros [Hc Ht]%no_upper_cons.
  cbn [Records.sub_hump]. destruct t as [|u t']; [done|].
  pose proof Ht as [Hu _]%no_upper_cons.
  rewrite Hu, andb_false_r. by rewrite IH.
Qed.

(** [fix_case] gives a name without capital letters, and a name it has
    given is left as it is: the two substitutions find nothing to do in
    it. *)
Theorem fix_case_idempotent pascal_case :
  no_upper (Records.fix_case pascal_case)
  ∧ Records.fix_case (Records.fix_case pascal_case)
    = Records.fix_case pascal_case.
Proof.
  assert (no_upper (Records.fix_case pascal_case)) as H.
  { apply lower_bytes_no_upper. }
  split; [done|]. unfold Records.fix_case at 1.
  rewrite (sub_word_id _ H), (sub_hump_id _ H). by apply lower_bytes_id.
Qed.

Lemma drop_underscores_lower t :
  drop_underscores (PyStr.lower_bytes t)
  = PyStr.lower_bytes (drop_underscores t).
Proof.
  induction t as [|c t IH]; [done|].
  cbn [PyStr.lower_bytes drop_underscores].
  rewrite lower_byte_underscore.
  destruct (Ascii.eqb c "_"); [done|].
  cbn [PyStr.lower_bytes]. by rewrite IH.
Qed.

Lemma drop_underscores_sub_word n :
  ∀ t in_run, (String.length t ≤ n)%nat →
              drop_underscores (Records.sub_word in_run t)
              = drop_underscores t.
Proof.
  induction n as [|n IH]; intros t in_run Hlen.
  { destruct t; [done | cbn in Hlen; lia]. }
  destruct t as [|c t]; [done|]. cbn [String.length] in Hlen.
  cbn [Records.sub_word].
  destruct (in_run && PyBytes.is_lower c).
  { cbn [drop_underscores]. rewrite IH by (cbn in *; lia). done. }
  destruct t as [|u [|l t']].
  - done.
  - cbn [drop_underscores]. rewrite IH by (cbn in *; lia). done.
  - cbn [String.length] in Hlen.
    destruct (negb (Ascii.eqb c PyStr.LF) && PyBytes.is_upper u
              && PyBytes.is_lower l).
    + cbn [drop_underscores]. rewrite Ascii.eqb_refl.
      rewrite IH by (cbn in *; lia). done.
    + cbn [drop_underscores]. rewrite IH by (cbn in *; lia). done.
Qed.

Lemma drop_underscores_sub_hump n :
  ∀ t, (String.length t ≤ n)%nat →
       drop_underscores (Records.sub_hump t) = drop_underscores t.
Proof.
  induction n as [|n IH]; intros t Hlen.
  { destruct t; [done | cbn in Hlen; lia]. }
  destruct t as [|c t]; [done|]. cbn [String.length] in Hlen.
  cbn [Records.sub_hump]. destruct t as [|u t']; [done|].
  cbn [String.length] in Hlen.
  destruct ((PyBytes.is_lower c || PyBytes.is_digit c) && PyBytes.is_upper u).
  - cbn [drop_underscores]. rewrite Ascii.eqb_refl.
    rewrite IH by (cbn in *; lia). done.
  - cbn [drop_underscores]. rewrite IH by (cbn in *; lia). done.
Qed.

(** All [fix_case] does to a name is to add underscores and to turn its
    capital letters into small ones: without the underscores, its result
    is the name without its underscores, in small letters. *)
Theorem fix_case_adds_underscores pascal_case :
  drop_underscores (Records.fix_case pascal_case)
  = PyStr.lower_bytes (drop_underscores pascal_case).
Proof.
  unfold Records.fix_case. rewrite drop_underscores_lower.
  rewrite (drop_underscores_sub_hump _ _ (Nat.le_refl _)).
  by rewrite (drop_underscores_sub_word _ _ _ (Nat.le_refl _)).
Qed.

Lemma split_lacks sep t : Forall (lacks sep) (PyStr.split sep t).
Proof.
  induction t as [|c t IH]; [by repeat constructor|].
  cbn [PyStr.split]. destruct (Ascii.eqb_spec c sep) as [->|Hne].
  - by constructor.
  - destruct (PyStr.split sep t) as [|h rest].
    + repeat constructor. apply lacks_cons. split; [congruence | done].
    + apply Forall_cons in IH as [Hh Hrest]. constructor; [|done].
      apply lacks_cons. split; [congruence | done].
Qed.

Lemma join_lacks c sep l :
  lacks c sep → Forall (lacks c) l → lacks c (PyStr.join sep l).
Proof.
  intros Hsep. induction 1 as [|x l Hx Hl IH]; [done|].
  cbn [PyStr.join]. destruct l as [|y l]; [done|].
  apply lacks_app. split; [done|]. apply lacks_app. by split.
Qed.

Lemma lower_bytes_lacks_backslash t :
  lacks "\" t → lacks "\" (PyStr.lower_bytes t).
Proof.
  induction t as [|c t IH]; [done|]. intros [Hc Ht]%lacks_cons.
  cbn [PyStr.lower_bytes]. apply lacks_cons.
  split; [by apply lower_byte_backslash | by apply IH].
Qed.

(** [smb_home_fix] gives [smb://] followed by a path without backslash
    and without capital letter. *)
Theorem smb_home_fix_shape smb_home :
  ∃ path, Records.smb_home_fix smb_home = "smb://" +:+ path
          ∧ lacks "\" path
          ∧ no_upper path.
Proof.
  eexists. split; [reflexivity|]. split.
  - apply lower_bytes_lacks_backslash, join_lacks; [done|].
    apply Forall_forall. intros x Hx%list_elem_of_In.
    apply List.filter_In in Hx as [Hx _].
    revert x Hx. apply List.Forall_forall.
    apply Forall_forall. intros x Hx.
    by apply (proj1 (Forall_forall _ _) (split_lacks "\" smb_home)).
  - apply lower_bytes_no_upper.
Qed.

Lemma first_field_lacks u : lacks " " (Records.first_field u).
Proof.
  unfold Records.first_field. pose proof (split_lacks " " u) as H.
  destruct (PyStr.split " " u) as [|name rest]; [done|].
  by apply Forall_cons in H as [H _].
Qed.

(** The names [get_mobile_users] makes users of are never [admin],
    [root], [daemon], [guest] or [nobody] and hold no space; no name at
    all if [dscl] ends with a non-zero status; any other exception of the
    call is not caught. *)
Theorem mobile_user_names_filtered dscl :
  (∀ names, Records.mobile_user_names dscl = Ok names →
            Forall (λ name, (name ∉ Records.ignored_users) ∧ lacks " " name)
                   names)
  ∧ (dscl = Raise CalledProcessError →
     Records.mobile_user_names dscl = Ok [])
  ∧ (∀ e, dscl = Raise e → e ≠ CalledProcessError →
          Records.mobile_user_names dscl = Raise e).
Proof.
  split; [|split].
  - intros names. unfold Records.mobile_user_names.
    destruct (try_except _ _ _) as [cmd_out|e]; [|done].
    cbn [mbind outcome_bind mret outcome_ret]. intros [= <-].
    apply Forall_forall. intros name Hin%list_elem_of_In.
    apply List.filter_In in Hin as [Hin Hkeep].
    apply negb_true_iff, bool_decide_eq_false in Hkeep.
    split; [done|].
    apply List.in_map_iff in Hin as (u & <- & _). apply first_field_lacks.
  - intros ->. reflexivity.
  - intros e -> Hne. unfold Records.mobile_user_names, try_except.
    cbn [mbind outcome_bind]. by destruct (decide (e = CalledProcessError)).
Qed.

Lemma mobile_user_names_filtered_witness :
  Forall (λ name, (name ∉ Records.ignored_users) ∧ lacks " " name)
         ["ann"; "bob"]
  ∧ Records.mobile_user_names (Raise CalledProcessError) = Ok []
  ∧ Records.mobile_user_names (Raise OSError) = Raise OSError.
Proof.
  pose proof (mobile_user_names_filtered
                (Ok ("ann   /Active Directory/X" +:+ LFs +:+ "root  x"
                     +:+ LFs +:+ "bob y" +:+ LFs))) as (H & _ & _).
  pose proof (mobile_user_names_filtered (Raise CalledProcessError))
    as (_ & H0 & _).
  pose proof (mobile_user_names_filtered (Raise OSError)) as (_ & _ & H1).
  split; [apply H; vm_compute; reflexivity|].
  split; [apply H0; reflexivity|].
  apply (H1 OSError); [reflexivity | discriminate].
Defined.

(** With [get_output] false, [run_as_me] gives [False] when the command
    wrote nothing, [True] when it wrote to its standard output only, and
    raises [AttributeError] as soon as it wrote to its standard error:
    [results] is a pair and has no [returncode]. *)
Theorem run_as_me_status self real_name out err :
  self !! "real_name" = Some real_name →
  Records.run_as_me self (Ok (PStr out, PStr err)) false
  = if String.eqb err EmptyString
    then Ok (inr (negb (String.eqb out EmptyString)))
    else Raise AttributeError.
Proof.
  intros Hname. unfold Records.run_as_me. rewrite Hname.
  cbn [of_option mbind outcome_bind Records._run_as_me try_except mret
       outcome_ret fst snd Records.truthy Records.nonempty].
  unfold Records.nonempty.
  destruct (String.eqb err EmptyString), (String.eqb out EmptyString);
    reflexivity.
Qed.

Lemma run_as_me_status_witness :
  Records.run_as_me {[ "real_name" := PStr "Ann" ]}
    (Ok (PStr "done", PStr "warning: x")) false
  = Raise AttributeError.
Proof.
  apply (run_as_me_status {[ "real_name" := PStr "Ann" ]} (PStr "Ann")
           "done" "warning: x").
  reflexivity.
Defined.
